(** * The device manager of guh: a shallow embedding of [devicemanager.cpp]

    The development follows [src/libguh/devicemanager.cpp].  Value types of
    the Qt library and of headers that are not part of the sources
    ([QVariant], [ParamType], [DeviceClass], ...) are records carrying the
    accessors the manager calls.  Objects reached through pointers
    ([Device *], [DevicePlugin *]) live at addresses; the manager's members
    keep addresses, as the C++ members keep pointers. *)

From Stdlib Require Import ZArith.
From stdpp Require Import gmap strings list fin_maps sorting.

Open Scope string_scope.
Open Scope list_scope.

(** ** Identifiers

    Every id type of the code ([PluginId], [DeviceClassId], [DeviceId], ...)
    is a [QUuid], a 128-bit value; the null uuid is [0]. *)

Abbreviation QUuid := N (only parsing).

Definition uuid_isNull (u : QUuid) : bool := N.eqb u 0%N.

(** ** QVariant

    The payload kinds the manager handles.  [QVInvalid] is the
    default-constructed [QVariant()]: it is null and not valid. *)

Inductive QVariant : Type :=
| QVInvalid
| QVBool (b : bool)
| QVInt (z : Z)
| QVUInt (n : N)
| QVString (s : string)
| QVUuid (u : QUuid)
| QVStringList (l : list string).

Inductive QVariantType : Type :=
| TypeBool | TypeInt | TypeUInt | TypeDouble | TypeString | TypeUuid
| TypeStringList | TypeColor | TypeTime | TypeObject | TypeVariant.

Definition variant_isNull (v : QVariant) : bool :=
  match v with QVInvalid => true | _ => false end.

Definition variant_isValid (v : QVariant) : bool :=
  match v with QVInvalid => false | _ => true end.

(** The conversion table and the comparison operators of [QVariant] belong
    to Qt.  The manager is parametric in them. *)

Record QVariantOps : Type := {
  canConvert : QVariant → QVariantType → bool;
  variant_gt : QVariant → QVariant → bool;
  variant_lt : QVariant → QVariant → bool;
  variant_eq : QVariant → QVariant → bool
}.

(** ** Schema atoms and params *)

Record ParamType : Type := {
  pt_name : string;
  pt_type : QVariantType;
  pt_defaultValue : QVariant;
  pt_minValue : QVariant;
  pt_maxValue : QVariant;
  pt_allowedValues : list QVariant
}.

Record Param : Type := mkParam {
  param_name : string;
  param_value : QVariant
}.

(** [ParamList] is a [QList<Param>]: order and duplicates are kept. *)
Abbreviation ParamList := (list Param) (only parsing).

(** ** Error and status enums *)

Inductive DeviceError : Type :=
| DeviceErrorNoError
| DeviceErrorPluginNotFound
| DeviceErrorDeviceNotFound
| DeviceErrorDeviceClassNotFound
| DeviceErrorActionTypeNotFound
| DeviceErrorStateTypeNotFound
| DeviceErrorEventTypeNotFound
| DeviceErrorDeviceDescriptorNotFound
| DeviceErrorMissingParameter
| DeviceErrorInvalidParameter
| DeviceErrorSetupFailed
| DeviceErrorDuplicateUuid
| DeviceErrorCreationMethodNotSupported
| DeviceErrorSetupMethodNotSupported
| DeviceErrorHardwareNotAvailable
| DeviceErrorHardwareFailure
| DeviceErrorAsync
| DeviceErrorDeviceInUse
| DeviceErrorPairingTransactionIdNotFound.

Inductive DeviceSetupStatus : Type :=
| DeviceSetupStatusSuccess
| DeviceSetupStatusFailure
| DeviceSetupStatusAsync.

Inductive HardwareResource : Type :=
| HardwareResourceNone
| HardwareResourceRadio433
| HardwareResourceRadio868
| HardwareResourceTimer
| HardwareResourceUpnpDisovery.

Inductive CreateMethod : Type :=
| CreateMethodUser | CreateMethodAuto | CreateMethodDiscovery.

Inductive SetupMethod : Type :=
| SetupMethodJustAdd | SetupMethodDisplayPin | SetupMethodEnterPin
| SetupMethodPushButton.

#[global] Instance DeviceError_eq_dec : EqDecision DeviceError.
Proof. solve_decision. Defined.
#[global] Instance DeviceSetupStatus_eq_dec : EqDecision DeviceSetupStatus.
Proof. solve_decision. Defined.
#[global] Instance HardwareResource_eq_dec : EqDecision HardwareResource.
Proof. solve_decision. Defined.
#[global] Instance CreateMethod_eq_dec : EqDecision CreateMethod.
Proof. solve_decision. Defined.
#[global] Instance SetupMethod_eq_dec : EqDecision SetupMethod.
Proof. solve_decision. Defined.

(** [QFlags::testFlag] on a flag set kept as the list of its members. *)
Definition testFlag `{EqDecision A} (flags : list A) (f : A) : bool :=
  bool_decide (f ∈ flags).

(** ** The param validator: [verifyParam] and [verifyParams] *)

Section Validator.
Variable qt : QVariantOps.

(** [DeviceManager::verifyParam(const ParamType &, const Param &)] *)
Definition verifyParam (paramType : ParamType) (param : Param) : DeviceError :=
  if String.eqb (pt_name paramType) (param_name param) then
    if negb (canConvert qt (param_value param) (pt_type paramType)) then
      DeviceErrorInvalidParameter
    else if variant_isValid (pt_maxValue paramType)
            && variant_gt qt (param_value param) (pt_maxValue paramType) then
      DeviceErrorInvalidParameter
    else if variant_isValid (pt_minValue paramType)
            && variant_lt qt (param_value param) (pt_minValue paramType) then
      DeviceErrorInvalidParameter
    else if negb (bool_decide (pt_allowedValues paramType = []))
            && negb (existsb (variant_eq qt (param_value param))
                             (pt_allowedValues paramType)) then
      DeviceErrorInvalidParameter
    else DeviceErrorNoError
  else DeviceErrorInvalidParameter.

(** [DeviceManager::verifyParam(const QList<ParamType>, const Param &)]:
    the first ParamType of that name decides. *)
Fixpoint verifyParamIn (paramTypes : list ParamType) (param : Param)
  : DeviceError :=
  match paramTypes with
  | [] => DeviceErrorInvalidParameter
  | paramType :: rest =>
      if String.eqb (pt_name paramType) (param_name param)
      then verifyParam paramType param
      else verifyParamIn rest param
  end.

(** First loop of [verifyParams]: the first param that fails decides. *)
Fixpoint verifyEach (paramTypes : list ParamType) (params : ParamList)
  : DeviceError :=
  match params with
  | [] => DeviceErrorNoError
  | param :: rest =>
      match verifyParamIn paramTypes param with
      | DeviceErrorNoError => verifyEach paramTypes rest
      | result => result
      end
  end.

(** The inner loop of the second part: is there a param of that name. *)
Definition paramFound (paramType : ParamType) (params : ParamList) : bool :=
  existsb (λ param, String.eqb (pt_name paramType) (param_name param)) params.

(** Second loop of [verifyParams].  [params] is the caller's list, passed
    by reference: a default is appended to it, and the lookup of the next
    ParamType reads the list as it is by then. *)
Fixpoint fillRequired (paramTypes : list ParamType) (params : ParamList)
  : DeviceError * ParamList :=
  match paramTypes with
  | [] => (DeviceErrorNoError, params)
  | paramType :: rest =>
      let found := paramFound paramType params in
      let '(found, params) :=
        if negb (variant_isNull (pt_defaultValue paramType))
        then (true, params ++ [mkParam (pt_name paramType)
                                       (pt_defaultValue paramType)])
        else (found, params) in
      if negb found then (DeviceErrorMissingParameter, params)
      else fillRequired rest params
  end.

(** [DeviceManager::verifyParams]: the result and the param list as the
    call leaves it. *)
Definition verifyParams (paramTypes : list ParamType) (params : ParamList)
           (requireAll : bool) : DeviceError * ParamList :=
  match verifyEach paramTypes params with
  | DeviceErrorNoError =>
      if negb requireAll then (DeviceErrorNoError, params)
      else fillRequired paramTypes params
  | result => (result, params)
  end.
End Validator.

(** Modelled from the spec: the default of the [requireAll] argument of
    [verifyParams] is declared in devicemanager.h, which is not among the
    sources; the callers that leave the argument out validate with
    requireAll=true. *)
Definition requireAll_default : bool := true.

(** ** Plugin metadata *)

Inductive QJsonValue : Type :=
| JsonNull
| JsonBool (b : bool)
| JsonString (s : string)
| JsonArray (items : list string).

(** A [QJsonObject] maps keys to values. *)
Abbreviation QJsonObject := (gmap string QJsonValue) (only parsing).

Definition json_contains (data : QJsonObject) (key : string) : bool :=
  bool_decide (is_Some (data !! key)).

Definition requiredFields : list string := ["name"; "id"; "vendors"].

(** The loop of [verifyPluginMetadata]: one test per required field; the
    test the source writes looks [name] up at every round. *)
Fixpoint verifyPluginMetadata_loop (fields : list string) (data : QJsonObject)
  : bool :=
  match fields with
  | [] => true
  | field :: rest =>
      if negb (json_contains data "name") then false
      else verifyPluginMetadata_loop rest data
  end.

Definition verifyPluginMetadata (data : QJsonObject) : bool :=
  verifyPluginMetadata_loop requiredFields data.

(** ** Catalog entries, descriptors, devices and plugins *)

Record StateType : Type := {
  st_id : QUuid;
  st_defaultValue : QVariant
}.

Record State : Type := mkState {
  state_stateTypeId : QUuid;
  state_deviceId : QUuid;
  state_value : QVariant
}.

Record DeviceClass : Type := {
  dc_id : QUuid;
  dc_vendorId : QUuid;
  dc_pluginId : QUuid;
  dc_name : string;
  dc_createMethods : list CreateMethod;
  dc_setupMethod : SetupMethod;
  dc_paramTypes : list ParamType;
  dc_discoveryParamTypes : list ParamType;
  dc_stateTypes : list StateType
}.

(** Modelled from the spec: plugin/deviceclass.h and its implementation are
    not among the sources.  This is the default-constructed
    [DeviceClass()], the invalid sentinel that [findDeviceClass] and
    [QHash::value] return for an unknown id: all its ids are null. *)
Definition DeviceClass_default : DeviceClass :=
  {| dc_id := 0%N; dc_vendorId := 0%N; dc_pluginId := 0%N; dc_name := "";
     dc_createMethods := [CreateMethodUser];
     dc_setupMethod := SetupMethodJustAdd;
     dc_paramTypes := []; dc_discoveryParamTypes := []; dc_stateTypes := [] |}.

(** Modelled from the spec: [DeviceClass::isValid()] is not among the
    sources.  A class is valid when its id and its plugin id are set; the
    sentinel is not. *)
Definition dc_isValid (deviceClass : DeviceClass) : bool :=
  negb (uuid_isNull (dc_id deviceClass))
  && negb (uuid_isNull (dc_pluginId deviceClass)).

Record DeviceDescriptor : Type := {
  dd_id : QUuid;
  dd_deviceClassId : QUuid;
  dd_title : string;
  dd_params : ParamList
}.

(** Modelled from the spec: plugin/devicedescriptor.h is not among the
    sources.  This is what [QHash::take] and [QHash::value] return for a
    missing key: a descriptor that belongs to no device class and has no
    params. *)
Definition DeviceDescriptor_default : DeviceDescriptor :=
  {| dd_id := 0%N; dd_deviceClassId := 0%N; dd_title := ""; dd_params := [] |}.

(** Modelled from the spec: [DeviceDescriptor::isValid()] is not among the
    sources.  A descriptor is valid when its id and the id of its device
    class are set. *)
Definition dd_isValid (descriptor : DeviceDescriptor) : bool :=
  negb (uuid_isNull (dd_id descriptor))
  && negb (uuid_isNull (dd_deviceClassId descriptor)).

Record Device : Type := mkDevice {
  dev_pluginId : QUuid;
  dev_id : QUuid;
  dev_deviceClassId : QUuid;
  dev_name : string;
  dev_params : ParamList;
  dev_states : list State;
  dev_setupComplete : bool
}.

(** [new Device(pluginId, id, deviceClassId, parent)] followed by [setName]
    and [setParams]. *)
Definition Device_new (pluginId id deviceClassId : QUuid) (name : string)
           (params : ParamList) : Device :=
  mkDevice pluginId id deviceClassId name params [] false.

Definition Device_setStates (states : list State) (d : Device) : Device :=
  mkDevice (dev_pluginId d) (dev_id d) (dev_deviceClassId d) (dev_name d)
           (dev_params d) states (dev_setupComplete d).

Definition Device_setupCompleted (d : Device) : Device :=
  mkDevice (dev_pluginId d) (dev_id d) (dev_deviceClassId d) (dev_name d)
           (dev_params d) (dev_states d) true.

(** A loaded plugin.  [plugin_addr] is the address of the object: the
    manager compares plugins as pointers.  The virtual methods whose result
    the manager reads are functions of their arguments; the calls are
    recorded in the trace. *)
Record DevicePlugin : Type := {
  plugin_addr : nat;
  plugin_pluginId : QUuid;
  plugin_requiredHardware : list HardwareResource;
  plugin_setupDevice : Device → DeviceSetupStatus;
  plugin_confirmPairing : QUuid → QUuid → ParamList → DeviceSetupStatus;
  plugin_discoverDevices : QUuid → ParamList → DeviceError
}.

Definition samePlugin (p q : DevicePlugin) : bool :=
  Nat.eqb (plugin_addr p) (plugin_addr q).

(** [QList<DevicePlugin*>::contains] *)
Definition containsPlugin (plugins : list DevicePlugin) (p : DevicePlugin) : bool :=
  existsb (samePlugin p) plugins.

(** [QList<DevicePlugin*>::removeOne]: drops the first occurrence. *)
Fixpoint removeOnePlugin (p : DevicePlugin) (plugins : list DevicePlugin)
  : list DevicePlugin :=
  match plugins with
  | [] => []
  | q :: rest => if samePlugin p q then rest else q :: removeOnePlugin p rest
  end.

(** [QList<Device*>::removeAll] *)
Definition removeAllDevice (device : nat) (devices : list nat) : list nat :=
  filter (λ d, d ≠ device) devices.

Record Event : Type := mkEvent {
  event_eventTypeId : QUuid;
  event_deviceId : QUuid;
  event_params : ParamList;
  event_isStateChangeEvent : bool
}.

(** One group of [DeviceConfig/] in the settings file. *)
Record StoredDevice : Type := mkStored {
  sd_devicename : string;
  sd_deviceClassId : QUuid;
  sd_pluginid : QUuid;
  sd_params : gmap string QVariant
}.

(** ** What the manager emits and what it calls

    Signals of the manager and calls into plugins, in the order they occur.
    Devices are named by address, plugins by address. *)
Inductive Effect : Type :=
| EmitDeviceSetupFinished (device : nat) (status : DeviceError)
| EmitDeviceStateChanged (device : nat) (stateTypeId : QUuid) (value : QVariant)
| EmitEventTriggered (event : Event)
| EmitPairingFinished (tx : QUuid) (status : DeviceError) (deviceId : QUuid)
| EmitDevicesDiscovered (deviceClassId : QUuid) (descriptors : list DeviceDescriptor)
| CallSetupDevice (plugin : nat) (device : nat)
| CallDeviceRemoved (plugin : nat) (device : nat)
| CallConfirmPairing (plugin : nat) (tx : QUuid) (deviceClassId : QUuid)
                     (params : ParamList)
| CallDiscoverDevices (plugin : nat) (deviceClassId : QUuid) (params : ParamList)
| CallGuhTimer (plugin : nat)
| CallRadioData (plugin : nat) (rawData : list Z).

(** ** The manager's state

    The members of [DeviceManager], the [Device] objects it allocated, the
    [DeviceConfig] group of its settings file, the single-shot timer events
    waiting in the event loop, the connections to [stateValueChanged], and
    the trace of effects.  Of [m_pluginTimer] the state keeps the interval
    in milliseconds and whether the timer is active. *)
Record DeviceManager : Type := mkManager {
  m_supportedDevices : gmap N DeviceClass;
  m_devicePlugins : gmap N DevicePlugin;
  m_configuredDevices : list nat;
  m_discoveredDevices : gmap N DeviceDescriptor;
  m_pairingsJustAdd : gmap N (N * list Param);
  m_pairingsDiscovery : gmap N (N * N);
  m_discoveringPlugins : list DevicePlugin;
  m_pluginTimerInterval : Z;
  m_pluginTimerActive : bool;
  m_pluginTimerUsers : list nat;
  objects : gmap nat Device;
  settings : gmap N StoredDevice;
  queuedTimerEvents : nat;
  connections : list nat;
  trace : list Effect
}.

Definition set_configuredDevices (f : list nat → list nat) (m : DeviceManager) :=
  mkManager (m_supportedDevices m) (m_devicePlugins m) (f (m_configuredDevices m))
    (m_discoveredDevices m) (m_pairingsJustAdd m) (m_pairingsDiscovery m)
    (m_discoveringPlugins m) (m_pluginTimerInterval m) (m_pluginTimerActive m)
    (m_pluginTimerUsers m)
    (objects m) (settings m) (queuedTimerEvents m) (connections m) (trace m).

Definition set_discoveredDevices
           (f : gmap N DeviceDescriptor → gmap N DeviceDescriptor) (m : DeviceManager) :=
  mkManager (m_supportedDevices m) (m_devicePlugins m) (m_configuredDevices m)
    (f (m_discoveredDevices m)) (m_pairingsJustAdd m) (m_pairingsDiscovery m)
    (m_discoveringPlugins m) (m_pluginTimerInterval m) (m_pluginTimerActive m)
    (m_pluginTimerUsers m)
    (objects m) (settings m) (queuedTimerEvents m) (connections m) (trace m).

Definition set_pairingsJustAdd
           (f : gmap N (N * list Param) → gmap N (N * list Param)) (m : DeviceManager) :=
  mkManager (m_supportedDevices m) (m_devicePlugins m) (m_configuredDevices m)
    (m_discoveredDevices m) (f (m_pairingsJustAdd m)) (m_pairingsDiscovery m)
    (m_discoveringPlugins m) (m_pluginTimerInterval m) (m_pluginTimerActive m)
    (m_pluginTimerUsers m)
    (objects m) (settings m) (queuedTimerEvents m) (connections m) (trace m).

Definition set_pairingsDiscovery
           (f : gmap N (N * N) → gmap N (N * N)) (m : DeviceManager) :=
  mkManager (m_supportedDevices m) (m_devicePlugins m) (m_configuredDevices m)
    (m_discoveredDevices m) (m_pairingsJustAdd m) (f (m_pairingsDiscovery m))
    (m_discoveringPlugins m) (m_pluginTimerInterval m) (m_pluginTimerActive m)
    (m_pluginTimerUsers m)
    (objects m) (settings m) (queuedTimerEvents m) (connections m) (trace m).

Definition set_discoveringPlugins
           (f : list DevicePlugin → list DevicePlugin) (m : DeviceManager) :=
  mkManager (m_supportedDevices m) (m_devicePlugins m) (m_configuredDevices m)
    (m_discoveredDevices m) (m_pairingsJustAdd m) (m_pairingsDiscovery m)
    (f (m_discoveringPlugins m)) (m_pluginTimerInterval m) (m_pluginTimerActive m)
    (m_pluginTimerUsers m)
    (objects m) (settings m) (queuedTimerEvents m) (connections m) (trace m).

Definition set_pluginTimerActive (b : bool) (m : DeviceManager) :=
  mkManager (m_supportedDevices m) (m_devicePlugins m) (m_configuredDevices m)
    (m_discoveredDevices m) (m_pairingsJustAdd m) (m_pairingsDiscovery m)
    (m_discoveringPlugins m) (m_pluginTimerInterval m) b (m_pluginTimerUsers m)
    (objects m) (settings m) (queuedTimerEvents m) (connections m) (trace m).

Definition set_pluginTimerUsers (f : list nat → list nat) (m : DeviceManager) :=
  mkManager (m_supportedDevices m) (m_devicePlugins m) (m_configuredDevices m)
    (m_discoveredDevices m) (m_pairingsJustAdd m) (m_pairingsDiscovery m)
    (m_discoveringPlugins m) (m_pluginTimerInterval m) (m_pluginTimerActive m)
    (f (m_pluginTimerUsers m))
    (objects m) (settings m) (queuedTimerEvents m) (connections m) (trace m).

Definition set_objects (f : gmap nat Device → gmap nat Device) (m : DeviceManager) :=
  mkManager (m_supportedDevices m) (m_devicePlugins m) (m_configuredDevices m)
    (m_discoveredDevices m) (m_pairingsJustAdd m) (m_pairingsDiscovery m)
    (m_discoveringPlugins m) (m_pluginTimerInterval m) (m_pluginTimerActive m)
    (m_pluginTimerUsers m)
    (f (objects m)) (settings m) (queuedTimerEvents m) (connections m) (trace m).

Definition set_settings
           (f : gmap N StoredDevice → gmap N StoredDevice) (m : DeviceManager) :=
  mkManager (m_supportedDevices m) (m_devicePlugins m) (m_configuredDevices m)
    (m_discoveredDevices m) (m_pairingsJustAdd m) (m_pairingsDiscovery m)
    (m_discoveringPlugins m) (m_pluginTimerInterval m) (m_pluginTimerActive m)
    (m_pluginTimerUsers m)
    (objects m) (f (settings m)) (queuedTimerEvents m) (connections m) (trace m).

Definition set_queuedTimerEvents (f : nat → nat) (m : DeviceManager) :=
  mkManager (m_supportedDevices m) (m_devicePlugins m) (m_configuredDevices m)
    (m_discoveredDevices m) (m_pairingsJustAdd m) (m_pairingsDiscovery m)
    (m_discoveringPlugins m) (m_pluginTimerInterval m) (m_pluginTimerActive m)
    (m_pluginTimerUsers m)
    (objects m) (settings m) (f (queuedTimerEvents m)) (connections m) (trace m).

Definition set_connections (f : list nat → list nat) (m : DeviceManager) :=
  mkManager (m_supportedDevices m) (m_devicePlugins m) (m_configuredDevices m)
    (m_discoveredDevices m) (m_pairingsJustAdd m) (m_pairingsDiscovery m)
    (m_discoveringPlugins m) (m_pluginTimerInterval m) (m_pluginTimerActive m)
    (m_pluginTimerUsers m)
    (objects m) (settings m) (queuedTimerEvents m) (f (connections m)) (trace m).

Definition set_trace (f : list Effect → list Effect) (m : DeviceManager) :=
  mkManager (m_supportedDevices m) (m_devicePlugins m) (m_configuredDevices m)
    (m_discoveredDevices m) (m_pairingsJustAdd m) (m_pairingsDiscovery m)
    (m_discoveringPlugins m) (m_pluginTimerInterval m) (m_pluginTimerActive m)
    (m_pluginTimerUsers m)
    (objects m) (settings m) (queuedTimerEvents m) (connections m) (f (trace m)).

(** ** The monad of the manager's methods

    A method reads and writes the manager and may stop without a result:
    [None] is a read through a null or dangling pointer. *)
Definition M (A : Type) : Type := DeviceManager → option (A * DeviceManager).

#[global] Instance M_ret : MRet M := λ A a m, Some (a, m).
#[global] Instance M_bind : MBind M :=
  λ A B f c m, match c m with Some (a, m') => f a m' | None => None end.

Definition get : M DeviceManager := λ m, Some (m, m).
Definition modify (f : DeviceManager → DeviceManager) : M unit :=
  λ m, Some (tt, f m).
Definition crash {A} : M A := λ _, None.
Definition emit (e : Effect) : M unit := modify (set_trace (λ t, t ++ [e])).

(** ** Object access *)

(** [device->...]: reading through a pointer that names no live object
    stops the method. *)
Definition readDevice (device : nat) : M Device :=
  λ m, match objects m !! device with Some d => Some (d, m) | None => None end.

Definition writeDevice (device : nat) (f : Device → Device) : M unit :=
  d ← readDevice device;
  modify (set_objects (λ o, <[device := f d]> o)).

(** [new Device(...)]: the object gets an address no live object has. *)
Definition newDevice (d : Device) : M nat :=
  m ← get;
  let device := fresh (dom (objects m)) in
  modify (set_objects (λ o, <[device := d]> o));;
  mret device.

(** [delete device]; the destructor of a [QObject] drops its connections. *)
Definition deleteDevice (device : nat) : M unit :=
  modify (set_objects (λ o, delete device o));;
  modify (set_connections (removeAllDevice device)).

(** ** Lookups *)

(** [DeviceManager::findDeviceClass]: a search through the values of
    [m_supportedDevices] for the id; [DeviceClass()] when there is none. *)
Definition findDeviceClass (m : DeviceManager) (deviceClassId : QUuid) : DeviceClass :=
  match list_find (λ kv, dc_id kv.2 = deviceClassId)
                  (map_to_list (m_supportedDevices m)) with
  | Some (_, (_, deviceClass)) => deviceClass
  | None => DeviceClass_default
  end.

(** [m_supportedDevices.value(id)] *)
Definition supportedDevice (m : DeviceManager) (deviceClassId : QUuid) : DeviceClass :=
  default DeviceClass_default (m_supportedDevices m !! deviceClassId).

(** [m_discoveredDevices.value(id)] *)
Definition discoveredDevice (m : DeviceManager) (descriptorId : QUuid) : DeviceDescriptor :=
  default DeviceDescriptor_default (m_discoveredDevices m !! descriptorId).

(** The loop of [DeviceManager::findConfiguredDevice] (and of the duplicate
    test of [addConfiguredDeviceInternal]): the first configured device
    with that id.  The outer [None] is a dangling entry in the list. *)
Fixpoint findDeviceById (objs : gmap nat Device) (devices : list nat) (id : QUuid)
  : option (option nat) :=
  match devices with
  | [] => Some None
  | device :: rest =>
      match objs !! device with
      | None => None
      | Some d => if N.eqb (dev_id d) id then Some (Some device)
                  else findDeviceById objs rest id
      end
  end.

Definition findConfiguredDevice (id : QUuid) : M (option nat) :=
  λ m, match findDeviceById (objects m) (m_configuredDevices m) id with
       | Some r => Some (r, m)
       | None => None
       end.

(** ** Persistence *)

(** One round of the loop of [storeConfiguredDevices]: the three keys are
    set, and one key per param under [Params/]; keys already there stay. *)
Definition storeDevice (d : Device) (s : gmap N StoredDevice) : gmap N StoredDevice :=
  let old := default ∅ (sd_params <$> s !! dev_id d) in
  <[dev_id d := mkStored (dev_name d) (dev_deviceClassId d) (dev_pluginId d)
       (foldl (λ ps p, <[param_name p := param_value p]> ps) old (dev_params d))]> s.

Fixpoint storeDevices (devices : list nat) : M unit :=
  match devices with
  | [] => mret tt
  | device :: rest =>
      d ← readDevice device;
      modify (set_settings (storeDevice d));;
      storeDevices rest
  end.

(** [DeviceManager::storeConfiguredDevices] *)
Definition storeConfiguredDevices : M unit :=
  m ← get; storeDevices (m_configuredDevices m).

(** ** Setup *)

(** The timer part shared by [setupDevice] and [slotDeviceSetupFinished]:
    start the timer when it is not running, queue one single-shot
    [timerEvent], and add the device to the timer users. *)
Definition registerTimerUser (plugin : DevicePlugin) (device : nat) : M unit :=
  if testFlag (plugin_requiredHardware plugin) HardwareResourceTimer then
    m ← get;
    (if negb (m_pluginTimerActive m) then
       modify (set_pluginTimerActive true);;
       modify (set_queuedTimerEvents S)
     else mret tt);;
    modify (set_pluginTimerUsers (λ u, u ++ [device]))
  else mret tt.

(** The states [setupDevice] gives a device: one per StateType of its
    class, at the default value. *)
Definition defaultStates (deviceClass : DeviceClass) (deviceId : QUuid) : list State :=
  (λ stateType, mkState (st_id stateType) deviceId (st_defaultValue stateType))
    <$> dc_stateTypes deviceClass.

(** [DeviceManager::setupDevice] *)
Definition setupDevice (device : nat) : M DeviceSetupStatus :=
  d ← readDevice device;
  m ← get;
  let deviceClass := findDeviceClass m (dev_deviceClassId d) in
  match m_devicePlugins m !! dc_pluginId deviceClass with
  | None => mret DeviceSetupStatusFailure
  | Some plugin =>
      let states := defaultStates deviceClass (dev_id d) in
      writeDevice device (Device_setStates states);;
      emit (CallSetupDevice (plugin_addr plugin) device);;
      let status := plugin_setupDevice plugin (Device_setStates states d) in
      if bool_decide (status ≠ DeviceSetupStatusSuccess) then mret status
      else
        registerTimerUser plugin device;;
        modify (set_connections (λ c, c ++ [device]));;
        writeDevice device Device_setupCompleted;;
        mret status
  end.

Section Manager.
Variable qt : QVariantOps.

(** [DeviceManager::addConfiguredDeviceInternal] *)
Definition addConfiguredDeviceInternal (deviceClassId : QUuid)
           (params : ParamList) (id : QUuid) : M DeviceError :=
  m ← get;
  let deviceClass := findDeviceClass m deviceClassId in
  if uuid_isNull (dc_id deviceClass) then mret DeviceErrorDeviceClassNotFound
  else if bool_decide (dc_setupMethod deviceClass ≠ SetupMethodJustAdd)
  then mret DeviceErrorCreationMethodNotSupported
  else
    let '(result, effectiveParams) :=
      verifyParams qt (dc_paramTypes deviceClass) params requireAll_default in
    if bool_decide (result ≠ DeviceErrorNoError) then mret result
    else
      duplicate ← findConfiguredDevice id;
      match duplicate with
      | Some _ => mret DeviceErrorDuplicateUuid
      | None =>
          match m_devicePlugins m !! dc_pluginId deviceClass with
          | None => mret DeviceErrorPluginNotFound
          | Some plugin =>
              device ← newDevice (Device_new (plugin_pluginId plugin) id
                                    deviceClassId (dc_name deviceClass)
                                    effectiveParams);
              status ← setupDevice device;
              match status with
              | DeviceSetupStatusFailure =>
                  deleteDevice device;;
                  mret DeviceErrorSetupFailed
              | DeviceSetupStatusAsync => mret DeviceErrorAsync
              | DeviceSetupStatusSuccess =>
                  modify (set_configuredDevices (λ l, l ++ [device]));;
                  storeConfiguredDevices;;
                  mret DeviceErrorNoError
              end
          end
      end.

(** [DeviceManager::addConfiguredDevice(deviceClassId, params, id)] *)
Definition addConfiguredDevice (deviceClassId : QUuid) (params : ParamList)
           (id : QUuid) : M DeviceError :=
  m ← get;
  let deviceClass := findDeviceClass m deviceClassId in
  if negb (dc_isValid deviceClass) then mret DeviceErrorDeviceClassNotFound
  else if testFlag (dc_createMethods deviceClass) CreateMethodUser
  then addConfiguredDeviceInternal deviceClassId params id
  else mret DeviceErrorCreationMethodNotSupported.

(** [DeviceManager::addConfiguredDevice(deviceClassId, deviceDescriptorId,
    deviceId)].  [QHash::take] removes the entry and returns it. *)
Definition addDiscoveredDevice (deviceClassId deviceDescriptorId deviceId : QUuid)
  : M DeviceError :=
  m ← get;
  let deviceClass := findDeviceClass m deviceClassId in
  if negb (dc_isValid deviceClass) then mret DeviceErrorDeviceClassNotFound
  else if negb (testFlag (dc_createMethods deviceClass) CreateMethodDiscovery)
  then mret DeviceErrorCreationMethodNotSupported
  else
    let descriptor := discoveredDevice m deviceDescriptorId in
    modify (set_discoveredDevices (delete deviceDescriptorId));;
    if negb (dd_isValid descriptor) then mret DeviceErrorDeviceDescriptorNotFound
    else addConfiguredDeviceInternal deviceClassId (dd_params descriptor) deviceId.

(** [DeviceManager::discoverDevices] *)
Definition discoverDevices (deviceClassId : QUuid) (params : ParamList)
  : M DeviceError :=
  m ← get;
  let deviceClass := findDeviceClass m deviceClassId in
  if negb (dc_isValid deviceClass) then mret DeviceErrorDeviceClassNotFound
  else if negb (testFlag (dc_createMethods deviceClass) CreateMethodDiscovery)
  then mret DeviceErrorCreationMethodNotSupported
  else
    let '(result, effectiveParams) :=
      verifyParams qt (dc_discoveryParamTypes deviceClass) params
                   requireAll_default in
    if bool_decide (result ≠ DeviceErrorNoError) then mret result
    else
      match m_devicePlugins m !! dc_pluginId deviceClass with
      | None => mret DeviceErrorPluginNotFound
      | Some plugin =>
          modify (set_discoveringPlugins (λ l, l ++ [plugin]));;
          emit (CallDiscoverDevices (plugin_addr plugin) deviceClassId
                                    effectiveParams);;
          let ret := plugin_discoverDevices plugin deviceClassId effectiveParams in
          (if bool_decide (ret ≠ DeviceErrorAsync)
           then modify (set_discoveringPlugins (removeOnePlugin plugin))
           else mret tt);;
          mret ret
      end.
End Manager.

(** ** Pairing *)

(** [DeviceManager::pairDevice(pairingTransactionId, deviceClassId, params)]:
    every setup method ends in an error; nothing is recorded. *)
Definition pairDeviceParams (tx deviceClassId : QUuid) (params : ParamList)
  : M DeviceError :=
  m ← get;
  let deviceClass := findDeviceClass m deviceClassId in
  if uuid_isNull (dc_id deviceClass) then mret DeviceErrorDeviceClassNotFound
  else match dc_setupMethod deviceClass with
       | SetupMethodJustAdd => mret DeviceErrorSetupMethodNotSupported
       | SetupMethodDisplayPin => mret DeviceErrorSetupFailed
       | SetupMethodEnterPin => mret DeviceErrorSetupFailed
       | SetupMethodPushButton => mret DeviceErrorSetupFailed
       end.

(** [DeviceManager::pairDevice(pairingTransactionId, deviceClassId,
    deviceDescriptorId)] *)
Definition pairDevice (tx deviceClassId deviceDescriptorId : QUuid) : M DeviceError :=
  m ← get;
  let deviceClass := findDeviceClass m deviceClassId in
  if uuid_isNull (dc_id deviceClass) then mret DeviceErrorDeviceClassNotFound
  else if bool_decide (dc_setupMethod deviceClass = SetupMethodJustAdd)
  then mret DeviceErrorCreationMethodNotSupported
  else if negb (bool_decide (is_Some (m_discoveredDevices m !! deviceDescriptorId)))
  then mret DeviceErrorDeviceDescriptorNotFound
  else
    modify (set_pairingsDiscovery (<[tx := (deviceClassId, deviceDescriptorId)]>));;
    if bool_decide (dc_setupMethod deviceClass = SetupMethodDisplayPin)
    then mret DeviceErrorSetupFailed
    else mret DeviceErrorNoError.

(** [DeviceManager::confirmPairing] *)
Definition confirmPairing (tx : QUuid) (secret : string) : M DeviceError :=
  m ← get;
  if bool_decide (is_Some (m_pairingsJustAdd m !! tx)) then
    modify (set_pairingsJustAdd (delete tx));;
    mret DeviceErrorSetupFailed
  else
    match m_pairingsDiscovery m !! tx with
    | Some (deviceClassId, deviceDescriptorId) =>
        let deviceDescriptor := discoveredDevice m deviceDescriptorId in
        match m_devicePlugins m !! dc_pluginId (supportedDevice m deviceClassId) with
        | None => mret DeviceErrorPluginNotFound
        | Some plugin =>
            emit (CallConfirmPairing (plugin_addr plugin) tx deviceClassId
                                     (dd_params deviceDescriptor));;
            match plugin_confirmPairing plugin tx deviceClassId
                                        (dd_params deviceDescriptor) with
            | DeviceSetupStatusSuccess =>
                modify (set_pairingsDiscovery (delete tx));;
                mret DeviceErrorNoError
            | DeviceSetupStatusFailure =>
                modify (set_pairingsDiscovery (delete tx));;
                mret DeviceErrorSetupFailed
            | DeviceSetupStatusAsync => mret DeviceErrorAsync
            end
        end
    | None => mret DeviceErrorPairingTransactionIdNotFound
    end.

(** The tail of [slotPairingFinished] after the [switch]: both the
    [Success] case and the [Failure] case leave the switch through [break]
    and reach it. *)
Definition pairingAppend (device : nat) : M unit :=
  modify (set_configuredDevices (λ l, l ++ [device]));;
  storeConfiguredDevices;;
  emit (EmitDeviceSetupFinished device DeviceErrorNoError).

(** [DeviceManager::slotPairingFinished].  [newId] is the value that
    [DeviceId::createDeviceId()] draws. *)
Definition slotPairingFinished (tx : QUuid) (status : DeviceSetupStatus)
           (newId : QUuid) : M unit :=
  m ← get;
  if negb (bool_decide (is_Some (m_pairingsJustAdd m !! tx)))
     && negb (bool_decide (is_Some (m_pairingsDiscovery m !! tx)))
  then mret tt
  else
    '(deviceClassId, params) ←
      match m_pairingsJustAdd m !! tx with
      | Some entry => modify (set_pairingsJustAdd (delete tx));; mret entry
      | None => mret (0%N, [])
      end;
    '(deviceClassId, params) ←
      match m_pairingsDiscovery m !! tx with
      | Some (classId, deviceDescriptorId) =>
          modify (set_pairingsDiscovery (delete tx));;
          modify (set_discoveredDevices (delete deviceDescriptorId));;
          mret (classId, dd_params (discoveredDevice m deviceDescriptorId))
      | None => mret (deviceClassId, params)
      end;
    if bool_decide (status ≠ DeviceSetupStatusSuccess) then
      emit (EmitPairingFinished tx DeviceErrorSetupFailed 0%N)
    else
      let deviceClass := findDeviceClass m deviceClassId in
      match m_devicePlugins m !! dc_pluginId deviceClass with
      | None =>
          emit (EmitPairingFinished tx DeviceErrorPluginNotFound
                                    (dc_pluginId deviceClass))
      | Some plugin =>
          emit (EmitPairingFinished tx DeviceErrorNoError newId);;
          device ← newDevice (Device_new (plugin_pluginId plugin) newId
                                deviceClassId (dc_name deviceClass) params);
          setupStatus ← setupDevice device;
          match setupStatus with
          | DeviceSetupStatusFailure =>
              emit (EmitDeviceSetupFinished device DeviceErrorSetupFailed);;
              deleteDevice device;;
              pairingAppend device
          | DeviceSetupStatusAsync => mret tt
          | DeviceSetupStatusSuccess => pairingAppend device
          end
      end.

(** ** Removal *)

(** The timer part of [removeConfiguredDevice]: the device leaves the
    timer users, and the timer stops when none is left. *)
Definition unregisterTimerUser (device : nat) : M unit :=
  modify (set_pluginTimerUsers (removeAllDevice device));;
  m ← get;
  if bool_decide (m_pluginTimerUsers m = [])
  then modify (set_pluginTimerActive false) else mret tt.

(** [DeviceManager::removeConfiguredDevice].  [deleteLater] frees the
    object when control is back in the event loop, that is, once the
    method has returned. *)
Definition removeConfiguredDevice (deviceId : QUuid) : M DeviceError :=
  found ← findConfiguredDevice deviceId;
  match found with
  | None => mret DeviceErrorDeviceNotFound
  | Some device =>
      modify (set_configuredDevices (removeAllDevice device));;
      d ← readDevice device;
      m ← get;
      match m_devicePlugins m !! dev_pluginId d with
      | None => crash
      | Some plugin =>
          emit (CallDeviceRemoved (plugin_addr plugin) device);;
          unregisterTimerUser device;;
          modify (set_settings (delete deviceId));;
          deleteDevice device;;
          mret DeviceErrorNoError
      end
  end.

(** ** Slots for plugin signals *)

(** [DeviceManager::slotDevicesDiscovered]; [sender] is the emitting plugin. *)
Definition slotDevicesDiscovered (sender : DevicePlugin) (deviceClassId : QUuid)
           (deviceDescriptors : list DeviceDescriptor) : M unit :=
  modify (set_discoveringPlugins (removeOnePlugin sender));;
  modify (set_discoveredDevices
            (λ pool, foldl (λ p descriptor, <[dd_id descriptor := descriptor]> p)
                           pool deviceDescriptors));;
  emit (EmitDevicesDiscovered deviceClassId deviceDescriptors).

(** [DeviceManager::slotDeviceSetupFinished], as it runs when the
    assertions are compiled out; [None] is the null pointer. *)
Definition slotDeviceSetupFinished (device : option nat) (status : DeviceSetupStatus)
  : M unit :=
  match device with
  | None => mret tt
  | Some device =>
      d ← readDevice device;
      if dev_setupComplete d then mret tt
      else match status with
           | DeviceSetupStatusAsync => mret tt
           | DeviceSetupStatusFailure =>
               emit (EmitDeviceSetupFinished device DeviceErrorSetupFailed)
           | DeviceSetupStatusSuccess =>
               m ← get;
               (if negb (bool_decide (device ∈ m_configuredDevices m)) then
                  modify (set_configuredDevices (λ l, l ++ [device]));;
                  storeConfiguredDevices
                else mret tt);;
               match m_devicePlugins m !! dev_pluginId d with
               | None => crash
               | Some plugin =>
                   registerTimerUser plugin device;;
                   modify (set_connections (λ c, c ++ [device]));;
                   writeDevice device Device_setupCompleted;;
                   emit (EmitDeviceSetupFinished device DeviceErrorNoError)
               end
           end
  end.

(** [DeviceManager::slotDeviceStateValueChanged]; [sender] is the object
    that emitted [stateValueChanged], [None] when it is not a [Device].
    [EventTypeId(stateTypeId.toString())] is the uuid of [stateTypeId]. *)
Definition slotDeviceStateValueChanged (sender : option nat) (stateTypeId : QUuid)
           (value : QVariant) : M unit :=
  match sender with
  | None => mret tt
  | Some device =>
      emit (EmitDeviceStateChanged device stateTypeId value);;
      d ← readDevice device;
      let valueParam := mkParam "value" value in
      emit (EmitEventTriggered (mkEvent stateTypeId (dev_id d) [valueParam] true))
  end.

(** A [Device] emits [stateValueChanged]: the slot runs once for each
    connection made for that device. *)
Definition Device_stateValueChanged (device : nat) (stateTypeId : QUuid)
           (value : QVariant) : M unit :=
  m ← get;
  foldr (λ _ rest, slotDeviceStateValueChanged (Some device) stateTypeId value;; rest)
        (mret tt)
        (filter (λ c, c = device) (connections m)).

(** ** Hardware events *)

(** The loop of [DeviceManager::timerEvent]: one round per configured
    device. *)
Fixpoint timerEvent_loop (devices : list nat) : M unit :=
  match devices with
  | [] => mret tt
  | device :: rest =>
      d ← readDevice device;
      m ← get;
      let deviceClass := supportedDevice m (dev_deviceClassId d) in
      match m_devicePlugins m !! dc_pluginId deviceClass with
      | Some plugin =>
          if testFlag (plugin_requiredHardware plugin) HardwareResourceTimer
          then emit (CallGuhTimer (plugin_addr plugin))
          else mret tt
      | None => mret tt
      end;;
      timerEvent_loop rest
  end.

(** [DeviceManager::timerEvent] *)
Definition timerEvent : M unit :=
  m ← get; timerEvent_loop (m_configuredDevices m).

(** The test both loops of [radio433SignalReceived] apply to a plugin. *)
Definition addTarget (plugin : DevicePlugin) (targetPlugins : list DevicePlugin)
  : list DevicePlugin :=
  if testFlag (plugin_requiredHardware plugin) HardwareResourceRadio433
     && negb (containsPlugin targetPlugins plugin)
  then targetPlugins ++ [plugin] else targetPlugins.

(** First loop of [radio433SignalReceived].  The plugin pointer is used
    without a test: [None] when [m_devicePlugins.value] yields null. *)
Fixpoint radioTargets_devices (m : DeviceManager) (devices : list nat)
         (targetPlugins : list DevicePlugin) : option (list DevicePlugin) :=
  match devices with
  | [] => Some targetPlugins
  | device :: rest =>
      d ← objects m !! device;
      let deviceClass := supportedDevice m (dev_deviceClassId d) in
      plugin ← m_devicePlugins m !! dc_pluginId deviceClass;
      radioTargets_devices m rest (addTarget plugin targetPlugins)
  end.

(** Second loop: the plugins with a discovery under way. *)
Definition radioTargets_discovering (plugins targetPlugins : list DevicePlugin)
  : list DevicePlugin :=
  foldl (λ targets plugin, addTarget plugin targets) targetPlugins plugins.

Definition radioTargets (m : DeviceManager) : option (list DevicePlugin) :=
  targets ← radioTargets_devices m (m_configuredDevices m) [];
  Some (radioTargets_discovering (m_discoveringPlugins m) targets).

Fixpoint radioDeliver (targetPlugins : list DevicePlugin) (rawData : list Z)
  : M unit :=
  match targetPlugins with
  | [] => mret tt
  | plugin :: rest =>
      emit (CallRadioData (plugin_addr plugin) rawData);;
      radioDeliver rest rawData
  end.

(** [DeviceManager::radio433SignalReceived] *)
Definition radio433SignalReceived (rawData : list Z) : M unit :=
  m ← get;
  match radioTargets m with
  | None => crash
  | Some targetPlugins => radioDeliver targetPlugins rawData
  end.

(** ** Loading and auto devices *)

(** The order of the group names under [DeviceConfig/].  A group is named
    by the string of a uuid, which has a fixed width, so the names are
    ordered as the ids. *)
Definition groupLe (a b : N * StoredDevice) : Prop := (a.1 ≤ b.1)%N.

#[global] Instance groupLe_dec : RelDecision groupLe.
Proof. intros a b. unfold groupLe. apply _. Defined.

(** The order of the keys under [Params/]: strings compared character by
    character. *)
Definition keyLe (a b : string * QVariant) : Prop := String.leb a.1 b.1.

#[global] Instance keyLe_dec : RelDecision keyLe.
Proof. intros a b. unfold keyLe. apply _. Defined.

(** [settings.childGroups()] under [DeviceConfig/]: [QSettings] lists the
    groups in ascending order of their names. *)
Definition childGroups (s : gmap N StoredDevice) : list (N * StoredDevice) :=
  merge_sort groupLe (map_to_list s).

(** [settings.allKeys()] under [Params/]: [QSettings] lists the keys in
    ascending order. *)
Definition allKeys (ps : gmap string QVariant) : list (string * QVariant) :=
  merge_sort keyLe (map_to_list ps).

(** The params [loadConfiguredDevices] reads from a group: one per key, in
    the order of [allKeys]. *)
Definition storedParams (sd : StoredDevice) : ParamList :=
  (λ kv, mkParam kv.1 kv.2) <$> allKeys (sd_params sd).

(** The loop of [DeviceManager::loadConfiguredDevices]: the device is kept
    whatever [setupDevice] answers. *)
Fixpoint loadDevices (stored : list (N * StoredDevice)) : M unit :=
  match stored with
  | [] => mret tt
  | (id, sd) :: rest =>
      device ← newDevice (Device_new (sd_pluginid sd) id (sd_deviceClassId sd)
                            (sd_devicename sd) (storedParams sd));
      setupDevice device;;
      modify (set_configuredDevices (λ l, l ++ [device]));;
      loadDevices rest
  end.

(** [DeviceManager::loadConfiguredDevices] *)
Definition loadConfiguredDevices : M unit :=
  m ← get; loadDevices (childGroups (settings m)).

(** The loop of [DeviceManager::autoDevicesAppeared]; each descriptor comes
    with the id the [Device] constructor draws for it. *)
Fixpoint autoDevices_loop (plugin : DevicePlugin) (deviceClass : DeviceClass)
         (deviceClassId : QUuid) (descriptors : list (DeviceDescriptor * N))
  : M unit :=
  match descriptors with
  | [] => mret tt
  | (deviceDescriptor, newId) :: rest =>
      device ← newDevice (Device_new (plugin_pluginId plugin) newId deviceClassId
                            (dc_name deviceClass) (dd_params deviceDescriptor));
      setupStatus ← setupDevice device;
      match setupStatus with
      | DeviceSetupStatusFailure =>
          emit (EmitDeviceSetupFinished device DeviceErrorSetupFailed);;
          deleteDevice device
      | DeviceSetupStatusAsync => mret tt
      | DeviceSetupStatusSuccess =>
          emit (EmitDeviceSetupFinished device DeviceErrorNoError);;
          modify (set_configuredDevices (λ l, l ++ [device]));;
          storeConfiguredDevices
      end;;
      autoDevices_loop plugin deviceClass deviceClassId rest
  end.

Definition autoDevicesAppeared (deviceClassId : QUuid)
           (descriptors : list (DeviceDescriptor * N)) : M unit :=
  m ← get;
  let deviceClass := findDeviceClass m deviceClassId in
  if negb (dc_isValid deviceClass) then mret tt
  else match m_devicePlugins m !! dc_pluginId deviceClass with
       | None => mret tt
       | Some plugin => autoDevices_loop plugin deviceClass deviceClassId descriptors
       end.

(** ** Devices of a class *)

(** The loop of [DeviceManager::findConfiguredDevices]: the configured
    devices of a device class, in the order of the list.  [None] is a
    dangling entry in the list. *)
Fixpoint findDevicesByClass (objs : gmap nat Device) (devices : list nat)
         (deviceClassId : QUuid) : option (list nat) :=
  match devices with
  | [] => Some []
  | device :: rest =>
      d ← objs !! device;
      ret ← findDevicesByClass objs rest deviceClassId;
      Some (if N.eqb (dev_deviceClassId d) deviceClassId then device :: ret else ret)
  end.

(** [DeviceManager::findConfiguredDevices] *)
Definition findConfiguredDevices (deviceClassId : QUuid) (m : DeviceManager)
  : option (list nat) :=
  findDevicesByClass (objects m) (m_configuredDevices m) deviceClassId.

(** ** Actions *)

Record ActionType : Type := {
  at_id : QUuid;
  at_paramTypes : list ParamType
}.

Record Action : Type := mkAction {
  action_actionTypeId : QUuid;
  action_deviceId : QUuid;
  action_params : ParamList
}.

Definition Action_setParams (params : ParamList) (action : Action) : Action :=
  mkAction (action_actionTypeId action) (action_deviceId action) params.

(** What [executeAction] comes to: an answer of the manager itself, or the
    call [plugin->executeAction(device, finalAction)], whose answer is
    returned as it is. *)
Inductive ActionOutcome : Type :=
| ActionRefused (error : DeviceError)
| ActionDispatched (plugin : DevicePlugin) (device : nat) (finalAction : Action).

Section Actions.
Variable qt : QVariantOps.

(** [deviceClass.actionTypes()]: the accessor of the class that
    [executeAction] calls. *)
Variable actionTypes : DeviceClass → list ActionType.

(** The loop of [executeAction] over the action types of the class.  A
    type of the action's id has the params verified and puts the verified
    list into [finalAction]; the loop goes on after it. *)
Fixpoint checkActionTypes (types : list ActionType) (action finalAction : Action)
         (found : bool) : DeviceError + Action * bool :=
  match types with
  | [] => inr (finalAction, found)
  | actionType :: rest =>
      if N.eqb (at_id actionType) (action_actionTypeId action) then
        let '(paramCheck, finalParams) :=
          verifyParams qt (at_paramTypes actionType) (action_params action)
                       requireAll_default in
        if bool_decide (paramCheck ≠ DeviceErrorNoError) then inl paramCheck
        else checkActionTypes rest action (Action_setParams finalParams finalAction) true
      else checkActionTypes rest action finalAction found
  end.

(** The loop of [executeAction] over the configured devices: the first
    device of the action's device id decides.  The plugin pointer is used
    without a test: [None] when [m_devicePlugins.value] yields null, or
    when an entry of the list is dangling. *)
Fixpoint executeAction_loop (m : DeviceManager) (devices : list nat) (action : Action)
  : option ActionOutcome :=
  match devices with
  | [] => Some (ActionRefused DeviceErrorDeviceNotFound)
  | device :: rest =>
      d ← objects m !! device;
      if N.eqb (action_deviceId action) (dev_id d) then
        let deviceClass := findDeviceClass m (dev_deviceClassId d) in
        match checkActionTypes (actionTypes deviceClass) action action false with
        | inl paramCheck => Some (ActionRefused paramCheck)
        | inr (finalAction, found) =>
            if negb found then Some (ActionRefused DeviceErrorActionTypeNotFound)
            else
              plugin ← m_devicePlugins m !! dev_pluginId d;
              Some (ActionDispatched plugin device finalAction)
        end
      else executeAction_loop m rest action
  end.

(** [DeviceManager::executeAction] *)
Definition executeAction (action : Action) (m : DeviceManager) : option ActionOutcome :=
  executeAction_loop m (m_configuredDevices m) action.
End Actions.

(** ** The catalogs [loadPlugins] fills *)

Record Vendor : Type := {
  vendor_id : QUuid;
  vendor_name : string
}.

(** The members [loadPlugins] fills from what the plugins declare and
    [supportedDevices] reads.  [catalog_supportedDevices] is the member
    [m_supportedDevices], which the manager's record above holds as it is
    once the plugins are loaded. *)
Record Catalogs : Type := mkCatalogs {
  m_supportedVendors : gmap N Vendor;
  m_vendorDeviceMap : gmap N (list N);
  catalog_supportedDevices : gmap N DeviceClass
}.

(** Before the first plugin is loaded. *)
Definition noCatalogs : Catalogs := mkCatalogs ∅ ∅ ∅.

(** One round of the loop of [loadPlugins] over
    [pluginIface->supportedVendors()]: a vendor whose id is there already
    is ignored. *)
Definition loadVendor (c : Catalogs) (vendor : Vendor) : Catalogs :=
  if bool_decide (is_Some (m_supportedVendors c !! vendor_id vendor)) then c
  else mkCatalogs (<[vendor_id vendor := vendor]> (m_supportedVendors c))
                  (m_vendorDeviceMap c) (catalog_supportedDevices c).

(** One round of the loop of [loadPlugins] over
    [pluginIface->supportedDevices()]: a class of an unknown vendor is
    ignored; otherwise its id is appended to the list of its vendor and the
    class is inserted under its id. *)
Definition loadDeviceClass (c : Catalogs) (deviceClass : DeviceClass) : Catalogs :=
  if negb (bool_decide (is_Some (m_supportedVendors c !! dc_vendorId deviceClass)))
  then c
  else mkCatalogs
         (m_supportedVendors c)
         (<[dc_vendorId deviceClass :=
              default [] (m_vendorDeviceMap c !! dc_vendorId deviceClass)
              ++ [dc_id deviceClass]]> (m_vendorDeviceMap c))
         (<[dc_id deviceClass := deviceClass]> (catalog_supportedDevices c)).

(** What [loadPlugins] takes from one plugin whose metadata passed: its
    vendors, then its device classes. *)
Definition loadPlugin (c : Catalogs) (plugin : list Vendor * list DeviceClass)
  : Catalogs :=
  foldl loadDeviceClass (foldl loadVendor c plugin.1) plugin.2.

(** The catalogs of [loadPlugins] once it has gone through these plugins,
    in the order of loading. *)
Definition loadPlugins (plugins : list (list Vendor * list DeviceClass)) : Catalogs :=
  foldl loadPlugin noCatalogs plugins.

(** [DeviceManager::supportedDevices(vendorId)]: all classes for the null
    vendor id, else the classes listed for the vendor, each looked up with
    [m_supportedDevices.value]. *)
Definition supportedDevices (c : Catalogs) (vendorId : QUuid) : list DeviceClass :=
  if uuid_isNull vendorId then (map_to_list (catalog_supportedDevices c)).*2
  else (λ deviceClassId,
          default DeviceClass_default (catalog_supportedDevices c !! deviceClassId))
         <$> default [] (m_vendorDeviceMap c !! vendorId).

(** ** Plugin configuration *)

Section PluginConfig.
(** The answer of [plugin->setConfiguration(pluginConfig)]. *)
Variable setConfiguration : DevicePlugin → ParamList → DeviceError.

(** [DeviceManager::setPluginConfig], on the [PluginConfig] group of the
    settings object the method opens: one group per plugin id, one key per
    param name.  The result and the group as the call leaves it. *)
Definition setPluginConfig (pluginId : QUuid) (pluginConfig : ParamList)
           (m : DeviceManager) (pluginSettings : gmap N (gmap string QVariant))
  : DeviceError * gmap N (gmap string QVariant) :=
  match m_devicePlugins m !! pluginId with
  | None => (DeviceErrorPluginNotFound, pluginSettings)
  | Some plugin =>
      let result := setConfiguration plugin pluginConfig in
      if bool_decide (result ≠ DeviceErrorNoError) then (result, pluginSettings)
      else
        (result,
         foldl (λ s param,
                  <[plugin_pluginId plugin :=
                      <[param_name param := param_value param]>
                        (default ∅ (s !! plugin_pluginId plugin))]> s)
               pluginSettings pluginConfig)
  end.
End PluginConfig.

(** ** The manager as a transition system

    What the servers call and what plugins, devices, timers and the radio
    signal.  [SingleShot] is the event loop delivering a queued
    [QTimer::singleShot(0, ...)]; [TimerTimeout] is a tick of
    [m_pluginTimer]. *)
Inductive Command : Type :=
| LoadConfiguredDevices
| AddConfiguredDevice (deviceClassId : N) (params : ParamList) (id : N)
| AddDiscoveredDevice (deviceClassId deviceDescriptorId deviceId : N)
| DiscoverDevices (deviceClassId : N) (params : ParamList)
| PairDeviceParams (tx deviceClassId : N) (params : ParamList)
| PairDevice (tx deviceClassId deviceDescriptorId : N)
| ConfirmPairing (tx : N) (secret : string)
| RemoveConfiguredDevice (deviceId : N)
| DevicesDiscovered (sender : DevicePlugin) (deviceClassId : N)
                    (descriptors : list DeviceDescriptor)
| DeviceSetupFinished (device : option nat) (status : DeviceSetupStatus)
| PairingFinished (tx : N) (status : DeviceSetupStatus) (newId : N)
| AutoDevicesAppeared (deviceClassId : N) (descriptors : list (DeviceDescriptor * N))
| StateValueChanged (device : nat) (stateTypeId : N) (value : QVariant)
| TimerTimeout
| SingleShot
| Radio433Signal (rawData : list Z).

Definition discard {A} (c : M A) : M unit := c;; mret tt.

Definition run (qt : QVariantOps) (c : Command) : M unit :=
  match c with
  | LoadConfiguredDevices => loadConfiguredDevices
  | AddConfiguredDevice deviceClassId params id =>
      discard (addConfiguredDevice qt deviceClassId params id)
  | AddDiscoveredDevice deviceClassId deviceDescriptorId deviceId =>
      discard (addDiscoveredDevice qt deviceClassId deviceDescriptorId deviceId)
  | DiscoverDevices deviceClassId params =>
      discard (discoverDevices qt deviceClassId params)
  | PairDeviceParams tx deviceClassId params =>
      discard (pairDeviceParams tx deviceClassId params)
  | PairDevice tx deviceClassId deviceDescriptorId =>
      discard (pairDevice tx deviceClassId deviceDescriptorId)
  | ConfirmPairing tx secret => discard (confirmPairing tx secret)
  | RemoveConfiguredDevice deviceId => discard (removeConfiguredDevice deviceId)
  | DevicesDiscovered sender deviceClassId descriptors =>
      slotDevicesDiscovered sender deviceClassId descriptors
  | DeviceSetupFinished device status => slotDeviceSetupFinished device status
  | PairingFinished tx status newId => slotPairingFinished tx status newId
  | AutoDevicesAppeared deviceClassId descriptors =>
      autoDevicesAppeared deviceClassId descriptors
  | StateValueChanged device stateTypeId value =>
      Device_stateValueChanged device stateTypeId value
  | TimerTimeout =>
      m ← get; if m_pluginTimerActive m then timerEvent else mret tt
  | SingleShot =>
      m ← get;
      match queuedTimerEvents m with
      | O => mret tt
      | S n => modify (set_queuedTimerEvents (λ _, n));; timerEvent
      end
  | Radio433Signal rawData => radio433SignalReceived rawData
  end.

(** A sequence of commands, from left to right. *)
Fixpoint exec (qt : QVariantOps) (cs : list Command) (m : DeviceManager)
  : option DeviceManager :=
  match cs with
  | [] => Some m
  | c :: rest =>
      match run qt c m with
      | Some (_, m') => exec qt rest m'
      | None => None
      end
  end.

(** What a method adds to the trace. *)
Definition newEffects {A} (c : M A) (m : DeviceManager) : option (list Effect) :=
  match c m with
  | Some (_, m') => Some (drop (length (trace m)) (trace m'))
  | None => None
  end.

(** The manager once its constructor has run and the plugins are loaded:
    the catalogs are filled, the interval of the timer is set to 15000 ms,
    the timer is not running, nothing is configured yet. *)
Definition initial (classes : gmap N DeviceClass) (plugins : gmap N DevicePlugin)
           (stored : gmap N StoredDevice) : DeviceManager :=
  mkManager classes plugins [] ∅ ∅ ∅ [] 15000 false [] ∅ stored 0 [] [].

Inductive reachable (qt : QVariantOps) (m0 : DeviceManager) : DeviceManager → Prop :=
| reachable_start : reachable qt m0 m0
| reachable_step m c m' :
    reachable qt m0 m → run qt c m = Some (tt, m') → reachable qt m0 m'.

(** ** Sample data

    A small installation the examples run on: [QVariant] operations that
    convert within one kind and order integers, two plugins, and three
    device classes. *)

#[global] Instance QVariant_eq_dec : EqDecision QVariant.
Proof. solve_decision. Defined.

Definition sampleOps : QVariantOps :=
  {| canConvert := λ v t,
       match v, t with
       | QVBool _, TypeBool | QVInt _, TypeInt | QVUInt _, TypeUInt
       | QVString _, TypeString | QVUuid _, TypeUuid
       | QVStringList _, TypeStringList => true
       | _, _ => false
       end;
     variant_gt := λ a b,
       match a, b with QVInt x, QVInt y => Z.ltb y x | _, _ => false end;
     variant_lt := λ a b,
       match a, b with QVInt x, QVInt y => Z.ltb x y | _, _ => false end;
     variant_eq := λ a b, bool_decide (a = b) |}.

(** One Int param [n] in 0..10 with default 3. *)
Definition paramType_n : ParamType :=
  {| pt_name := "n"; pt_type := TypeInt; pt_defaultValue := QVInt 3;
     pt_minValue := QVInt 0; pt_maxValue := QVInt 10; pt_allowedValues := [] |}.

(** A plugin that needs the timer and the 433 MHz radio; its setup and its
    pairing confirmation succeed at once. *)
Definition pluginA : DevicePlugin :=
  {| plugin_addr := 1; plugin_pluginId := 11%N;
     plugin_requiredHardware := [HardwareResourceTimer; HardwareResourceRadio433];
     plugin_setupDevice := λ _, DeviceSetupStatusSuccess;
     plugin_confirmPairing := λ _ _ _, DeviceSetupStatusSuccess;
     plugin_discoverDevices := λ _ _, DeviceErrorAsync |}.

(** A plugin that needs the timer; its setup and its pairing confirmation
    fail at once. *)
Definition pluginB : DevicePlugin :=
  {| plugin_addr := 2; plugin_pluginId := 12%N;
     plugin_requiredHardware := [HardwareResourceTimer];
     plugin_setupDevice := λ _, DeviceSetupStatusFailure;
     plugin_confirmPairing := λ _ _ _, DeviceSetupStatusFailure;
     plugin_discoverDevices := λ _ _, DeviceErrorAsync |}.

(** Class 21: plugin A, created by the user or by discovery, just added. *)
Definition classJustAdd : DeviceClass :=
  {| dc_id := 21%N; dc_vendorId := 31%N; dc_pluginId := 11%N; dc_name := "lamp";
     dc_createMethods := [CreateMethodUser; CreateMethodDiscovery];
     dc_setupMethod := SetupMethodJustAdd;
     dc_paramTypes := [paramType_n]; dc_discoveryParamTypes := [];
     dc_stateTypes := [] |}.

(** Class 22: plugin A, discovered, paired with a push button. *)
Definition classPushA : DeviceClass :=
  {| dc_id := 22%N; dc_vendorId := 31%N; dc_pluginId := 11%N; dc_name := "bridge";
     dc_createMethods := [CreateMethodDiscovery];
     dc_setupMethod := SetupMethodPushButton;
     dc_paramTypes := []; dc_discoveryParamTypes := []; dc_stateTypes := [] |}.

(** Class 23: plugin B, discovered, paired with a push button. *)
Definition classPushB : DeviceClass :=
  {| dc_id := 23%N; dc_vendorId := 31%N; dc_pluginId := 12%N; dc_name := "lock";
     dc_createMethods := [CreateMethodDiscovery];
     dc_setupMethod := SetupMethodPushButton;
     dc_paramTypes := []; dc_discoveryParamTypes := []; dc_stateTypes := [] |}.

Definition sampleClasses : gmap N DeviceClass :=
  <[21%N := classJustAdd]> (<[22%N := classPushA]> (<[23%N := classPushB]> ∅)).

Definition samplePlugins : gmap N DevicePlugin :=
  <[11%N := pluginA]> (<[12%N := pluginB]> ∅).

Definition descriptor (id classId : N) (params : ParamList) : DeviceDescriptor :=
  {| dd_id := id; dd_deviceClassId := classId; dd_title := "found";
     dd_params := params |}.

(** The plugin of a configured device, found through the device's plugin
    id as [removeConfiguredDevice] and [slotDeviceSetupFinished] do, needs
    the timer. *)
Definition requiresTimer (m : DeviceManager) (device : nat) : bool :=
  match objects m !! device with
  | Some d =>
      match m_devicePlugins m !! dev_pluginId d with
      | Some plugin => testFlag (plugin_requiredHardware plugin) HardwareResourceTimer
      | None => false
      end
  | None => false
  end.

(** A settings file with one device of class 23, id 200. *)
Definition storedLock : gmap N StoredDevice :=
  {[ 200%N := mkStored "lock" 23%N 12%N ∅ ]}.

(** The sample installation with nothing stored. *)
Definition sample0 : DeviceManager := initial sampleClasses samplePlugins ∅.

(** ** Sample states *)

Definition after (cs : list Command) (m : DeviceManager) : DeviceManager :=
  default m (exec sampleOps cs m).

(** One configured device of class 21 (plugin A), id 100. *)
Definition lampState : DeviceManager :=
  after [AddConfiguredDevice 21 [] 100] sample0.

(** A descriptor 41 of class 21 in the discovery pool. *)
Definition poolA : DeviceManager :=
  after [DevicesDiscovered pluginA 21 [descriptor 41 21 []]] sample0.

(** A descriptor 42 of class 23 (plugin B) in the discovery pool, and the
    state after [pairDevice(51, 23, 42)]. *)
Definition poolB : DeviceManager :=
  after [DevicesDiscovered pluginB 23 [descriptor 42 23 []]] sample0.

Definition pairedB : DeviceManager :=
  set_pairingsDiscovery (<[51%N := (23%N, 42%N)]>) poolB.

(** The state once the lock of [storedLock] is loaded: the lock is
    configured and its setup has failed. *)
Definition lockLoaded : DeviceManager :=
  after [LoadConfiguredDevices] (initial sampleClasses samplePlugins storedLock).

(** The state once the lock of [storedLock] is loaded and a lamp is
    added: the setup of the lock has failed, the setup of the lamp has
    succeeded. *)
Definition lockAndLamp : DeviceManager :=
  after [LoadConfiguredDevices; AddConfiguredDevice 21 [] 100]
        (initial sampleClasses samplePlugins storedLock).

(** A settings file with a device whose class and plugin are not loaded. *)
Definition storedStray : gmap N StoredDevice :=
  {[ 201%N := mkStored "gone" 99%N 98%N ∅ ]}.

(** A String param [k] with no default and no bounds. *)
Definition paramType_k : ParamType :=
  {| pt_name := "k"; pt_type := TypeString; pt_defaultValue := QVInvalid;
     pt_minValue := QVInvalid; pt_maxValue := QVInvalid; pt_allowedValues := [] |}.

(** Class 21 has one action type, 61, that takes the param [n]. *)
Definition sampleActionTypes (deviceClass : DeviceClass) : list ActionType :=
  if N.eqb (dc_id deviceClass) 21
  then [{| at_id := 61%N; at_paramTypes := [paramType_n] |}] else [].

(** The configured device of [lampState]. *)
Definition lamp : Device :=
  mkDevice 11 100 21 "lamp" [mkParam "n" (QVInt 3)] [] true.

(** * Vocabulary of the properties *)

(** The number of params of a name in a param list. *)
Definition countName (name : string) (params : ParamList) : nat :=
  length (filter (λ p, param_name p = name) params).

(** [preserves R c]: whenever [c] returns, the states before and after
    are related by [R]. *)
Definition preserves {A} (R : relation DeviceManager) (c : M A) : Prop :=
  ∀ m a m', c m = Some (a, m') → R m m'.

(** The states before and after agree on a member. *)
Definition sameOn {B} (member : DeviceManager → B) : relation DeviceManager :=
  λ m m', member m' = member m.

(** The timer runs exactly when it has users. *)
Definition TimerInv (m : DeviceManager) : Prop :=
  m_pluginTimerActive m = true ↔ m_pluginTimerUsers m ≠ [].

(** The timer invariant is kept. *)
Definition keepsTimerInv : relation DeviceManager :=
  λ m m', TimerInv m → TimerInv m'.

(** Every configured device is a live object. *)
Definition live (m : DeviceManager) : Prop :=
  ∀ device, device ∈ m_configuredDevices m → is_Some (objects m !! device).

(** Objects stay live. *)
Definition keepsObjects : relation DeviceManager :=
  λ m m', ∀ device, is_Some (objects m !! device) → is_Some (objects m' !! device).

(** Every timer user is a configured device. *)
Definition timerUsersConfigured (m : DeviceManager) : Prop :=
  ∀ device, device ∈ m_pluginTimerUsers m → device ∈ m_configuredDevices m.

(** The configured devices are live objects and the timer users are among
    them. *)
Definition consistent (m : DeviceManager) : Prop :=
  live m ∧ timerUsersConfigured m.

(** The members [consistent] speaks about. *)
Definition registry (m : DeviceManager) : list nat * list nat * gmap nat Device :=
  (m_configuredDevices m, m_pluginTimerUsers m, objects m).

(** Some configured device has this id. *)
Definition idInUse (m : DeviceManager) (id : QUuid) : Prop :=
  ∃ device, findDeviceById (objects m) (m_configuredDevices m) id = Some (Some device).

(** What one round of the loop of [timerEvent] calls. *)
Definition guhTimerCalls (m : DeviceManager) (device : nat) : list Effect :=
  match objects m !! device with
  | Some d =>
      match m_devicePlugins m !! dc_pluginId (supportedDevice m (dev_deviceClassId d)) with
      | Some plugin =>
          if testFlag (plugin_requiredHardware plugin) HardwareResourceTimer
          then [CallGuhTimer (plugin_addr plugin)] else []
      | None => []
      end
  | None => []
  end.

(** The plugin needs the 433 MHz radio. *)
Definition requiresRadio433 (plugin : DevicePlugin) : bool :=
  testFlag (plugin_requiredHardware plugin) HardwareResourceRadio433.

(** The plugin at address [a] owns a configured device, through the
    device's class, and needs the radio. *)
Definition ownsRadioDevice (m : DeviceManager) (devices : list nat) (a : nat) : Prop :=
  ∃ device d plugin,
    device ∈ devices ∧ objects m !! device = Some d
    ∧ m_devicePlugins m !! dc_pluginId (supportedDevice m (dev_deviceClassId d))
      = Some plugin
    ∧ plugin_addr plugin = a ∧ requiresRadio433 plugin = true.

(** The plugin at address [a] has a discovery under way and needs the radio. *)
Definition discoversWithRadio (plugins : list DevicePlugin) (a : nat) : Prop :=
  ∃ plugin, plugin ∈ plugins ∧ plugin_addr plugin = a ∧ requiresRadio433 plugin = true.

(** The defaults a schema declares, in the order of the schema. *)
Definition defaultParams (paramTypes : list ParamType) : ParamList :=
  (λ pt, mkParam (pt_name pt) (pt_defaultValue pt))
    <$> filter (λ pt, variant_isNull (pt_defaultValue pt) = false) paramTypes.

(** A catalog of device classes is keyed by the id of the class. *)
Definition keyedById (classes : gmap N DeviceClass) : Prop :=
  ∀ key deviceClass, classes !! key = Some deviceClass → dc_id deviceClass = key.

(** The plugins are keyed by their own id, as [loadPlugins] inserts them. *)
Definition pluginsKeyedById (plugins : gmap N DevicePlugin) : Prop :=
  ∀ key plugin, plugins !! key = Some plugin → plugin_pluginId plugin = key.

(** No configured device has this id. *)
Definition idUnused (m : DeviceManager) (id : QUuid) : Prop :=
  ∀ device d, device ∈ m_configuredDevices m → objects m !! device = Some d →
              dev_id d ≠ id.

(** What identifies a device: the members no method of the manager writes
    once the device is created. *)
Definition deviceIdentity (d : Device)
  : QUuid * QUuid * QUuid * string * ParamList :=
  (dev_pluginId d, dev_id d, dev_deviceClassId d, dev_name d, dev_params d).

(** The identities of the configured devices, in the order of the list;
    [None] for an entry that is no live object. *)
Definition identities (m : DeviceManager)
  : list (option (QUuid * QUuid * QUuid * string * ParamList)) :=
  (λ device, deviceIdentity <$> objects m !! device) <$> m_configuredDevices m.

(** The identity [loadConfiguredDevices] gives the device of a group of
    the settings. *)
Definition storedIdentity (group : N * StoredDevice)
  : QUuid * QUuid * QUuid * string * ParamList :=
  (sd_pluginid group.2, group.1, sd_deviceClassId group.2, sd_devicename group.2,
   storedParams group.2).

(** The device [autoDevicesAppeared] creates for a descriptor and the id
    drawn for it. *)
Definition autoDevice (plugin : DevicePlugin) (deviceClass : DeviceClass)
           (deviceClassId : QUuid) (entry : DeviceDescriptor * N) : Device :=
  Device_new (plugin_pluginId plugin) entry.2 deviceClassId (dc_name deviceClass)
             (dd_params entry.1).

(** What [setupDevice] answers for a device: the answer of
    [plugin->setupDevice(device)], asked once the device has the default
    states of its class, or [DeviceSetupStatusFailure] when the class of
    the device has no loaded plugin. *)
Definition setupAnswer (m : DeviceManager) (d : Device) : DeviceSetupStatus :=
  let deviceClass := findDeviceClass m (dev_deviceClassId d) in
  match m_devicePlugins m !! dc_pluginId deviceClass with
  | Some plugin =>
      plugin_setupDevice plugin
        (Device_setStates (defaultStates deviceClass (dev_id d)) d)
  | None => DeviceSetupStatusFailure
  end.

(** The device at this address is a live object whose setup is complete. *)
Definition setUp (objs : gmap nat Device) (device : nat) : Prop :=
  ∃ d, objs !! device = Some d ∧ dev_setupComplete d = true.

(** No list holds a device twice, the configured devices are live
    objects, the timer users are set up, and the connected devices are the
    devices that are set up. *)
Definition wired (configured users connected : list nat) (objs : gmap nat Device)
  : Prop :=
  NoDup configured ∧ NoDup users ∧ NoDup connected
  ∧ (∀ device, device ∈ configured → is_Some (objs !! device))
  ∧ (∀ device, device ∈ users → setUp objs device)
  ∧ (∀ device, device ∈ connected ↔ setUp objs device).

Definition setUpOnce (m : DeviceManager) : Prop :=
  wired (m_configuredDevices m) (m_pluginTimerUsers m) (connections m) (objects m).

(** The members [setUpOnce] speaks about. *)
Definition wiring (m : DeviceManager)
  : list nat * list nat * list nat * gmap nat Device :=
  (m_configuredDevices m, m_pluginTimerUsers m, connections m, objects m).

(** The settings once the loop of [storeConfiguredDevices] has gone
    through these devices. *)
Definition storeAll (ds : list Device) (s : gmap N StoredDevice) : gmap N StoredDevice :=
  foldl (λ s d, storeDevice d s) s ds.

(** What the loops of [loadPlugins] keep: vendors and classes are keyed by
    their ids, every class has a known vendor and is listed under it, and
    every listed id is the key of a class. *)
Definition catalogsWellFormed (c : Catalogs) : Prop :=
  (∀ key vendor, m_supportedVendors c !! key = Some vendor → vendor_id vendor = key)
  ∧ (∀ key deviceClass,
       catalog_supportedDevices c !! key = Some deviceClass →
       dc_id deviceClass = key
       ∧ is_Some (m_supportedVendors c !! dc_vendorId deviceClass)
       ∧ key ∈ default [] (m_vendorDeviceMap c !! dc_vendorId deviceClass))
  ∧ (∀ vendorId deviceClassId,
       deviceClassId ∈ default [] (m_vendorDeviceMap c !! vendorId) →
       is_Some (catalog_supportedDevices c !! deviceClassId)).

(** The plugin [setupDevice] finds for a device of this class: the plugin
    of the plugin id of the class. *)
Definition classPlugin (m : DeviceManager) (deviceClassId : QUuid)
  : option DevicePlugin :=
  m_devicePlugins m !! dc_pluginId (findDeviceClass m deviceClassId).

(** The plugin id names the plugin of the class: looking the plugin up by
    the plugin id, as [slotDeviceSetupFinished] and [removeConfiguredDevice]
    do, and through the class, as [setupDevice] does, gives the same. *)
Definition namesClassPlugin (m : DeviceManager) (pluginId deviceClassId : QUuid)
  : Prop :=
  m_devicePlugins m !! pluginId = classPlugin m deviceClassId.

(** Every group of the settings names the plugin of its class. *)
Definition storedUnderClassPlugin (m : DeviceManager) : Prop :=
  ∀ id sd, settings m !! id = Some sd →
           namesClassPlugin m (sd_pluginid sd) (sd_deviceClassId sd).

(** A device whose setup is complete and whose plugin needs the timer. *)
Definition timerDevice (m : DeviceManager) (device : nat) : Prop :=
  setUp (objects m) device ∧ requiresTimer m device = true.

(** The plugins are keyed by their ids, devices and stored groups name the
    plugin of their class, and the timer users are the devices that are
    set up under a plugin that needs the timer. *)
Definition timed (m : DeviceManager) : Prop :=
  pluginsKeyedById (m_devicePlugins m)
  ∧ (∀ device d, objects m !! device = Some d →
                 namesClassPlugin m (dev_pluginId d) (dev_deviceClassId d))
  ∧ storedUnderClassPlugin m
  ∧ (∀ device, device ∈ m_pluginTimerUsers m ↔ timerDevice m device).

(** The members [timed] speaks about. *)
Definition timing (m : DeviceManager)
  : gmap N DeviceClass * gmap N DevicePlugin * list nat * gmap nat Device
    * gmap N StoredDevice :=
  (m_supportedDevices m, m_devicePlugins m, m_pluginTimerUsers m, objects m, settings m).

(** From one state to a later one the timer is not stopped, and one
    single-shot timer event is queued if the timer is started. *)
Definition timerStarts : relation DeviceManager :=
  λ m m',
    (m_pluginTimerActive m = true →
     m_pluginTimerActive m' = true ∧ queuedTimerEvents m' = queuedTimerEvents m)
    ∧ (m_pluginTimerActive m = false →
       queuedTimerEvents m'
       = if m_pluginTimerActive m' then S (queuedTimerEvents m)
         else queuedTimerEvents m).

(** The timer is not started. *)
Definition timerStaysIdle : relation DeviceManager :=
  λ m m', m_pluginTimerActive m = false → m_pluginTimerActive m' = false.

(** Some configured device is set up under a plugin that needs the timer. *)
Definition hasTimerDevice (m : DeviceManager) : Prop :=
  ∃ device, device ∈ m_configuredDevices m ∧ timerDevice m device.

(** The catalogs of device classes and of plugins. *)
Definition classesAndPlugins (m : DeviceManager)
  : gmap N DeviceClass * gmap N DevicePlugin :=
  (m_supportedDevices m, m_devicePlugins m).

(** * Properties *)

Arguments set_configuredDevices _ _ /.
Arguments set_discoveredDevices _ _ /.
Arguments set_pairingsJustAdd _ _ /.
Arguments set_pairingsDiscovery _ _ /.
Arguments set_discoveringPlugins _ _ /.
Arguments set_pluginTimerActive _ _ /.
Arguments set_pluginTimerUsers _ _ /.
Arguments set_objects _ _ /.
Arguments set_settings _ _ /.
Arguments set_queuedTimerEvents _ _ /.
Arguments set_connections _ _ /.
Arguments set_trace _ _ /.

(** ** The validator *)

Lemma countName_app name ps qs :
  countName name (ps ++ qs) = countName name ps + countName name qs.
Proof. unfold countName. by rewrite filter_app, length_app. Qed.

Lemma countName_singleton name value :
  countName name [mkParam name value] = 1.
Proof. unfold countName. by rewrite filter_cons, decide_True. Qed.

Lemma paramFound_countName paramType params :
  paramFound paramType params = true ↔ 0 < countName (pt_name paramType) params.
Proof.
  unfold paramFound, countName. induction params as [|p ps IH].
  - cbn. split; [done | lia].
  - rewrite filter_cons. cbn [existsb].
    destruct (String.eqb_spec (pt_name paramType) (param_name p)) as [E|E].
    + rewrite decide_True by done. cbn. split; [lia | done].
    + rewrite decide_False by done. cbn. exact IH.
Qed.

Section ValidatorFacts.
Variable qt : QVariantOps.

Lemma verifyParam_result paramType param :
  verifyParam qt paramType param = DeviceErrorNoError
  ∨ verifyParam qt paramType param = DeviceErrorInvalidParameter.
Proof. unfold verifyParam. repeat case_match; auto. Qed.

Lemma verifyParamIn_result paramTypes param :
  verifyParamIn qt paramTypes param = DeviceErrorNoError
  ∨ verifyParamIn qt paramTypes param = DeviceErrorInvalidParameter.
Proof.
  induction paramTypes as [|pt pts IH]; cbn; [auto|].
  case_match; [apply verifyParam_result | exact IH].
Qed.

Lemma verifyEach_result paramTypes params :
  verifyEach qt paramTypes params = DeviceErrorNoError
  ∨ verifyEach qt paramTypes params = DeviceErrorInvalidParameter.
Proof.
  induction params as [|p ps IH]; cbn; [auto|].
  destruct (verifyParamIn_result paramTypes p) as [-> | ->]; auto.
Qed.

(** Every param that passed the first loop carries a declared name. *)
Lemma verifyEach_declared paramTypes params p :
  verifyEach qt paramTypes params = DeviceErrorNoError →
  p ∈ params → ∃ pt, pt ∈ paramTypes ∧ pt_name pt = param_name p.
Proof.
  induction params as [|q qs IH]; cbn; [by intros _ ?%elem_of_nil|].
  destruct (verifyParamIn qt paramTypes q) eqn:E; try done.
  intros Hrest [-> | Hin]%elem_of_cons; [|by apply IH].
  clear -E. induction paramTypes as [|pt pts IHp]; cbn in E; [done|].
  destruct (String.eqb_spec (pt_name pt) (param_name q)) as [Heq|_].
  - exists pt. split; [left | done].
  - destruct (IHp E) as (pt' & ? & ?). exists pt'. split; [by right | done].
Qed.

Lemma fillRequired_result paramTypes params :
  (fillRequired paramTypes params).1 = DeviceErrorNoError
  ∨ (fillRequired paramTypes params).1 = DeviceErrorMissingParameter.
Proof.
  revert params. induction paramTypes as [|pt pts IH]; intros ps; cbn; [auto|].
  destruct (variant_isNull (pt_defaultValue pt)); cbn.
  - destruct (paramFound pt ps); cbn; auto.
  - apply IH.
Qed.

(** The second loop only appends. *)
Lemma fillRequired_extends paramTypes params :
  ∃ added, (fillRequired paramTypes params).2 = params ++ added.
Proof.
  revert params. induction paramTypes as [|pt pts IH]; intros ps; cbn.
  - exists []. by rewrite app_nil_r.
  - destruct (variant_isNull (pt_defaultValue pt)); cbn.
    + destruct (paramFound pt ps); cbn; [apply IH|]. exists []. by rewrite app_nil_r.
    + destruct (IH (ps ++ [mkParam (pt_name pt) (pt_defaultValue pt)])) as [added ->].
      eexists. by rewrite <- app_assoc.
Qed.

(** On success every declared ParamType has at least one param. *)
Lemma fillRequired_found paramTypes params pt :
  (fillRequired paramTypes params).1 = DeviceErrorNoError →
  pt ∈ paramTypes →
  0 < countName (pt_name pt) (fillRequired paramTypes params).2.
Proof.
  revert params. induction paramTypes as [|q qs IH]; intros ps; cbn;
    [by intros _ ?%elem_of_nil|].
  intros Hok Hin.
  destruct (variant_isNull (pt_defaultValue q)) eqn:Hnull; cbn in *.
  - destruct (paramFound q ps) eqn:Hfound; cbn in *; [|done].
    apply elem_of_cons in Hin as [-> | Hin]; [|by apply IH].
    destruct (fillRequired_extends qs ps) as [added ->].
    rewrite countName_app. apply paramFound_countName in Hfound. lia.
  - apply elem_of_cons in Hin as [-> | Hin]; [|by apply IH].
    destruct (fillRequired_extends qs (ps ++ [mkParam (pt_name q) (pt_defaultValue q)]))
      as [added ->].
    rewrite !countName_app, countName_singleton. lia.
Qed.

(** A ParamType with a default gets the default appended even when the
    caller gave a param of that name. *)
Lemma fillRequired_default_again paramTypes params pt :
  pt ∈ paramTypes →
  variant_isNull (pt_defaultValue pt) = false →
  (fillRequired paramTypes params).1 = DeviceErrorNoError →
  countName (pt_name pt) params
  < countName (pt_name pt) (fillRequired paramTypes params).2.
Proof.
  revert params. induction paramTypes as [|q qs IH]; intros ps; cbn;
    [by intros ?%elem_of_nil|].
  intros Hin Hdef Hok.
  apply elem_of_cons in Hin as [<- | Hin].
  - rewrite Hdef in *. cbn in *.
    destruct (fillRequired_extends qs (ps ++ [mkParam (pt_name pt) (pt_defaultValue pt)]))
      as [added ->].
    rewrite !countName_app, countName_singleton. lia.
  - destruct (variant_isNull (pt_defaultValue q)); cbn in *.
    + destruct (paramFound q ps); cbn in *; [by apply IH | done].
    + specialize (IH _ Hin Hdef Hok). rewrite countName_app in IH. lia.
Qed.

Lemma verifyParams_result paramTypes params requireAll :
  (verifyParams qt paramTypes params requireAll).1 = DeviceErrorNoError
  ∨ (verifyParams qt paramTypes params requireAll).1 = DeviceErrorInvalidParameter
  ∨ (verifyParams qt paramTypes params requireAll).1 = DeviceErrorMissingParameter.
Proof.
  unfold verifyParams.
  destruct (verifyEach_result paramTypes params) as [-> | ->]; cbn; [|auto].
  destruct requireAll; cbn; [|auto].
  destruct (fillRequired_result paramTypes params) as [-> | ->]; auto.
Qed.

(** With requireAll, a list that passes has at least one param for every
    declared ParamType, and only params of declared names. *)
Lemma verifyParams_complete paramTypes params effective :
  verifyParams qt paramTypes params true = (DeviceErrorNoError, effective) →
  (∀ pt, pt ∈ paramTypes → 0 < countName (pt_name pt) effective)
  ∧ (∀ p, p ∈ effective → ∃ pt, pt ∈ paramTypes ∧ pt_name pt = param_name p).
Proof.
  unfold verifyParams.
  destruct (verifyEach qt paramTypes params) eqn:Heach; try (intros [=]; done).
  cbn. intros Hfill. split.
  - intros pt Hin.
    replace effective with (fillRequired paramTypes params).2 by by rewrite Hfill.
    apply fillRequired_found; [by rewrite Hfill | done].
  - intros p Hp.
    assert (∀ pts ps, (∀ q, q ∈ ps → ∃ pt, pt ∈ paramTypes ∧ pt_name pt = param_name q) →
              (∀ q, q ∈ pts → q ∈ paramTypes) →
              ∀ q, q ∈ (fillRequired pts ps).2 →
                   ∃ pt, pt ∈ paramTypes ∧ pt_name pt = param_name q) as Hgen.
    { clear. induction pts as [|a pts IH]; intros ps Hps Hsub q; cbn; [apply Hps|].
      destruct (variant_isNull (pt_defaultValue a)); cbn.
      - destruct (paramFound a ps); cbn; [|apply Hps].
        apply IH; [done|]. intros ? ?. apply Hsub. by right.
      - apply IH.
        + intros r [Hr | ->%list_elem_of_singleton]%elem_of_app; [by apply Hps|].
          exists a. split; [apply Hsub; left | done].
        + intros ? ?. apply Hsub. by right. }
    apply (Hgen paramTypes params); [|done|by rewrite Hfill].
    intros q Hq. by apply (verifyEach_declared paramTypes params).
Qed.
End ValidatorFacts.

(** C1.  [verifyParams] with requireAll on the schema with the one Int
    param [n] (default 3) and the param list [n = 5] succeeds, and the
    effective list holds two params named [n]: the caller's and the
    default, appended although the param was present. *)
Theorem verifyParams_default_appended_to_present_param :
  verifyParams sampleOps [paramType_n] [mkParam "n" (QVInt 5)] requireAll_default
  = (DeviceErrorNoError, [mkParam "n" (QVInt 5); mkParam "n" (QVInt 3)])
  ∧ countName "n" (verifyParams sampleOps [paramType_n] [mkParam "n" (QVInt 5)]
                                requireAll_default).2 = 2.
Proof. split; reflexivity. Qed.

(** ** Plugin metadata *)

Lemma verifyPluginMetadata_name data :
  verifyPluginMetadata data = json_contains data "name".
Proof.
  unfold verifyPluginMetadata, requiredFields. cbn.
  by destruct (json_contains data "name").
Qed.

(** C5.  A metadata object that has [name] and lacks both [id] and
    [vendors] passes [verifyPluginMetadata]. *)
Theorem verifyPluginMetadata_accepts_name_only :
  let data : gmap string QJsonValue := {[ "name" := JsonString "Mock" ]} in
  json_contains data "id" = false
  ∧ json_contains data "vendors" = false
  ∧ verifyPluginMetadata data = true.
Proof. cbn. repeat split; vm_compute; reflexivity. Qed.

(** ** Running methods *)

Lemma bind_run {A B} (c : M A) (f : A → M B) m :
  (c ≫= f) m = match c m with Some (a, m') => f a m' | None => None end.
Proof. reflexivity. Qed.

Lemma ret_run {A} (a : A) m : (mret a : M A) m = Some (a, m).
Proof. reflexivity. Qed.

Lemma bind_Some {A B} (c : M A) (f : A → M B) m b m2 :
  (c ≫= f) m = Some (b, m2) ↔ ∃ a m1, c m = Some (a, m1) ∧ f a m1 = Some (b, m2).
Proof.
  rewrite bind_run. split.
  - destruct (c m) as [[a m1]|]; [eauto | done].
  - by intros (a & m1 & -> & ?).
Qed.

(** Unfolds the binds of a method applied to a state. *)
Ltac mrun :=
  repeat first [ rewrite bind_run | rewrite ret_run
               | progress unfold modify, emit, get, crash | progress cbn ].

Section Preserves.
Context (R : relation DeviceManager) `{!PreOrder R}.

Lemma preserves_ret {A} (a : A) : preserves R (mret a).
Proof. intros m ? m' [= _ <-]. reflexivity. Qed.

Lemma preserves_bind {A B} (c : M A) (f : A → M B) :
  preserves R c → (∀ a, preserves R (f a)) → preserves R (c ≫= f).
Proof.
  intros Hc Hf m b m2 (a & m1 & H1 & H2)%bind_Some.
  etransitivity; [by eapply Hc | by eapply Hf].
Qed.

Lemma preserves_get : preserves R get.
Proof. intros m ? m' [= _ <-]. reflexivity. Qed.

Lemma preserves_crash {A} : preserves R (crash : M A).
Proof. intros m ? m' [=]. Qed.

Lemma preserves_modify f : (∀ m, R m (f m)) → preserves R (modify f).
Proof. intros Hf m [] m' [= <-]. apply Hf. Qed.

Lemma preserves_readDevice device : preserves R (readDevice device).
Proof.
  intros m d m'. unfold readDevice. destruct (objects m !! device); [|done].
  intros [= _ <-]. reflexivity.
Qed.

Lemma preserves_findConfiguredDevice id : preserves R (findConfiguredDevice id).
Proof.
  intros m d m'. unfold findConfiguredDevice. destruct (findDeviceById _ _ _); [|done].
  intros [= _ <-]. reflexivity.
Qed.

Lemma preserves_discard {A} (c : M A) : preserves R c → preserves R (discard c).
Proof. intros. apply preserves_bind; [done|]. intros. apply preserves_ret. Qed.
End Preserves.

(** One step through the text of a method. *)
Ltac preserves_step :=
  lazymatch goal with
  | |- preserves ?R (_ ≫= _) => refine (preserves_bind R _ _ _ _); [|intros ?]
  | |- preserves ?R (mret _) => exact (preserves_ret R _)
  | |- preserves ?R get => exact (preserves_get R)
  | |- preserves ?R crash => exact (preserves_crash R)
  | |- preserves ?R (readDevice _) => exact (preserves_readDevice R _)
  | |- preserves ?R (findConfiguredDevice _) =>
      exact (preserves_findConfiguredDevice R _)
  | |- preserves ?R (discard _) => refine (preserves_discard R _ _)
  | |- preserves ?R (modify _) => refine (preserves_modify R _ _); intros ?
  | |- preserves _ (match ?x with _ => _ end) => destruct x
  | |- preserves _ (let '(_, _) := ?x in _) => destruct x
  end.

(** ** Frames: which members a method writes

    The lemmas of this section hold for every preorder [R] that the writes
    of the method respect.  A hypothesis is attached to a lemma only when
    the method performs that write. *)
Section Frames.
Context (R : relation DeviceManager) `{!PreOrder R}.
Hypothesis R_trace : ∀ f m, R m (set_trace f m).
Hypothesis R_write : ∀ device d m,
    is_Some (objects m !! device) → R m (set_objects (λ o, <[device := d]> o) m).
Hypothesis R_new : ∀ d m,
    R m (set_objects (λ o, <[fresh (dom (objects m)) := d]> o) m).
Hypothesis R_delete : ∀ device m, R m (set_objects (λ o, delete device o) m).
Hypothesis R_connections : ∀ f m, R m (set_connections f m).
Hypothesis R_settings : ∀ f m, R m (set_settings f m).
Hypothesis R_configured : ∀ f m, R m (set_configuredDevices f m).
Hypothesis R_discovered : ∀ f m, R m (set_discoveredDevices f m).
Hypothesis R_pairingsJustAdd : ∀ f m, R m (set_pairingsJustAdd f m).
Hypothesis R_pairingsDiscovery : ∀ f m, R m (set_pairingsDiscovery f m).
Hypothesis R_discovering : ∀ f m, R m (set_discoveringPlugins f m).
Hypothesis R_queued : ∀ f m, R m (set_queuedTimerEvents f m).
Hypothesis R_register : ∀ plugin device, preserves R (registerTimerUser plugin device).
Hypothesis R_unregister : ∀ device, preserves R (unregisterTimerUser device).

Ltac frame :=
  repeat first
    [ preserves_step
    | lazymatch goal with
      | |- R _ (set_trace _ _) => apply R_trace
      | |- R _ (set_objects _ _) => apply R_delete
      | |- R _ (set_connections _ _) => apply R_connections
      | |- R _ (set_settings _ _) => apply R_settings
      | |- R _ (set_configuredDevices _ _) => apply R_configured
      | |- R _ (set_discoveredDevices _ _) => apply R_discovered
      | |- R _ (set_pairingsJustAdd _ _) => apply R_pairingsJustAdd
      | |- R _ (set_pairingsDiscovery _ _) => apply R_pairingsDiscovery
      | |- R _ (set_discoveringPlugins _ _) => apply R_discovering
      | |- R _ (set_queuedTimerEvents _ _) => apply R_queued
      | |- preserves R (registerTimerUser _ _) => apply R_register
      | |- preserves R (unregisterTimerUser _) => apply R_unregister
      end ].

Lemma emit_preserves e : preserves R (emit e).
Proof. unfold emit. frame. Qed.

Lemma writeDevice_preserves device f : preserves R (writeDevice device f).
Proof.
  intros m [] m'. unfold writeDevice, readDevice. rewrite bind_run.
  destruct (objects m !! device) as [d|] eqn:Hd; [|done].
  intros [= <-]. by apply R_write.
Qed.

Lemma newDevice_preserves d : preserves R (newDevice d).
Proof.
  intros m device m'. unfold newDevice. mrun. intros [= _ <-]. apply R_new.
Qed.

Lemma deleteDevice_preserves device : preserves R (deleteDevice device).
Proof. unfold deleteDevice. frame. Qed.

Lemma storeDevices_preserves devices : preserves R (storeDevices devices).
Proof. induction devices; cbn [storeDevices]; frame; assumption. Qed.

Lemma storeConfiguredDevices_preserves : preserves R storeConfiguredDevices.
Proof. unfold storeConfiguredDevices. frame. apply storeDevices_preserves. Qed.

Lemma setupDevice_preserves device : preserves R (setupDevice device).
Proof.
  unfold setupDevice. frame;
    first [apply emit_preserves | apply writeDevice_preserves].
Qed.

Ltac frame_op :=
  lazymatch goal with
  | |- preserves R (emit _) => apply emit_preserves
  | |- preserves R (writeDevice _ _) => apply writeDevice_preserves
  | |- preserves R (newDevice _) => apply newDevice_preserves
  | |- preserves R (deleteDevice _) => apply deleteDevice_preserves
  | |- preserves R storeConfiguredDevices => apply storeConfiguredDevices_preserves
  | |- preserves R (setupDevice _) => apply setupDevice_preserves
  end.

Ltac frames := repeat first [ frame_op | frame ].

Lemma addConfiguredDeviceInternal_preserves qt deviceClassId params id :
  preserves R (addConfiguredDeviceInternal qt deviceClassId params id).
Proof. unfold addConfiguredDeviceInternal. frames. Qed.

Lemma addConfiguredDevice_preserves qt deviceClassId params id :
  preserves R (addConfiguredDevice qt deviceClassId params id).
Proof.
  unfold addConfiguredDevice. frames. apply addConfiguredDeviceInternal_preserves.
Qed.

Lemma addDiscoveredDevice_preserves qt deviceClassId deviceDescriptorId deviceId :
  preserves R (addDiscoveredDevice qt deviceClassId deviceDescriptorId deviceId).
Proof.
  unfold addDiscoveredDevice. frames. apply addConfiguredDeviceInternal_preserves.
Qed.

Lemma discoverDevices_preserves qt deviceClassId params :
  preserves R (discoverDevices qt deviceClassId params).
Proof. unfold discoverDevices. frames. Qed.

Lemma pairDeviceParams_preserves tx deviceClassId params :
  preserves R (pairDeviceParams tx deviceClassId params).
Proof. unfold pairDeviceParams. frames. Qed.

Lemma pairDevice_preserves tx deviceClassId deviceDescriptorId :
  preserves R (pairDevice tx deviceClassId deviceDescriptorId).
Proof. unfold pairDevice. frames. Qed.

Lemma confirmPairing_preserves tx secret : preserves R (confirmPairing tx secret).
Proof. unfold confirmPairing. frames. Qed.

Lemma pairingAppend_preserves device : preserves R (pairingAppend device).
Proof. unfold pairingAppend. frames. Qed.

Lemma slotPairingFinished_preserves tx status newId :
  preserves R (slotPairingFinished tx status newId).
Proof. unfold slotPairingFinished. frames; apply pairingAppend_preserves. Qed.

Lemma removeConfiguredDevice_preserves deviceId :
  preserves R (removeConfiguredDevice deviceId).
Proof. unfold removeConfiguredDevice. frames. Qed.

Lemma slotDevicesDiscovered_preserves sender deviceClassId deviceDescriptors :
  preserves R (slotDevicesDiscovered sender deviceClassId deviceDescriptors).
Proof. unfold slotDevicesDiscovered. frames. Qed.

Lemma slotDeviceSetupFinished_preserves device status :
  preserves R (slotDeviceSetupFinished device status).
Proof. unfold slotDeviceSetupFinished. frames. Qed.

Lemma slotDeviceStateValueChanged_preserves sender stateTypeId value :
  preserves R (slotDeviceStateValueChanged sender stateTypeId value).
Proof. unfold slotDeviceStateValueChanged. frames. Qed.

Lemma Device_stateValueChanged_preserves device stateTypeId value :
  preserves R (Device_stateValueChanged device stateTypeId value).
Proof.
  unfold Device_stateValueChanged. frames.
  induction (filter _ _); cbn [foldr]; frames;
    [apply slotDeviceStateValueChanged_preserves | assumption].
Qed.

Lemma timerEvent_loop_preserves devices : preserves R (timerEvent_loop devices).
Proof. induction devices; cbn [timerEvent_loop]; frames; assumption. Qed.

Lemma timerEvent_preserves : preserves R timerEvent.
Proof. unfold timerEvent. frames. apply timerEvent_loop_preserves. Qed.

Lemma radioDeliver_preserves targetPlugins rawData :
  preserves R (radioDeliver targetPlugins rawData).
Proof. induction targetPlugins; cbn [radioDeliver]; frames; assumption. Qed.

Lemma radio433SignalReceived_preserves rawData :
  preserves R (radio433SignalReceived rawData).
Proof. unfold radio433SignalReceived. frames. apply radioDeliver_preserves. Qed.

Lemma loadDevices_preserves stored : preserves R (loadDevices stored).
Proof. induction stored; cbn [loadDevices]; frames; assumption. Qed.

Lemma loadConfiguredDevices_preserves : preserves R loadConfiguredDevices.
Proof. unfold loadConfiguredDevices. frames. apply loadDevices_preserves. Qed.

Lemma autoDevices_loop_preserves plugin deviceClass deviceClassId descriptors :
  preserves R (autoDevices_loop plugin deviceClass deviceClassId descriptors).
Proof. induction descriptors; cbn [autoDevices_loop]; frames; assumption. Qed.

Lemma autoDevicesAppeared_preserves deviceClassId descriptors :
  preserves R (autoDevicesAppeared deviceClassId descriptors).
Proof. unfold autoDevicesAppeared. frames. apply autoDevices_loop_preserves. Qed.

(** Every command respects a preorder that all the writes respect. *)
Lemma run_preserves qt c : preserves R (run qt c).
Proof.
  destruct c; cbn [run]; frames;
    first [ apply loadConfiguredDevices_preserves
          | apply addConfiguredDevice_preserves
          | apply addDiscoveredDevice_preserves
          | apply discoverDevices_preserves
          | apply pairDeviceParams_preserves
          | apply pairDevice_preserves
          | apply confirmPairing_preserves
          | apply removeConfiguredDevice_preserves
          | apply slotDevicesDiscovered_preserves
          | apply slotDeviceSetupFinished_preserves
          | apply slotPairingFinished_preserves
          | apply autoDevicesAppeared_preserves
          | apply Device_stateValueChanged_preserves
          | apply timerEvent_preserves
          | apply radio433SignalReceived_preserves ].
Qed.
End Frames.

(** ** Members a method leaves alone *)

#[global] Instance sameOn_preorder {B} (member : DeviceManager → B) :
  PreOrder (sameOn member).
Proof.
  split; [by intros m | intros m1 m2 m3 H12 H23].
  unfold sameOn in *. congruence.
Qed.

Section TimerFrames.
Context (R : relation DeviceManager) `{!PreOrder R}.
Hypothesis R_active : ∀ b m, R m (set_pluginTimerActive b m).
Hypothesis R_users : ∀ f m, R m (set_pluginTimerUsers f m).
Hypothesis R_queued : ∀ f m, R m (set_queuedTimerEvents f m).

Lemma registerTimerUser_preserves plugin device :
  preserves R (registerTimerUser plugin device).
Proof.
  unfold registerTimerUser.
  repeat first [ preserves_step | apply R_active | apply R_users | apply R_queued ].
Qed.

Lemma unregisterTimerUser_preserves device :
  preserves R (unregisterTimerUser device).
Proof.
  unfold unregisterTimerUser.
  repeat first [ preserves_step | apply R_active | apply R_users ].
Qed.
End TimerFrames.

(** Discharges the side conditions of a frame lemma for [sameOn]. *)
Ltac same :=
  first
    [ typeclasses eauto
    | by (intros; unfold sameOn; cbn)
    | by (intros; apply registerTimerUser_preserves;
          [typeclasses eauto | by (intros; unfold sameOn; cbn)..])
    | by (intros; apply unregisterTimerUser_preserves;
          [typeclasses eauto | by (intros; unfold sameOn; cbn)..]) ].

(** No command writes the catalogs. *)
Lemma run_supportedDevices qt c : preserves (sameOn m_supportedDevices) (run qt c).
Proof. apply run_preserves; same. Qed.

Lemma run_devicePlugins qt c : preserves (sameOn m_devicePlugins) (run qt c).
Proof. apply run_preserves; same. Qed.

Lemma setupDevice_configuredDevices device :
  preserves (sameOn m_configuredDevices) (setupDevice device).
Proof. apply setupDevice_preserves; same. Qed.

Lemma setupDevice_settings device : preserves (sameOn settings) (setupDevice device).
Proof. apply setupDevice_preserves; same. Qed.

Lemma addConfiguredDeviceInternal_supportedDevices qt deviceClassId params id :
  preserves (sameOn m_supportedDevices)
            (addConfiguredDeviceInternal qt deviceClassId params id).
Proof. apply addConfiguredDeviceInternal_preserves; same. Qed.

Lemma addConfiguredDeviceInternal_discoveredDevices qt deviceClassId params id :
  preserves (sameOn m_discoveredDevices)
            (addConfiguredDeviceInternal qt deviceClassId params id).
Proof. apply addConfiguredDeviceInternal_preserves; same. Qed.

Lemma exec_reachable qt cs m0 m : exec qt cs m0 = Some m → reachable qt m0 m.
Proof.
  assert (∀ m1, reachable qt m0 m1 → exec qt cs m1 = Some m → reachable qt m0 m) as H.
  { induction cs as [|c cs IH]; intros m1 Hm1; cbn.
    - by intros [= <-].
    - destruct (run qt c m1) as [[[] m2]|] eqn:Hrun; [|done].
      apply IH. by eapply reachable_step. }
  apply H. constructor.
Qed.

(** ** The plugin timer *)

#[global] Instance keepsTimerInv_preorder : PreOrder keepsTimerInv.
Proof.
  split; [intros m H; exact H | intros m1 m2 m3 H12 H23 H; exact (H23 (H12 H))].
Qed.

Lemma registerTimerUser_TimerInv plugin device :
  preserves keepsTimerInv (registerTimerUser plugin device).
Proof.
  intros m [] m'. unfold registerTimerUser, keepsTimerInv, TimerInv.
  destruct (testFlag _ _); [|by intros [= <-]].
  mrun.
  destruct (m_pluginTimerActive m) eqn:Hactive; cbn; intros [= <-] _; cbn.
  - split; [|done]. intros _. by destruct (m_pluginTimerUsers m).
  - split; [|done]. intros _. by destruct (m_pluginTimerUsers m).
Qed.

Lemma removeAllDevice_nonempty device devices :
  removeAllDevice device devices ≠ [] → devices ≠ [].
Proof. by intros H ->. Qed.

Lemma unregisterTimerUser_TimerInv device :
  preserves keepsTimerInv (unregisterTimerUser device).
Proof.
  intros m [] m'. unfold unregisterTimerUser, keepsTimerInv, TimerInv.
  mrun. case_bool_decide as Hempty; cbn; intros [= <-] Hinv; cbn.
  - by rewrite Hempty.
  - split; [done|]. intros _. by apply Hinv, (removeAllDevice_nonempty device).
Qed.

Lemma run_TimerInv qt c : preserves keepsTimerInv (run qt c).
Proof.
  apply run_preserves;
    first [ typeclasses eauto
          | apply registerTimerUser_TimerInv
          | apply unregisterTimerUser_TimerInv
          | by (intros; unfold keepsTimerInv, TimerInv; cbn) ].
Qed.

Lemma reachable_TimerInv qt m0 m : reachable qt m0 m → TimerInv m0 → TimerInv m.
Proof.
  induction 1 as [|m c m' _ IH Hrun]; [done|].
  intros H0. by eapply run_TimerInv; [|apply IH].
Qed.

Arguments findDeviceClass : simpl never.
Arguments supportedDevice : simpl never.
Arguments discoveredDevice : simpl never.
Arguments defaultStates : simpl never.
Arguments testFlag : simpl never.
Arguments verifyParams : simpl never.
Arguments removeAllDevice : simpl never.
Arguments removeOnePlugin : simpl never.

Lemma findDeviceById_Some objs devices id device :
  findDeviceById objs devices id = Some (Some device) →
  device ∈ devices ∧ ∃ d, objs !! device = Some d ∧ dev_id d = id.
Proof.
  induction devices as [|x xs IH]; cbn; [done|].
  destruct (objs !! x) as [d|] eqn:Hx; [|done].
  destruct (N.eqb_spec (dev_id d) id) as [Hid|_].
  - intros [= <-]. split; [left | eauto].
  - intros [Hin Hd]%IH. split; [by right | done].
Qed.

Lemma removeAllDevice_only device devices :
  (∀ x, x ∈ devices → x = device) → removeAllDevice device devices = [].
Proof.
  intros Hall. unfold removeAllDevice. induction devices as [|x xs IH]; [done|].
  rewrite filter_cons, decide_False.
  - apply IH. intros y Hy. apply Hall. by right.
  - intros Hne. apply Hne, Hall. left.
Qed.

(** The first timer user: a successful [setupDevice] under a plugin that
    needs the timer, while the timer is not running, starts the timer,
    queues one single shot and registers the device. *)
Lemma setupDevice_first_timer_user m device d plugin :
  objects m !! device = Some d →
  m_devicePlugins m !! dc_pluginId (findDeviceClass m (dev_deviceClassId d))
    = Some plugin →
  testFlag (plugin_requiredHardware plugin) HardwareResourceTimer = true →
  plugin_setupDevice plugin
    (Device_setStates
       (defaultStates (findDeviceClass m (dev_deviceClassId d)) (dev_id d)) d)
    = DeviceSetupStatusSuccess →
  m_pluginTimerActive m = false →
  ∃ m', setupDevice device m = Some (DeviceSetupStatusSuccess, m')
        ∧ m_pluginTimerActive m' = true
        ∧ queuedTimerEvents m' = S (queuedTimerEvents m)
        ∧ m_pluginTimerUsers m' = m_pluginTimerUsers m ++ [device].
Proof.
  intros Hd Hplugin Htimer Hsetup Hidle.
  unfold setupDevice, readDevice. rewrite bind_run, Hd. mrun. rewrite Hplugin.
  unfold writeDevice, readDevice. mrun. rewrite Hd. mrun.
  rewrite Hsetup. rewrite bool_decide_false by (by intros ?).
  unfold registerTimerUser. rewrite Htimer. mrun.
  rewrite Hidle. mrun. rewrite lookup_insert_eq. mrun.
  eexists. split; [reflexivity|]. cbn. done.
Qed.

(** The last timer user: removing the device that is the only timer user
    stops the timer. *)
Lemma removeConfiguredDevice_last_timer_user m deviceId device d plugin :
  findDeviceById (objects m) (m_configuredDevices m) deviceId = Some (Some device) →
  objects m !! device = Some d →
  m_devicePlugins m !! dev_pluginId d = Some plugin →
  (∀ x, x ∈ m_pluginTimerUsers m → x = device) →
  ∃ m', removeConfiguredDevice deviceId m = Some (DeviceErrorNoError, m')
        ∧ m_pluginTimerUsers m' = []
        ∧ m_pluginTimerActive m' = false.
Proof.
  intros Hfind Hd Hplugin Honly.
  unfold removeConfiguredDevice, findConfiguredDevice. rewrite bind_run, Hfind.
  unfold readDevice. mrun. rewrite Hd. mrun. rewrite Hplugin.
  unfold unregisterTimerUser. mrun.
  rewrite (removeAllDevice_only _ _ Honly). cbn.
  eexists. split; [reflexivity|]. cbn. done.
Qed.

(** ** Live objects *)

#[global] Instance keepsObjects_preorder : PreOrder keepsObjects.
Proof.
  split; [intros m device H; exact H|].
  intros m1 m2 m3 H12 H23 device H. exact (H23 _ (H12 _ H)).
Qed.

Lemma setupDevice_keepsObjects device : preserves keepsObjects (setupDevice device).
Proof.
  apply setupDevice_preserves;
    first [ typeclasses eauto
          | by (intros; unfold keepsObjects; cbn)
          | by (intros; apply registerTimerUser_preserves;
                [typeclasses eauto | by (intros; unfold keepsObjects; cbn)..])
          | idtac ].
  intros dev d m _ x. cbn. rewrite lookup_insert_is_Some. destruct (decide (dev = x)); auto.
Qed.

Lemma findDeviceById_total objs devices id :
  (∀ device, device ∈ devices → is_Some (objs !! device)) →
  is_Some (findDeviceById objs devices id).
Proof.
  induction devices as [|x xs IH]; intros Hlive; cbn; [done|].
  destruct (Hlive x) as [d ->]; [left|].
  destruct (N.eqb _ _); [done|]. apply IH. intros y Hy. apply Hlive. by right.
Qed.

Lemma storeDevices_total devices m :
  (∀ device, device ∈ devices → is_Some (objects m !! device)) →
  ∃ m', storeDevices devices m = Some (tt, m').
Proof.
  revert m. induction devices as [|x xs IH]; intros m Hlive; cbn [storeDevices].
  - by eexists.
  - destruct (Hlive x) as [d Hd]; [left|].
    unfold readDevice. rewrite bind_run, Hd. mrun. apply IH.
    intros y Hy. cbn. apply Hlive. by right.
Qed.

Lemma setupDevice_total device m :
  is_Some (objects m !! device) → ∃ s m', setupDevice device m = Some (s, m').
Proof.
  intros [d Hd]. unfold setupDevice, readDevice. rewrite bind_run, Hd. mrun.
  destruct (m_devicePlugins m !! _) as [plugin|]; [|by eexists _, _].
  unfold writeDevice, readDevice. mrun. rewrite Hd. mrun.
  case_bool_decide; [by eexists _, _|].
  unfold registerTimerUser. destruct (testFlag _ _); mrun.
  - destruct (m_pluginTimerActive m); mrun; rewrite lookup_insert_eq; mrun;
      by eexists _, _.
  - rewrite lookup_insert_eq. mrun. by eexists _, _.
Qed.

(** ** The configured devices and the timer users

    What the methods that create, set up and remove devices keep: the
    configured devices are live objects, and the timer users are
    configured devices. *)

Lemma consistent_registry m m' : sameOn registry m m' → consistent m → consistent m'.
Proof.
  unfold sameOn, registry. intros [= Hc Hu Ho] [Hlive Husers]. split.
  - intros x. rewrite Hc, Ho. apply Hlive.
  - intros x. rewrite Hc, Hu. apply Husers.
Qed.

Lemma consistent_frame {A} (c : M A) :
  preserves (sameOn registry) c →
  ∀ m a m', consistent m → c m = Some (a, m') → consistent m'.
Proof. intros Hc m a m' Hgood Hrun. by eapply consistent_registry; [eapply Hc|]. Qed.

Lemma fresh_not_configured m :
  live m → fresh (dom (objects m)) ∉ m_configuredDevices m.
Proof.
  intros Hlive Hin. apply Hlive in Hin. apply elem_of_dom in Hin.
  by apply is_fresh in Hin.
Qed.

Lemma deleted_alive (o : gmap nat Device) device x :
  is_Some (o !! x) → x ≠ device → is_Some (delete device o !! x).
Proof. intros. by rewrite lookup_delete_is_Some. Qed.

Lemma registerTimerUser_summary plugin device m m' :
  registerTimerUser plugin device m = Some (tt, m') →
  m_configuredDevices m' = m_configuredDevices m
  ∧ objects m' = objects m
  ∧ (m_pluginTimerUsers m' = m_pluginTimerUsers m
     ∨ m_pluginTimerUsers m' = m_pluginTimerUsers m ++ [device]).
Proof.
  unfold registerTimerUser. destruct (testFlag _ _); [|intros [= <-]; auto].
  mrun. destruct (m_pluginTimerActive m); cbn; intros [= <-]; cbn; auto.
Qed.

(** [setupDevice] keeps the configured devices and the set of live
    objects; it adds the device to the timer users only when it succeeds. *)
Lemma setupDevice_summary device m s m' :
  setupDevice device m = Some (s, m') →
  m_configuredDevices m' = m_configuredDevices m
  ∧ (∀ x, is_Some (objects m' !! x) ↔ is_Some (objects m !! x))
  ∧ (m_pluginTimerUsers m' = m_pluginTimerUsers m
     ∨ (s = DeviceSetupStatusSuccess
        ∧ m_pluginTimerUsers m' = m_pluginTimerUsers m ++ [device])).
Proof.
  unfold setupDevice, readDevice. rewrite bind_run.
  destruct (objects m !! device) as [d|] eqn:Hd; [|done]. mrun.
  assert (∀ (o : gmap nat Device) d' x,
            is_Some (o !! device) →
            is_Some (<[device := d']> o !! x) ↔ is_Some (o !! x)) as Hdom.
  { intros o d' x Hlive. rewrite lookup_insert_is_Some. split.
    - by intros [<- | [_ H]].
    - intros H. destruct (decide (device = x)); auto. }
  destruct (m_devicePlugins m !! _) as [plugin|]; [|intros [= <- <-]; auto].
  unfold writeDevice, readDevice. mrun. rewrite Hd. mrun.
  case_bool_decide as Hs.
  { intros [= <- <-]; cbn. split; [done|]. split; [|by left].
    intros x. apply Hdom. by rewrite Hd. }
  rewrite bind_run.
  destruct (registerTimerUser plugin device _) as [[[] m1]|] eqn:Hreg; [|done].
  apply registerTimerUser_summary in Hreg as (Hc & Ho & Hu). cbn in Hc, Ho, Hu.
  mrun. rewrite Ho, lookup_insert_eq. mrun.
  intros [= <- <-]. cbn. rewrite Hc. split; [done|]. split.
  - intros x. rewrite !Hdom; [done|by rewrite Hd|by rewrite lookup_insert_eq].
  - destruct Hu as [-> | ->]; [by left|]. right. split; [|done].
    by destruct (plugin_setupDevice _ _).
Qed.

(** A device is allocated in a consistent state [m], possibly after writes
    that leave the registry alone, and set up.  [m1] is the state the
    setup starts from, [m2] the state it ends in. *)
Section NewDevice.
Context (m : DeviceManager) (d : Device) (m1 : DeviceManager)
      (s : DeviceSetupStatus) (m2 : DeviceManager).
Hypothesis Hgood : consistent m.
Hypothesis Hnew : registry m1 = (m_configuredDevices m, m_pluginTimerUsers m,
                               <[fresh (dom (objects m)) := d]> (objects m)).
Hypothesis Hsetup : setupDevice (fresh (dom (objects m))) m1 = Some (s, m2).

Lemma new_setup_facts :
m_configuredDevices m2 = m_configuredDevices m
∧ (∀ x, is_Some (objects m2 !! x)
        ↔ x = fresh (dom (objects m)) ∨ is_Some (objects m !! x))
∧ (m_pluginTimerUsers m2 = m_pluginTimerUsers m
   ∨ (s = DeviceSetupStatusSuccess
      ∧ m_pluginTimerUsers m2 = m_pluginTimerUsers m ++ [fresh (dom (objects m))])).
Proof.
apply setupDevice_summary in Hsetup as (Hc & Ho & Hu).
injection Hnew as Hc1 Hu1 Ho1. rewrite Hc1 in Hc. rewrite Hu1 in Hu.
split; [done|]. split; [|done]. intros x. rewrite Ho, Ho1, lookup_insert_is_Some.
destruct (decide (fresh (dom (objects m)) = x)) as [->|Hne]; [split; auto|].
split; [intros [?|[_ ?]]; [done|auto] | intros [?|?]; [done|auto]].
Qed.

(** The new device is appended to the configured devices. *)
Lemma consistent_appended m3 :
m_configuredDevices m3 = m_configuredDevices m2 ++ [fresh (dom (objects m))] →
m_pluginTimerUsers m3 = m_pluginTimerUsers m2 →
(∀ x, is_Some (objects m3 !! x) ↔ is_Some (objects m2 !! x)) →
consistent m3.
Proof.
destruct new_setup_facts as (Hc & Ho & Hu). destruct Hgood as [Hlive Husers].
intros Hc3 Hu3 Ho3. split.
- intros x. rewrite Hc3, Hc, Ho3, Ho, elem_of_app, list_elem_of_singleton.
  intros [Hx | ->]; auto.
- intros x. rewrite Hc3, Hc, Hu3, elem_of_app, list_elem_of_singleton.
  destruct Hu as [-> | [_ ->]]; [auto|].
  rewrite elem_of_app, list_elem_of_singleton. intros [Hx | ->]; auto.
Qed.

(** The setup did not succeed, and the new device is left out or deleted. *)
Lemma consistent_pending m3 :
s ≠ DeviceSetupStatusSuccess →
m_configuredDevices m3 = m_configuredDevices m2 →
m_pluginTimerUsers m3 = m_pluginTimerUsers m2 →
(∀ x, is_Some (objects m2 !! x) → x ≠ fresh (dom (objects m)) →
      is_Some (objects m3 !! x)) →
consistent m3.
Proof.
destruct new_setup_facts as (Hc & Ho & Hu). destruct Hgood as [Hlive Husers].
intros Hs Hc3 Hu3 Ho3. split.
- intros x. rewrite Hc3, Hc. intros Hx. apply Ho3.
  + apply Ho. right. by apply Hlive.
  + intros ->. by apply (fresh_not_configured m).
- intros x. rewrite Hc3, Hc, Hu3. destruct Hu as [-> | [-> _]]; [auto | done].
Qed.
End NewDevice.

(** Closes a goal [consistent _] after a device was allocated and set up. *)
Ltac created lem Hgood Hsetup :=
  eapply lem; [exact Hgood | | exact Hsetup | ..]; [reflexivity | try done ..].

Lemma storeDevices_live devices m m' :
  storeDevices devices m = Some (tt, m') →
  ∀ x, x ∈ devices → is_Some (objects m !! x).
Proof.
  revert m. induction devices as [|y ys IH]; intros m; cbn [storeDevices].
  - by intros _ x ?%elem_of_nil.
  - unfold readDevice. rewrite bind_run.
    destruct (objects m !! y) as [d|] eqn:Hd; [|done]. mrun.
    intros Hrest x [-> | Hx]%elem_of_cons; [by rewrite Hd|].
    by apply (IH _ Hrest).
Qed.

Lemma storeConfiguredDevices_registry :
  preserves (sameOn registry) storeConfiguredDevices.
Proof. apply storeConfiguredDevices_preserves; same. Qed.

Lemma addConfiguredDeviceInternal_consistent qt deviceClassId params id m r m' :
  consistent m →
  addConfiguredDeviceInternal qt deviceClassId params id m = Some (r, m') →
  consistent m'.
Proof.
  intros Hgood. unfold addConfiguredDeviceInternal. mrun.
  destruct (uuid_isNull _); [by intros [= _ <-]|].
  case_bool_decide; [by intros [= _ <-]|].
  destruct (verifyParams _ _ _ _) as [result effective].
  case_bool_decide; [by intros [= _ <-]|].
  unfold findConfiguredDevice. mrun.
  destruct (findDeviceById _ _ _) as [[dup|]|]; mrun; [by intros [= _ <-] | | done].
  destruct (m_devicePlugins m !! _) as [plugin|]; [|by intros [= _ <-]].
  unfold newDevice. mrun.
  destruct (setupDevice _ _) as [[s m2]|] eqn:Hsetup; [|done].
  destruct s; mrun.
  - destruct (storeConfiguredDevices _) as [[[] m3]|] eqn:Hstore; [|done].
    intros [= _ <-].
    apply (consistent_registry _ _ (storeConfiguredDevices_registry _ _ _ Hstore)).
    created consistent_appended Hgood Hsetup.
  - unfold deleteDevice. mrun. intros [= _ <-].
    created consistent_pending Hgood Hsetup. apply deleted_alive.
  - intros [= _ <-]. created consistent_pending Hgood Hsetup.
Qed.

Lemma addConfiguredDevice_consistent qt deviceClassId params id m r m' :
  consistent m →
  addConfiguredDevice qt deviceClassId params id m = Some (r, m') →
  consistent m'.
Proof.
  intros Hgood. unfold addConfiguredDevice. mrun.
  destruct (negb _); [by intros [= _ <-]|].
  destruct (testFlag _ _); [|by intros [= _ <-]].
  by apply addConfiguredDeviceInternal_consistent.
Qed.

Lemma addDiscoveredDevice_consistent qt deviceClassId deviceDescriptorId deviceId
      m r m' :
  consistent m →
  addDiscoveredDevice qt deviceClassId deviceDescriptorId deviceId m = Some (r, m') →
  consistent m'.
Proof.
  intros Hgood. unfold addDiscoveredDevice. mrun.
  destruct (negb (dc_isValid _)); [by intros [= _ <-]|].
  destruct (negb (testFlag _ _)); [by intros [= _ <-]|]. mrun.
  destruct (negb (dd_isValid _)).
  - intros [= _ <-]. by eapply consistent_registry; [|exact Hgood].
  - apply addConfiguredDeviceInternal_consistent.
    by eapply consistent_registry; [|exact Hgood].
Qed.

Lemma loadDevices_consistent stored m m' :
  consistent m → loadDevices stored m = Some (tt, m') → consistent m'.
Proof.
  revert m. induction stored as [|[id sd] rest IH]; intros m Hgood; cbn [loadDevices].
  - by intros [= <-].
  - unfold newDevice. mrun.
    destruct (setupDevice _ _) as [[s m2]|] eqn:Hsetup; [|done]. mrun.
    apply IH. created consistent_appended Hgood Hsetup.
Qed.

Lemma autoDevices_loop_consistent plugin deviceClass deviceClassId descriptors m m' :
  consistent m →
  autoDevices_loop plugin deviceClass deviceClassId descriptors m = Some (tt, m') →
  consistent m'.
Proof.
  revert m. induction descriptors as [|[descriptor newId] rest IH]; intros m Hgood;
    cbn [autoDevices_loop].
  - by intros [= <-].
  - unfold newDevice. mrun.
    destruct (setupDevice _ _) as [[s m2]|] eqn:Hsetup; [|done].
    destruct s; mrun.
    + destruct (storeConfiguredDevices _) as [[[] m3]|] eqn:Hstore; [|done].
      apply IH.
      apply (consistent_registry _ _ (storeConfiguredDevices_registry _ _ _ Hstore)).
      created consistent_appended Hgood Hsetup.
    + unfold deleteDevice. mrun. apply IH.
      created consistent_pending Hgood Hsetup. apply deleted_alive.
    + apply IH. created consistent_pending Hgood Hsetup.
Qed.

Lemma autoDevicesAppeared_consistent deviceClassId descriptors m m' :
  consistent m →
  autoDevicesAppeared deviceClassId descriptors m = Some (tt, m') →
  consistent m'.
Proof.
  intros Hgood. unfold autoDevicesAppeared. mrun.
  destruct (negb _); [by intros [= <-]|].
  destruct (m_devicePlugins m !! _); [|by intros [= <-]].
  by apply autoDevices_loop_consistent.
Qed.

(** In [slotPairingFinished] a failed setup deletes the device and then
    falls into the code that appends and stores it: the store reads the
    deleted object, so that path has no state after it. *)
Lemma slotPairingFinished_consistent tx status newId m m' :
  consistent m → slotPairingFinished tx status newId m = Some (tt, m') → consistent m'.
Proof.
  intros Hgood. unfold slotPairingFinished. mrun.
  destruct (_ && _); [by intros [= <-]|].
  destruct (m_pairingsJustAdd m !! tx) as [[c1 p1]|];
    destruct (m_pairingsDiscovery m !! tx) as [[c2 d2]|]; mrun;
    (case_bool_decide; [by intros [= <-]|]);
    (destruct (m_devicePlugins m !! _) as [plugin|]; [|by intros [= <-]]);
    unfold newDevice; mrun;
    (destruct (setupDevice _ _) as [[s m2]|] eqn:Hsetup; [|done]);
    destruct s; unfold pairingAppend, deleteDevice; mrun.
  all: try (intros [= <-]; created consistent_pending Hgood Hsetup).
  all: destruct (storeConfiguredDevices _) as [[[] m3]|] eqn:Hstore; [|done].
  all: intros [= <-].
  all: try (apply (consistent_registry _ _
                     (storeConfiguredDevices_registry _ _ _ Hstore));
            by created consistent_appended Hgood Hsetup).
  all: unfold storeConfiguredDevices in Hstore; rewrite bind_run in Hstore;
       cbn in Hstore;
       apply storeDevices_live with (x := fresh (dom (objects m))) in Hstore.
  all: try (apply elem_of_app; right; by left).
  all: cbn in Hstore; rewrite lookup_delete_eq in Hstore; by destruct Hstore.
Qed.

Lemma removeConfiguredDevice_consistent deviceId m r m' :
  consistent m → removeConfiguredDevice deviceId m = Some (r, m') → consistent m'.
Proof.
  intros [Hlive Husers]. unfold removeConfiguredDevice, findConfiguredDevice. mrun.
  destruct (findDeviceById _ _ _) as [[device|]|]; mrun; [|by intros [= _ <-]|done].
  unfold readDevice. mrun.
  destruct (objects m !! device) as [d|]; [|done]. mrun.
  destruct (m_devicePlugins m !! _) as [plugin|]; [|done].
  unfold unregisterTimerUser, deleteDevice. mrun.
  assert (∀ x (l : list nat), x ∈ removeAllDevice device l ↔ x ≠ device ∧ x ∈ l) as Hrm.
  { intros x l. unfold removeAllDevice. by rewrite list_elem_of_filter. }
  case_bool_decide as Hempty; cbn; intros [= _ <-]; (split; [intros x|intros x]); cbn.
  all: rewrite ?Hrm.
  - intros [Hne Hx]. apply lookup_delete_is_Some. split; [done|]. by apply Hlive.
  - intros [Hne Hx]. split; [done|]. by apply Husers.
  - intros [Hne Hx]. apply lookup_delete_is_Some. split; [done|]. by apply Hlive.
  - intros [Hne Hx]. split; [done|]. by apply Husers.
Qed.

Lemma slotDeviceSetupFinished_consistent device status m m' :
  consistent m → slotDeviceSetupFinished device status m = Some (tt, m') → consistent m'.
Proof.
  intros Hgood. unfold slotDeviceSetupFinished.
  destruct device as [device|]; [|by intros [= <-]].
  unfold readDevice. rewrite bind_run.
  destruct (objects m !! device) as [d|] eqn:Hd; [|done]. cbv beta iota.
  destruct (dev_setupComplete d); [by intros [= <-]|].
  destruct status; [|by intros [= <-]|by intros [= <-]].
  rewrite bind_run. unfold get. cbv beta iota. rewrite bind_run.
  set (step1 := if negb (bool_decide (device ∈ m_configuredDevices m)) then _ else _).
  destruct (step1 m) as [[[] m1]|] eqn:Hstep1; [|done].
  assert (consistent m1 ∧ device ∈ m_configuredDevices m1 ∧ objects m1 = objects m)
    as (Hgood1 & Hin1 & Hobj1).
  { subst step1. revert Hstep1. case_bool_decide as Hin; cbn [negb].
    - intros [= <-]. done.
    - mrun. intros Hstore.
      pose proof (storeConfiguredDevices_registry _ _ _ Hstore) as Hcore.
      injection Hcore as Hc Hu Ho. cbn in Hc, Hu, Ho. split; [|split].
      + destruct Hgood as [Hlive Husers]. split.
        * intros x. rewrite Hc, Ho, elem_of_app, list_elem_of_singleton.
          intros [Hx | ->]; [by apply Hlive | by rewrite Hd].
        * intros x. rewrite Hc, Hu, elem_of_app. intros Hx. left. by apply Husers.
      + rewrite Hc. apply elem_of_app. right. by left.
      + done. }
  destruct (m_devicePlugins m !! _) as [plugin|]; [|done].
  rewrite bind_run.
  destruct (registerTimerUser plugin device m1) as [[[] m2]|] eqn:Hreg; [|done].
  apply registerTimerUser_summary in Hreg as (Hc & Ho & Hu).
  unfold writeDevice, readDevice. mrun. rewrite Ho, Hobj1, Hd. mrun.
  intros [= <-]. destruct Hgood1 as [Hlive Husers]. split; intros x; cbn; rewrite Hc.
  - intros Hx. rewrite lookup_insert_is_Some'. right. rewrite <- Hobj1. by apply Hlive.
  - destruct Hu as [-> | ->]; [apply Husers|].
    rewrite elem_of_app, list_elem_of_singleton.
    intros [Hx | ->]; [by apply Husers | done].
Qed.

Lemma discard_Some {A} (c : M A) m m' :
  discard c m = Some (tt, m') → ∃ a, c m = Some (a, m').
Proof. unfold discard. intros (a & m1 & Hc & [= <-])%bind_Some. eauto. Qed.

Lemma run_consistent qt c m m' :
  consistent m → run qt c m = Some (tt, m') → consistent m'.
Proof.
  intros Hgood. destruct c; cbn [run].
  - unfold loadConfiguredDevices. mrun. by apply loadDevices_consistent.
  - intros [r Hrun]%discard_Some. by eapply addConfiguredDevice_consistent.
  - intros [r Hrun]%discard_Some. by eapply addDiscoveredDevice_consistent.
  - apply consistent_frame; [|done]. apply preserves_discard; [apply _|].
    apply discoverDevices_preserves; same.
  - apply consistent_frame; [|done]. apply preserves_discard; [apply _|].
    apply pairDeviceParams_preserves; same.
  - apply consistent_frame; [|done]. apply preserves_discard; [apply _|].
    apply pairDevice_preserves; same.
  - apply consistent_frame; [|done]. apply preserves_discard; [apply _|].
    apply confirmPairing_preserves; same.
  - intros [r Hrun]%discard_Some. by eapply removeConfiguredDevice_consistent.
  - apply consistent_frame; [|done]. apply slotDevicesDiscovered_preserves; same.
  - by apply slotDeviceSetupFinished_consistent.
  - by apply slotPairingFinished_consistent.
  - by apply autoDevicesAppeared_consistent.
  - apply consistent_frame; [|done]. apply Device_stateValueChanged_preserves; same.
  - mrun. destruct (m_pluginTimerActive m); [|by intros [= <-]].
    apply consistent_frame; [|done]. apply timerEvent_preserves; same.
  - mrun. destruct (queuedTimerEvents m); [by intros [= <-]|]. mrun.
    intros Hrun.
    eapply consistent_frame; [apply timerEvent_preserves; same| |exact Hrun].
    by eapply consistent_registry; [|exact Hgood].
  - apply consistent_frame; [|done]. apply radio433SignalReceived_preserves; same.
Qed.

(** Every state the manager reaches is consistent. *)
Lemma reachable_consistent qt classes plugins stored m :
  reachable qt (initial classes plugins stored) m → consistent m.
Proof.
  induction 1 as [|m c m' _ IH Hrun]; [|by eapply run_consistent].
  split; intros x; cbn; by intros ?%elem_of_nil.
Qed.

(** ** Adding a configured device *)

(** [addConfiguredDeviceInternal], branch by branch. *)
Lemma addConfiguredDeviceInternal_cases qt deviceClassId params id m :
  live m →
  let deviceClass := findDeviceClass m deviceClassId in
  let verified := verifyParams qt (dc_paramTypes deviceClass) params true in
  ∃ r m',
    addConfiguredDeviceInternal qt deviceClassId params id m = Some (r, m')
    ∧ if uuid_isNull (dc_id deviceClass)
      then r = DeviceErrorDeviceClassNotFound ∧ m' = m
      else if bool_decide (dc_setupMethod deviceClass ≠ SetupMethodJustAdd)
      then r = DeviceErrorCreationMethodNotSupported ∧ m' = m
      else if bool_decide (verified.1 ≠ DeviceErrorNoError)
      then r = verified.1 ∧ m' = m
      else match findDeviceById (objects m) (m_configuredDevices m) id with
           | Some (Some _) => r = DeviceErrorDuplicateUuid ∧ m' = m
           | _ => r ≠ DeviceErrorNoError →
                  m_configuredDevices m' = m_configuredDevices m
                  ∧ settings m' = settings m
           end.
Proof.
  intros Hlive deviceClass verified.
  unfold addConfiguredDeviceInternal, requireAll_default. mrun.
  fold deviceClass. fold verified.
  destruct (uuid_isNull _); [by eexists _, _|].
  case_bool_decide; [by eexists _, _|].
  destruct verified as [result effective]. cbn [fst].
  case_bool_decide; [by eexists _, _|].
  unfold findConfiguredDevice. mrun.
  destruct (findDeviceById_total (objects m) (m_configuredDevices m) id Hlive)
    as [[dup|] ->]; mrun; [by eexists _, _|].
  destruct (m_devicePlugins m !! _) as [plugin|]; [|by eexists _, _].
  unfold newDevice. mrun.
  set (device := fresh (dom (objects m))).
  set (m1 := mkManager _ _ _ _ _ _ _ _ _ _ _ _ _ _ _).
  assert (objects m1 !! device = Some (Device_new (plugin_pluginId plugin) id deviceClassId
            (dc_name deviceClass) effective)) as Hnew by apply lookup_insert_eq.
  destruct (setupDevice_total device m1) as (s & m2 & Hsetup); [by eexists|].
  rewrite Hsetup.
  pose proof (setupDevice_configuredDevices _ _ _ _ Hsetup) as Hconf.
  pose proof (setupDevice_settings _ _ _ _ Hsetup) as Hsett.
  pose proof (setupDevice_keepsObjects _ _ _ _ Hsetup) as Hobjs.
  unfold sameOn in Hconf, Hsett. cbn in Hconf, Hsett.
  destruct s.
  - unfold storeConfiguredDevices. mrun.
    edestruct (storeDevices_total (m_configuredDevices m2 ++ [device])) as [m3 ->].
    2:{ mrun. by eexists _, _. }
    cbn. intros x [Hx | ->%list_elem_of_singleton]%elem_of_app.
    + apply Hobjs. cbn. rewrite lookup_insert_is_Some'. right. apply Hlive.
      by rewrite <- Hconf.
    + apply Hobjs. by eexists.
  - unfold deleteDevice. mrun. eexists _, _. split; [done|]. by cbn.
  - mrun. eexists _, _. split; [done|]. by intros _.
Qed.

(** C2.  In every state the manager reaches,
    [addConfiguredDevice(deviceClassId, params, id)] returns, and:
    for a class that is valid, user-creatable and just added, an error of
    [verifyParams] with requireAll on the class's paramTypes is returned
    as it is, and when the params pass, an id already used by a configured
    device is answered with DuplicateUuid; an id in use is never answered
    with NoError or Async; and whenever the answer is not NoError the
    configured devices and the stored settings are what they were. *)
Theorem addConfiguredDevice_validates_and_rejects qt classes plugins stored m
        deviceClassId params id :
  reachable qt (initial classes plugins stored) m →
  ∃ r m',
    addConfiguredDevice qt deviceClassId params id m = Some (r, m')
    ∧ (let deviceClass := findDeviceClass m deviceClassId in
       let verified := verifyParams qt (dc_paramTypes deviceClass) params true in
       dc_isValid deviceClass = true →
       testFlag (dc_createMethods deviceClass) CreateMethodUser = true →
       dc_setupMethod deviceClass = SetupMethodJustAdd →
       (verified.1 ≠ DeviceErrorNoError → r = verified.1)
       ∧ (verified.1 = DeviceErrorNoError → idInUse m id →
          r = DeviceErrorDuplicateUuid))
    ∧ (idInUse m id → r ≠ DeviceErrorNoError ∧ r ≠ DeviceErrorAsync)
    ∧ (r ≠ DeviceErrorNoError →
       m_configuredDevices m' = m_configuredDevices m ∧ settings m' = settings m).
Proof.
  intros Hreach.
  assert (live m) as Hlive by apply (reachable_consistent _ _ _ _ _ Hreach).
  unfold addConfiguredDevice. mrun.
  destruct (dc_isValid (findDeviceClass m deviceClassId)) eqn:Hvalid; cbn.
  2:{ eexists _, _. split; [done|]. repeat split; done. }
  destruct (testFlag _ CreateMethodUser) eqn:Huser.
  2:{ eexists _, _. split; [done|]. repeat split; done. }
  destruct (addConfiguredDeviceInternal_cases qt deviceClassId params id m Hlive)
    as (r & m' & -> & Hcases).
  exists r, m'. split; [done|].
  assert (uuid_isNull (dc_id (findDeviceClass m deviceClassId)) = false) as Hnull.
  { unfold dc_isValid in Hvalid. by destruct (uuid_isNull (dc_id _)). }
  rewrite Hnull in Hcases.
  pose proof (verifyParams_result qt
                (dc_paramTypes (findDeviceClass m deviceClassId)) params true) as Hres.
  case_bool_decide as Hjust.
  { destruct Hcases as [-> ->]. repeat split; done. }
  case_bool_decide as Hver.
  { destruct Hcases as [-> ->]. split; [|split]; [| |done].
    - intros _ _ _. split; [done|]. intros Heq. by destruct Hver.
    - intros _. split; [done|]. intros Heq. rewrite Heq in Hres.
      by destruct Hres as [|[|]]. }
  split; [|split].
  - intros _ _ _. split; [done|]. intros _ [device Hdev]. rewrite Hdev in Hcases.
    by destruct Hcases.
  - intros [device Hdev]. rewrite Hdev in Hcases. by destruct Hcases as [-> _].
  - destruct (findDeviceById _ _ _) as [[dup|]|]; [by destruct Hcases as [_ ->] |done..].
Qed.

(** ** Adding a discovered device *)

Lemma findDeviceClass_same m m' deviceClassId :
  sameOn m_supportedDevices m m' →
  findDeviceClass m' deviceClassId = findDeviceClass m deviceClassId.
Proof. unfold sameOn, findDeviceClass. by intros ->. Qed.

Lemma take_absent m descriptorId :
  m_discoveredDevices m !! descriptorId = None →
  set_discoveredDevices (delete descriptorId) m = m.
Proof. intros H. destruct m; cbn in *. by rewrite delete_id. Qed.

Lemma live_take m descriptorId :
  live m → live (set_discoveredDevices (delete descriptorId) m).
Proof. intros H device. cbn. apply H. Qed.

(** Once the pool has no entry for the id, the call answers
    DeviceDescriptorNotFound and changes nothing. *)
Lemma addDiscoveredDevice_absent qt m deviceClassId deviceDescriptorId deviceId :
  dc_isValid (findDeviceClass m deviceClassId) = true →
  testFlag (dc_createMethods (findDeviceClass m deviceClassId)) CreateMethodDiscovery
    = true →
  m_discoveredDevices m !! deviceDescriptorId = None →
  addDiscoveredDevice qt deviceClassId deviceDescriptorId deviceId m
  = Some (DeviceErrorDeviceDescriptorNotFound, m).
Proof.
  intros Hvalid Hdisc Habsent. unfold addDiscoveredDevice. mrun.
  rewrite Hvalid, Hdisc. mrun.
  unfold discoveredDevice. rewrite Habsent. cbn.
  fold (set_discoveredDevices (delete deviceDescriptorId) m).
  by rewrite take_absent.
Qed.

(** Past the two tests on the class, the entry is taken, then looked at. *)
Lemma addDiscoveredDevice_run qt m deviceClassId deviceDescriptorId deviceId :
  dc_isValid (findDeviceClass m deviceClassId) = true →
  testFlag (dc_createMethods (findDeviceClass m deviceClassId)) CreateMethodDiscovery
    = true →
  addDiscoveredDevice qt deviceClassId deviceDescriptorId deviceId m
  = (if negb (dd_isValid (discoveredDevice m deviceDescriptorId))
     then mret DeviceErrorDeviceDescriptorNotFound
     else addConfiguredDeviceInternal qt deviceClassId
            (dd_params (discoveredDevice m deviceDescriptorId)) deviceId)
      (set_discoveredDevices (delete deviceDescriptorId) m).
Proof.
  intros Hvalid Hdisc. unfold addDiscoveredDevice. rewrite bind_run. cbn [get].
  unfold get. rewrite Hvalid, Hdisc. cbn [negb]. by rewrite bind_run.
Qed.

(** In every state the manager reaches, when the device class is valid
    and supports creation by discovery,
    [addConfiguredDevice(deviceClassId, deviceDescriptorId, deviceId)]
    returns, whatever its answer, with no entry for the descriptor id left
    in the discovery pool, and every later call with that class and
    descriptor id answers DeviceDescriptorNotFound. *)
Lemma addDiscoveredDevice_takes_descriptor qt classes plugins stored m
        deviceClassId deviceDescriptorId deviceId :
  reachable qt (initial classes plugins stored) m →
  dc_isValid (findDeviceClass m deviceClassId) = true →
  testFlag (dc_createMethods (findDeviceClass m deviceClassId)) CreateMethodDiscovery
    = true →
  ∃ r m',
    addDiscoveredDevice qt deviceClassId deviceDescriptorId deviceId m = Some (r, m')
    ∧ m_discoveredDevices m' !! deviceDescriptorId = None
    ∧ ∀ deviceId',
        addDiscoveredDevice qt deviceClassId deviceDescriptorId deviceId' m'
        = Some (DeviceErrorDeviceDescriptorNotFound, m').
Proof.
  intros Hreach Hvalid Hdisc.
  assert (live m) as Hlive by apply (reachable_consistent _ _ _ _ _ Hreach).
  assert (∀ r m',
            addDiscoveredDevice qt deviceClassId deviceDescriptorId deviceId m
              = Some (r, m') →
            m_discoveredDevices m' !! deviceDescriptorId = None →
            sameOn m_supportedDevices m m' →
            m_discoveredDevices m' !! deviceDescriptorId = None
            ∧ ∀ deviceId',
                addDiscoveredDevice qt deviceClassId deviceDescriptorId deviceId' m'
                = Some (DeviceErrorDeviceDescriptorNotFound, m')) as Hafter.
  { intros r m' _ Hgone Hsame. split; [done|]. intros deviceId'.
    apply addDiscoveredDevice_absent; [| |done];
      by rewrite (findDeviceClass_same m m'). }
  pose proof (addDiscoveredDevice_run qt m deviceClassId deviceDescriptorId deviceId
                Hvalid Hdisc) as Hrun.
  destruct (dd_isValid _); cbn [negb] in Hrun.
  - destruct (addConfiguredDeviceInternal_cases qt deviceClassId
                (dd_params (discoveredDevice m deviceDescriptorId)) deviceId
                (set_discoveredDevices (delete deviceDescriptorId) m))
      as (r & m' & Hadd & _); [by apply live_take|].
    rewrite Hadd in Hrun. exists r, m'. split; [done|]. apply (Hafter r m' Hrun).
    + rewrite (addConfiguredDeviceInternal_discoveredDevices _ _ _ _ _ _ _ Hadd).
      apply lookup_delete_eq.
    + apply (addConfiguredDeviceInternal_supportedDevices _ _ _ _ _ _ _ Hadd).
  - eexists _, _. split; [done|]. apply (Hafter _ _ Hrun); [|done].
    apply lookup_delete_eq.
Qed.

(** C10 (as amended).  In every state the manager reaches,
    [addConfiguredDevice(deviceClassId, deviceDescriptorId, deviceId)]
    returns.  When the device class is valid and supports creation by
    discovery, it returns, whatever its answer, with no entry for the
    descriptor id left in the discovery pool, and every later call with
    that class and descriptor id answers DeviceDescriptorNotFound.  When
    the device class is not valid the answer is DeviceClassNotFound, when
    it is valid and does not support creation by discovery the answer is
    CreationMethodNotSupported, and in both cases nothing has changed: the
    pool is as it was. *)
Theorem addDiscoveredDevice_takes_descriptor_of_discovery_class
        qt classes plugins stored m deviceClassId deviceDescriptorId deviceId :
  reachable qt (initial classes plugins stored) m →
  ∃ r m',
    addDiscoveredDevice qt deviceClassId deviceDescriptorId deviceId m = Some (r, m')
    ∧ (dc_isValid (findDeviceClass m deviceClassId) = true →
       testFlag (dc_createMethods (findDeviceClass m deviceClassId))
                CreateMethodDiscovery = true →
       m_discoveredDevices m' !! deviceDescriptorId = None
       ∧ ∀ deviceId',
           addDiscoveredDevice qt deviceClassId deviceDescriptorId deviceId' m'
           = Some (DeviceErrorDeviceDescriptorNotFound, m'))
    ∧ (dc_isValid (findDeviceClass m deviceClassId) = false →
       r = DeviceErrorDeviceClassNotFound ∧ m' = m)
    ∧ (dc_isValid (findDeviceClass m deviceClassId) = true →
       testFlag (dc_createMethods (findDeviceClass m deviceClassId))
                CreateMethodDiscovery = false →
       r = DeviceErrorCreationMethodNotSupported ∧ m' = m).
Proof.
  intros Hreach.
  destruct (dc_isValid (findDeviceClass m deviceClassId)) eqn:Hvalid.
  - destruct (testFlag (dc_createMethods (findDeviceClass m deviceClassId))
                       CreateMethodDiscovery) eqn:Hdisc.
    + destruct (addDiscoveredDevice_takes_descriptor qt classes plugins stored m
                  deviceClassId deviceDescriptorId deviceId Hreach Hvalid Hdisc)
        as (r & m' & Hrun & Htaken).
      exists r, m'. split; [done|]. split; [done|]. by split.
    + exists DeviceErrorCreationMethodNotSupported, m. split; [|by repeat split].
      unfold addDiscoveredDevice. mrun. by rewrite Hvalid, Hdisc.
  - exists DeviceErrorDeviceClassNotFound, m. split; [|by repeat split].
    unfold addDiscoveredDevice. mrun. by rewrite Hvalid.
Qed.

(** ** State changes *)

(** The slot, run for a live device: it emits deviceStateChanged(device,
    stateTypeId, value) and then eventTriggered with an event whose type
    id is the stateTypeId, whose device id is the device's id, whose
    params are the single param ("value", value), and which is flagged as
    a state change event; it emits nothing else and changes nothing
    else. *)
Lemma slotDeviceStateValueChanged_emits m device d stateTypeId value :
  objects m !! device = Some d →
  slotDeviceStateValueChanged (Some device) stateTypeId value m
  = Some (tt, set_trace
                (λ t, t ++ [EmitDeviceStateChanged device stateTypeId value;
                            EmitEventTriggered
                              (mkEvent stateTypeId (dev_id d)
                                       [mkParam "value" value] true)]) m).
Proof.
  intros Hd. unfold slotDeviceStateValueChanged, readDevice. mrun.
  rewrite Hd. cbn. by rewrite <- app_assoc.
Qed.

(** A device connected once reaches the slot once. *)
Lemma Device_stateValueChanged_connected_once m device stateTypeId value :
  filter (λ c, c = device) (connections m) = [device] →
  Device_stateValueChanged device stateTypeId value m
  = (slotDeviceStateValueChanged (Some device) stateTypeId value;; mret tt) m.
Proof. intros H. unfold Device_stateValueChanged. rewrite bind_run. cbn [get]. unfold get. by rewrite H. Qed.

(** ** Pairing *)

Lemma pairDevice_NoError tx deviceClassId deviceDescriptorId m0 m :
  pairDevice tx deviceClassId deviceDescriptorId m0 = Some (DeviceErrorNoError, m) →
  m = set_pairingsDiscovery (<[tx := (deviceClassId, deviceDescriptorId)]>) m0
  ∧ is_Some (m_discoveredDevices m0 !! deviceDescriptorId).
Proof.
  unfold pairDevice. mrun.
  destruct (uuid_isNull _); [done|].
  case_bool_decide; [done|].
  case_bool_decide as Hpool; cbn; [|done].
  case_bool_decide; cbn; [done|]. by intros [= <-].
Qed.

Lemma confirmPairing_unknown m tx secret :
  m_pairingsJustAdd m !! tx = None →
  m_pairingsDiscovery m !! tx = None →
  confirmPairing tx secret m = Some (DeviceErrorPairingTransactionIdNotFound, m).
Proof. intros HJ HD. unfold confirmPairing. mrun. by rewrite HJ, HD. Qed.

(** What [confirmPairing] does with a transaction of the discovery table
    once the plugin has answered. *)
Lemma confirmPairing_discovery m tx deviceClassId deviceDescriptorId secret plugin :
  m_pairingsJustAdd m !! tx = None →
  m_pairingsDiscovery m !! tx = Some (deviceClassId, deviceDescriptorId) →
  m_devicePlugins m !! dc_pluginId (supportedDevice m deviceClassId) = Some plugin →
  let params := dd_params (discoveredDevice m deviceDescriptorId) in
  let called :=
    set_trace (λ t, t ++ [CallConfirmPairing (plugin_addr plugin) tx deviceClassId
                                             params]) m in
  confirmPairing tx secret m
  = match plugin_confirmPairing plugin tx deviceClassId params with
    | DeviceSetupStatusSuccess =>
        Some (DeviceErrorNoError, set_pairingsDiscovery (delete tx) called)
    | DeviceSetupStatusFailure =>
        Some (DeviceErrorSetupFailed, set_pairingsDiscovery (delete tx) called)
    | DeviceSetupStatusAsync => Some (DeviceErrorAsync, called)
    end.
Proof.
  intros HJ HD Hplugin. unfold confirmPairing. mrun. rewrite HJ, HD. cbn.
  rewrite Hplugin. mrun. by destruct (plugin_confirmPairing _ _ _ _).
Qed.

(** A pairingFinished signal that does not report Success, for a
    transaction of the discovery table. *)
Lemma slotPairingFinished_not_success m tx deviceClassId deviceDescriptorId status newId :
  m_pairingsJustAdd m !! tx = None →
  m_pairingsDiscovery m !! tx = Some (deviceClassId, deviceDescriptorId) →
  status ≠ DeviceSetupStatusSuccess →
  slotPairingFinished tx status newId m
  = Some (tt, set_trace
                (λ t, t ++ [EmitPairingFinished tx DeviceErrorSetupFailed 0%N])
                (set_discoveredDevices (delete deviceDescriptorId)
                   (set_pairingsDiscovery (delete tx) m))).
Proof.
  intros HJ HD Hstatus. unfold slotPairingFinished. mrun. rewrite HJ, HD. mrun.
  by rewrite bool_decide_true.
Qed.

(** A pairingFinished signal for a transaction the manager does not wait
    for is dropped. *)
Lemma slotPairingFinished_unknown m tx status newId :
  m_pairingsJustAdd m !! tx = None →
  m_pairingsDiscovery m !! tx = None →
  slotPairingFinished tx status newId m = Some (tt, m).
Proof. intros HJ HD. unfold slotPairingFinished. mrun. by rewrite HJ, HD. Qed.

(** C4 (as amended).  After a successful [pairDevice(tx, classId,
    descriptorId)] for a tx that is not in the just-add table: when the
    plugin answers Failure to [confirmPairing], the call returns
    SetupFailed and emits no notification; when it answers Async and then
    signals pairingFinished with Failure, pairingFinished(tx, SetupFailed)
    is emitted.  Either way no device is created, and every later
    [confirmPairing(tx, _)] returns PairingTransactionIdNotFound. *)
Theorem confirmPairing_failure_invalidates m0 m tx deviceClassId deviceDescriptorId
        secret plugin :
  m_pairingsJustAdd m0 !! tx = None →
  pairDevice tx deviceClassId deviceDescriptorId m0 = Some (DeviceErrorNoError, m) →
  m_devicePlugins m !! dc_pluginId (supportedDevice m deviceClassId) = Some plugin →
  let params := dd_params (discoveredDevice m deviceDescriptorId) in
  let call := CallConfirmPairing (plugin_addr plugin) tx deviceClassId params in
  (plugin_confirmPairing plugin tx deviceClassId params = DeviceSetupStatusFailure →
   ∃ m', confirmPairing tx secret m = Some (DeviceErrorSetupFailed, m')
         ∧ trace m' = trace m ++ [call]
         ∧ m_configuredDevices m' = m_configuredDevices m
         ∧ objects m' = objects m
         ∧ ∀ secret', confirmPairing tx secret' m'
                      = Some (DeviceErrorPairingTransactionIdNotFound, m'))
  ∧ (plugin_confirmPairing plugin tx deviceClassId params = DeviceSetupStatusAsync →
     ∃ m1, confirmPairing tx secret m = Some (DeviceErrorAsync, m1)
           ∧ ∀ newId, ∃ m',
               slotPairingFinished tx DeviceSetupStatusFailure newId m1 = Some (tt, m')
               ∧ trace m' = trace m ++ [call; EmitPairingFinished tx DeviceErrorSetupFailed 0%N]
               ∧ m_configuredDevices m' = m_configuredDevices m
               ∧ objects m' = objects m
               ∧ ∀ secret', confirmPairing tx secret' m'
                            = Some (DeviceErrorPairingTransactionIdNotFound, m')).
Proof.
  intros HJ0 [-> _]%pairDevice_NoError Hplugin params call.
  set (m := set_pairingsDiscovery _ m0) in *.
  assert (m_pairingsJustAdd m !! tx = None) as HJ by exact HJ0.
  assert (m_pairingsDiscovery m !! tx = Some (deviceClassId, deviceDescriptorId)) as HD
    by apply lookup_insert_eq.
  pose proof (confirmPairing_discovery m tx deviceClassId deviceDescriptorId secret
                plugin HJ HD Hplugin) as Hconfirm.
  cbn zeta in Hconfirm. fold params in Hconfirm. fold call in Hconfirm.
  split; intros Hanswer; rewrite Hanswer in Hconfirm.
  - eexists. split; [exact Hconfirm|]. repeat split.
    intros secret'. apply confirmPairing_unknown; [exact HJ0|]. cbn.
    apply lookup_delete_eq.
  - eexists. split; [exact Hconfirm|]. intros newId. eexists. split.
    + by apply (slotPairingFinished_not_success _ tx deviceClassId deviceDescriptorId).
    + cbn. rewrite <- app_assoc. repeat split.
      intros secret'. apply confirmPairing_unknown; [exact HJ0|]. cbn.
      apply lookup_delete_eq.
Qed.

(** ** The timer tick *)

Lemma set_trace_app m xs ys :
  set_trace (λ t, t ++ ys) (set_trace (λ t, t ++ xs) m)
  = set_trace (λ t, t ++ (xs ++ ys)) m.
Proof. destruct m; cbn. by rewrite <- app_assoc. Qed.

Lemma set_trace_nil m : set_trace (λ t, t ++ []) m = m.
Proof. destruct m; cbn. by rewrite app_nil_r. Qed.

Lemma timerEvent_loop_calls devices m :
  (∀ device, device ∈ devices → is_Some (objects m !! device)) →
  timerEvent_loop devices m
  = Some (tt, set_trace (λ t, t ++ concat (guhTimerCalls m <$> devices)) m).
Proof.
  revert m. induction devices as [|x xs IH]; intros m Hlive; cbn [timerEvent_loop].
  - rewrite ret_run. cbn [fmap list_fmap concat]. by rewrite set_trace_nil.
  - destruct (Hlive x) as [d Hd]; [left|].
    assert (∀ y, y ∈ xs → is_Some (objects m !! y)) as Hrest.
    { intros y Hy. apply Hlive. by right. }
    unfold readDevice. rewrite bind_run, Hd. cbv beta iota.
    rewrite bind_run. unfold get. cbv beta iota. rewrite bind_run.
    cbn [fmap list_fmap concat]. unfold guhTimerCalls at 1. rewrite Hd.
    destruct (m_devicePlugins m !! _) as [plugin|] eqn:Hplugin.
    + destruct (testFlag _ _) eqn:Hflag.
      * unfold emit, modify. cbv beta iota.
        rewrite (IH (set_trace _ m) Hrest). by rewrite set_trace_app.
      * rewrite ret_run. by rewrite (IH _ Hrest).
    + rewrite ret_run. by rewrite (IH _ Hrest).
Qed.

(** [timerEvent] calls guhTimer once for every configured device whose
    plugin needs the timer, in the order of the configured devices. *)
Lemma timerEvent_calls m :
  live m →
  timerEvent m
  = Some (tt, set_trace
                (λ t, t ++ concat (guhTimerCalls m <$> m_configuredDevices m)) m).
Proof.
  intros Hlive. unfold timerEvent. rewrite bind_run. cbn [get]. unfold get.
  by apply timerEvent_loop_calls.
Qed.

(** C7.  With two configured devices of one plugin that needs the timer,
    one [timerEvent] calls guhTimer on that plugin twice. *)
Theorem timerEvent_calls_plugin_once_per_device :
  match exec sampleOps [AddConfiguredDevice 21 [] 100; AddConfiguredDevice 21 [] 101]
             sample0 with
  | Some m =>
      m_configuredDevices m = [0; 1]
      ∧ (dev_pluginId <$> objects m !! 0) = Some 11%N
      ∧ (dev_pluginId <$> objects m !! 1) = Some 11%N
      ∧ newEffects timerEvent m = Some [CallGuhTimer 1; CallGuhTimer 1]
  | None => False
  end.
Proof. vm_compute. repeat split; reflexivity. Qed.

(** ** 433 MHz frames *)

Lemma containsPlugin_addr targets plugin :
  containsPlugin targets plugin = true ↔ plugin_addr plugin ∈ plugin_addr <$> targets.
Proof.
  unfold containsPlugin, samePlugin. induction targets as [|q qs IH]; cbn.
  - split; [done | by intros ?%elem_of_nil].
  - rewrite elem_of_cons, <- IH. destruct (Nat.eqb_spec (plugin_addr plugin) (plugin_addr q)).
    + cbn. tauto.
    + cbn. tauto.
Qed.

Lemma addTarget_elem plugin targets a :
  a ∈ plugin_addr <$> addTarget plugin targets
  ↔ a ∈ plugin_addr <$> targets
    ∨ (plugin_addr plugin = a ∧ requiresRadio433 plugin = true).
Proof.
  unfold addTarget, requiresRadio433.
  destruct (testFlag _ _); cbn.
  2:{ split; [by left | by intros [? | [_ ?]]]. }
  destruct (containsPlugin targets plugin) eqn:Hin; cbn.
  - apply containsPlugin_addr in Hin. split; [by left|].
    intros [? | [<- _]]; done.
  - rewrite fmap_app, elem_of_app. cbn. rewrite list_elem_of_singleton.
    split; [intros [? | ->]; auto | intros [? | [<- _]]; auto].
Qed.

Lemma addTarget_NoDup plugin targets :
  NoDup (plugin_addr <$> targets) → NoDup (plugin_addr <$> addTarget plugin targets).
Proof.
  intros Hnd. unfold addTarget. destruct (testFlag _ _); cbn; [|done].
  destruct (containsPlugin targets plugin) eqn:Hin; cbn; [done|].
  rewrite fmap_app. apply NoDup_app. split; [done|]. split.
  - intros a Ha ->%list_elem_of_singleton.
    apply containsPlugin_addr in Ha. congruence.
  - cbn. apply NoDup_singleton.
Qed.

Lemma radioTargets_devices_spec m devices targets result :
  radioTargets_devices m devices targets = Some result →
  (NoDup (plugin_addr <$> targets) → NoDup (plugin_addr <$> result))
  ∧ (∀ a, a ∈ plugin_addr <$> result
          ↔ a ∈ plugin_addr <$> targets ∨ ownsRadioDevice m devices a)
  ∧ (∀ device, device ∈ devices → ∃ d,
        objects m !! device = Some d
        ∧ is_Some (m_devicePlugins m
                     !! dc_pluginId (supportedDevice m (dev_deviceClassId d)))).
Proof.
  revert targets. induction devices as [|x xs IH]; intros targets; cbn.
  - intros [= <-]. split; [done|]. split.
    + intros a. split; [auto|]. intros [H|(? & ? & ? & []%elem_of_nil & _)]; done.
    + by intros ? ?%elem_of_nil.
  - destruct (objects m !! x) as [d|] eqn:Hd; cbn; [|done].
    destruct (m_devicePlugins m
                !! dc_pluginId (supportedDevice m (dev_deviceClassId d)))
      as [plugin|] eqn:Hplugin; cbn; [|done].
    intros (Hnd & Helem & Hres)%IH. split; [|split].
    + intros H. by apply Hnd, addTarget_NoDup.
    + intros a. rewrite Helem, addTarget_elem. split.
      * intros [[H | [Ha Hflag]] | (device & d' & p & Hin & ?)].
        -- by left.
        -- right. exists x, d, plugin. split; [left|done].
        -- right. exists device, d', p. split; [by right | done].
      * intros [H | (device & d' & p & [-> | Hin]%elem_of_cons & Hd' & Hp & Ha & Hflag)].
        -- by left; left.
        -- left; right. rewrite Hd in Hd'. injection Hd' as <-.
           rewrite Hplugin in Hp. by injection Hp as <-.
        -- right. by exists device, d', p.
    + intros device [-> | Hin]%elem_of_cons; [|by apply Hres].
      exists d. by rewrite Hplugin.
Qed.

Lemma radioTargets_devices_total m devices targets :
  (∀ device, device ∈ devices → ∃ d,
      objects m !! device = Some d
      ∧ is_Some (m_devicePlugins m
                   !! dc_pluginId (supportedDevice m (dev_deviceClassId d)))) →
  is_Some (radioTargets_devices m devices targets).
Proof.
  revert targets. induction devices as [|x xs IH]; intros targets Hres; cbn; [done|].
  destruct (Hres x) as (d & Hd & [plugin Hplugin]); [left|].
  rewrite Hd. cbn. rewrite Hplugin. cbn.
  apply IH. intros y Hy. apply Hres. by right.
Qed.

Lemma radioTargets_discovering_spec plugins targets :
  (NoDup (plugin_addr <$> targets) →
   NoDup (plugin_addr <$> radioTargets_discovering plugins targets))
  ∧ (∀ a, a ∈ plugin_addr <$> radioTargets_discovering plugins targets
          ↔ a ∈ plugin_addr <$> targets ∨ discoversWithRadio plugins a).
Proof.
  unfold radioTargets_discovering. revert targets.
  induction plugins as [|p ps IH]; intros targets; cbn.
  - split; [done|]. intros a. split; [auto|].
    intros [H | (? & []%elem_of_nil & _)]; done.
  - destruct (IH (addTarget p targets)) as [Hnd Helem]. split.
    + intros H. by apply Hnd, addTarget_NoDup.
    + intros a. rewrite Helem, addTarget_elem. split.
      * intros [[H | [Ha Hflag]] | (q & Hin & ?)].
        -- by left.
        -- right. exists p. split; [left | done].
        -- right. exists q. split; [by right | done].
      * intros [H | (q & [-> | Hin]%elem_of_cons & Ha & Hflag)].
        -- by left; left.
        -- by left; right.
        -- right. by exists q.
Qed.

Lemma radioDeliver_trace targets rawData m :
  radioDeliver targets rawData m
  = Some (tt, set_trace
                (λ t, t ++ ((λ plugin, CallRadioData (plugin_addr plugin) rawData)
                              <$> targets)) m).
Proof.
  revert m. induction targets as [|p ps IH]; intros m; cbn [radioDeliver].
  - rewrite ret_run. cbn [fmap list_fmap]. by rewrite set_trace_nil.
  - rewrite bind_run. unfold emit, modify. cbv beta iota.
    by rewrite IH, set_trace_app.
Qed.

(** X30.  The fan-out of a 433 MHz frame when every configured device
    resolves to a loaded plugin: radioData goes, once each, to the plugins
    that need the radio and own a configured device or run a discovery,
    and to no other plugin. *)
Lemma radio433SignalReceived_fanout m rawData :
  (∀ device, device ∈ m_configuredDevices m → ∃ d,
      objects m !! device = Some d
      ∧ is_Some (m_devicePlugins m
                   !! dc_pluginId (supportedDevice m (dev_deviceClassId d)))) →
  ∃ targets,
    radio433SignalReceived rawData m
    = Some (tt, set_trace
                  (λ t, t ++ ((λ plugin, CallRadioData (plugin_addr plugin) rawData)
                                <$> targets)) m)
    ∧ NoDup (plugin_addr <$> targets)
    ∧ ∀ a, a ∈ plugin_addr <$> targets
           ↔ ownsRadioDevice m (m_configuredDevices m) a
             ∨ discoversWithRadio (m_discoveringPlugins m) a.
Proof.
  intros Hres.
  destruct (radioTargets_devices_total m (m_configuredDevices m) [] Hres)
    as [owners Howners].
  destruct (radioTargets_devices_spec _ _ _ _ Howners) as (Hnd1 & Helem1 & _).
  destruct (radioTargets_discovering_spec (m_discoveringPlugins m) owners)
    as [Hnd2 Helem2].
  exists (radioTargets_discovering (m_discoveringPlugins m) owners).
  split; [|split].
  - unfold radio433SignalReceived, radioTargets. rewrite bind_run. cbn [get]. unfold get.
    rewrite Howners. cbn. apply radioDeliver_trace.
  - apply Hnd2, Hnd1. cbn. apply NoDup_nil_2.
  - intros a. rewrite Helem2, Helem1. cbn. rewrite elem_of_nil. tauto.
Qed.

(** A configured device whose class resolves to no loaded plugin stops
    [radio433SignalReceived]: the null plugin pointer is used. *)
Lemma radio433SignalReceived_null_plugin m rawData device d :
  device ∈ m_configuredDevices m →
  objects m !! device = Some d →
  m_devicePlugins m !! dc_pluginId (supportedDevice m (dev_deviceClassId d)) = None →
  radio433SignalReceived rawData m = None.
Proof.
  intros Hin Hd Hnone.
  unfold radio433SignalReceived, radioTargets. rewrite bind_run. cbn [get]. unfold get.
  destruct (radioTargets_devices m (m_configuredDevices m) []) as [owners|] eqn:Howners;
    [|done].
  destruct (radioTargets_devices_spec _ _ _ _ Howners) as (_ & _ & Hres).
  destruct (Hres device Hin) as (d' & Hd' & [plugin Hplugin]).
  rewrite Hd in Hd'. injection Hd' as <-. congruence.
Qed.

(** * Further properties of the manager *)

(** ** The laws of the validator *)

Section ValidatorLaws.
Variable qt : QVariantOps.

Lemma verifyEach_NoError paramTypes params :
  verifyEach qt paramTypes params = DeviceErrorNoError
  ↔ ∀ p, p ∈ params → verifyParamIn qt paramTypes p = DeviceErrorNoError.
Proof.
  induction params as [|q qs IH]; cbn.
  - split; [by intros _ ? ?%elem_of_nil | done].
  - destruct (verifyParamIn_result qt paramTypes q) as [E | E]; rewrite E.
    + rewrite IH. split.
      * intros H p [-> | Hp]%elem_of_cons; auto.
      * intros H p Hp. apply H. by right.
    + split; [done|]. intros H. specialize (H q). rewrite E in H.
      assert (DeviceErrorInvalidParameter = DeviceErrorNoError) as [=]. apply H. left.
Qed.

Lemma verifyParamIn_undeclared paramTypes p :
  (∀ pt, pt ∈ paramTypes → pt_name pt ≠ param_name p) →
  verifyParamIn qt paramTypes p = DeviceErrorInvalidParameter.
Proof.
  induction paramTypes as [|pt pts IH]; cbn; [done|]. intros H.
  destruct (String.eqb_spec (pt_name pt) (param_name p)) as [E|_].
  - destruct (H pt); [left | done].
  - apply IH. intros q Hq. apply H. by right.
Qed.

Lemma defaultParams_cons_default pt pts :
  variant_isNull (pt_defaultValue pt) = false →
  defaultParams (pt :: pts)
  = mkParam (pt_name pt) (pt_defaultValue pt) :: defaultParams pts.
Proof. intros H. unfold defaultParams. by rewrite filter_cons, decide_True. Qed.

Lemma defaultParams_cons_null pt pts :
  variant_isNull (pt_defaultValue pt) = true →
  defaultParams (pt :: pts) = defaultParams pts.
Proof.
  intros H. unfold defaultParams. rewrite filter_cons, decide_False; [done|].
  by rewrite H.
Qed.

(** The second loop appends the defaults of the ParamTypes it got through. *)
Lemma fillRequired_defaults paramTypes params :
  ∃ n, (fillRequired paramTypes params).2 = params ++ defaultParams (take n paramTypes)
       ∧ ((fillRequired paramTypes params).1 = DeviceErrorNoError →
          (fillRequired paramTypes params).2 = params ++ defaultParams paramTypes).
Proof.
  revert params. induction paramTypes as [|pt pts IH]; intros ps; cbn [fillRequired].
  - exists 0. cbn. by rewrite app_nil_r.
  - destruct (variant_isNull (pt_defaultValue pt)) eqn:Hnull; cbn [negb fst snd].
    + destruct (paramFound pt ps); cbn [negb fst snd].
      * destruct (IH ps) as (n & Hn & Hall). exists (S n). cbn [take].
        rewrite !defaultParams_cons_null by done. done.
      * exists 0. cbn. by rewrite app_nil_r.
    + destruct (IH (ps ++ [mkParam (pt_name pt) (pt_defaultValue pt)]))
        as (n & Hn & Hall).
      exists (S n). cbn [take]. rewrite !defaultParams_cons_default by done.
      split; [rewrite Hn; by rewrite <- app_assoc|].
      intros Hok. rewrite (Hall Hok). by rewrite <- app_assoc.
Qed.

(** X1.  [verifyParams] answers NoError, InvalidParameter or
    MissingParameter and nothing else.  When it answers InvalidParameter
    the caller's param list is as it was.  Without requireAll it never
    answers MissingParameter and never touches the list. *)
Theorem verifyParams_answers paramTypes params requireAll :
  ((verifyParams qt paramTypes params requireAll).1 = DeviceErrorNoError
   ∨ (verifyParams qt paramTypes params requireAll).1 = DeviceErrorInvalidParameter
   ∨ (verifyParams qt paramTypes params requireAll).1 = DeviceErrorMissingParameter)
  ∧ ((verifyParams qt paramTypes params requireAll).1 = DeviceErrorInvalidParameter →
     (verifyParams qt paramTypes params requireAll).2 = params)
  ∧ (requireAll = false →
     (verifyParams qt paramTypes params requireAll).1 ≠ DeviceErrorMissingParameter
     ∧ (verifyParams qt paramTypes params requireAll).2 = params).
Proof.
  unfold verifyParams.
  destruct (verifyEach_result qt paramTypes params) as [-> | ->]; cbn [fst snd].
  2:{ split; [auto|]. split; [done|]. by intros _. }
  destruct requireAll; cbn [negb fst snd].
  2:{ split; [auto|]. split; [done|]. by intros _. }
  destruct (fillRequired_result paramTypes params) as [E | E]; rewrite E.
  - split; [auto|]. split; [done|]. done.
  - split; [auto|]. split; [done|]. done.
Qed.

(** X2.  [verifyParams] only appends to the caller's param list, and what
    it appends are the defaults of a prefix of the schema, in the order of
    the schema.  When it answers NoError with requireAll, the list is the
    caller's params followed by the default of every ParamType that
    declares one. *)
Theorem verifyParams_appends_the_defaults paramTypes params requireAll :
  (∃ n, (verifyParams qt paramTypes params requireAll).2
        = params ++ defaultParams (take n paramTypes))
  ∧ ((verifyParams qt paramTypes params true).1 = DeviceErrorNoError →
     (verifyParams qt paramTypes params true).2 = params ++ defaultParams paramTypes).
Proof.
  unfold verifyParams.
  destruct (verifyEach qt paramTypes params) eqn:Heach; cbn [fst snd negb];
    try (split; [exists 0; by rewrite app_nil_r | done]).
  destruct (fillRequired_defaults paramTypes params) as (n & Hn & Hall).
  split; [|exact Hall].
  destruct requireAll; cbn [negb]; [by exists n|].
  exists 0. by rewrite app_nil_r.
Qed.

(** X3.  When [verifyParams] with requireAll answers NoError, the list it
    leaves has at least one param for every ParamType of the schema, holds
    only params of declared names, and every param the caller gave passes
    [verifyParam] against the first ParamType of its name. *)
Theorem verifyParams_accepted_list paramTypes params effective :
  verifyParams qt paramTypes params true = (DeviceErrorNoError, effective) →
  (∀ pt, pt ∈ paramTypes → 0 < countName (pt_name pt) effective)
  ∧ (∀ p, p ∈ effective → ∃ pt, pt ∈ paramTypes ∧ pt_name pt = param_name p)
  ∧ (∀ p, p ∈ params → verifyParamIn qt paramTypes p = DeviceErrorNoError).
Proof.
  intros Hrun. destruct (verifyParams_complete qt _ _ _ Hrun) as [Hall Hdecl].
  split; [done|]. split; [done|].
  apply verifyEach_NoError. revert Hrun. unfold verifyParams.
  destruct (verifyEach qt paramTypes params); by intros [=].
Qed.

(** X4.  A param whose name no ParamType of the schema declares makes
    [verifyParams] answer InvalidParameter, with or without requireAll,
    and the list is left as it was. *)
Theorem verifyParams_rejects_undeclared_name paramTypes params requireAll p :
  p ∈ params →
  (∀ pt, pt ∈ paramTypes → pt_name pt ≠ param_name p) →
  verifyParams qt paramTypes params requireAll = (DeviceErrorInvalidParameter, params).
Proof.
  intros Hp Hundeclared. unfold verifyParams.
  destruct (verifyEach_result qt paramTypes params) as [E | E]; rewrite E; [|done].
  rewrite verifyEach_NoError in E. specialize (E p Hp).
  by rewrite verifyParamIn_undeclared in E.
Qed.

Lemma fillRequired_missing paramTypes params pt :
  pt ∈ paramTypes →
  (∀ q, q ∈ paramTypes → pt_name q = pt_name pt →
        variant_isNull (pt_defaultValue q) = true) →
  countName (pt_name pt) params = 0 →
  (fillRequired paramTypes params).1 = DeviceErrorMissingParameter.
Proof.
  revert params. induction paramTypes as [|q qs IH]; intros ps Hin Hnodef Hcount;
    [by apply elem_of_nil in Hin|].
  cbn. destruct (variant_isNull (pt_defaultValue q)) eqn:Hnull; cbn.
  - destruct (paramFound q ps) eqn:Hfound; cbn; [|done].
    apply elem_of_cons in Hin as [-> | Hin].
    + apply paramFound_countName in Hfound. lia.
    + apply IH; [done| |done]. intros r Hr. apply Hnodef. by right.
  - apply elem_of_cons in Hin as [-> | Hin].
    + rewrite Hnodef in Hnull; [done | left | done].
    + apply IH; [done| |].
      * intros r Hr. apply Hnodef. by right.
      * rewrite countName_app, Hcount. unfold countName.
        rewrite filter_cons, decide_False; [done|]. cbn. intros E.
        rewrite Hnodef in Hnull; [done | left | done].
Qed.

(** X5.  When every param the caller gave is valid, and the schema has a
    ParamType for which the caller gave no param and which has no default
    under its name, [verifyParams] with requireAll answers
    MissingParameter. *)
Theorem verifyParams_reports_missing paramTypes params pt :
  (∀ p, p ∈ params → verifyParamIn qt paramTypes p = DeviceErrorNoError) →
  pt ∈ paramTypes →
  (∀ q, q ∈ paramTypes → pt_name q = pt_name pt →
        variant_isNull (pt_defaultValue q) = true) →
  countName (pt_name pt) params = 0 →
  (verifyParams qt paramTypes params true).1 = DeviceErrorMissingParameter.
Proof.
  intros Hvalid Hin Hnodef Hcount. unfold verifyParams.
  apply verifyEach_NoError in Hvalid. rewrite Hvalid. cbn [negb].
  by apply (fillRequired_missing _ _ pt).
Qed.
End ValidatorLaws.

(** ** Looking things up *)

(** X6.  [findDeviceClass] returns a class of the catalog that carries the
    id asked for, or, when no class of the catalog carries it, the
    default-constructed class.  On a catalog that is keyed by the ids of
    its classes it returns what [m_supportedDevices.value] returns. *)
Theorem findDeviceClass_lookup m deviceClassId :
  ((dc_id (findDeviceClass m deviceClassId) = deviceClassId
    ∧ ∃ key, m_supportedDevices m !! key = Some (findDeviceClass m deviceClassId))
   ∨ (findDeviceClass m deviceClassId = DeviceClass_default
      ∧ ∀ key deviceClass, m_supportedDevices m !! key = Some deviceClass →
                           dc_id deviceClass ≠ deviceClassId))
  ∧ (keyedById (m_supportedDevices m) →
     findDeviceClass m deviceClassId = supportedDevice m deviceClassId).
Proof.
  unfold findDeviceClass, supportedDevice.
  destruct (list_find _ _) as [[i [key deviceClass]]|] eqn:Hfind.
  - apply list_find_Some in Hfind as (Hi & Hid & _). cbn in Hid.
    apply list_elem_of_lookup_2, elem_of_map_to_list in Hi. split.
    + left. split; [done | by exists key].
    + intros Hkeyed. specialize (Hkeyed _ _ Hi). subst. by rewrite Hi.
  - apply list_find_None in Hfind. rewrite Forall_forall in Hfind. split.
    + right. split; [done|]. intros key deviceClass Hin.
      by apply (Hfind (key, deviceClass)), elem_of_map_to_list.
    + intros Hkeyed.
      destruct (m_supportedDevices m !! deviceClassId) as [deviceClass|] eqn:Hin;
        [|done].
      destruct (Hfind (deviceClassId, deviceClass));
        [by apply elem_of_map_to_list | by apply Hkeyed in Hin].
Qed.

(** X7.  Once the plugins are loaded, nothing the manager is asked to do
    and nothing it is signalled changes the catalog of device classes or
    the table of plugins. *)
Theorem reachable_catalogs_fixed qt classes plugins stored m :
  reachable qt (initial classes plugins stored) m →
  m_supportedDevices m = classes ∧ m_devicePlugins m = plugins.
Proof.
  induction 1 as [|m c m' _ [IHc IHp] Hrun]; [done|].
  rewrite (run_supportedDevices _ _ _ _ _ Hrun), (run_devicePlugins _ _ _ _ _ Hrun).
  done.
Qed.

Lemma findDeviceById_first objs devices id :
  (∀ device, device ∈ devices → is_Some (objs !! device)) →
  ∃ found, findDeviceById objs devices id = Some found
    ∧ match found with
      | Some device =>
          ∃ before after d,
            devices = before ++ device :: after
            ∧ objs !! device = Some d ∧ dev_id d = id
            ∧ ∀ x dx, x ∈ before → objs !! x = Some dx → dev_id dx ≠ id
      | None => ∀ x dx, x ∈ devices → objs !! x = Some dx → dev_id dx ≠ id
      end.
Proof.
  induction devices as [|y ys IH]; intros Hlive; cbn.
  - exists None. split; [done|]. by intros x dx ?%elem_of_nil.
  - destruct (Hlive y) as [d Hd]; [left|]. rewrite Hd.
    destruct (N.eqb_spec (dev_id d) id) as [Hid|Hid].
    + exists (Some y). split; [done|]. exists [], ys, d.
      repeat split; try done. by intros x dx ?%elem_of_nil.
    + destruct IH as (found & -> & Hfound); [intros x Hx; apply Hlive; by right|].
      exists found. split; [done|]. destruct found as [device|].
      * destruct Hfound as (before & after & d' & -> & Hd' & Hid' & Hbefore).
        exists (y :: before), after, d'. repeat split; try done.
        intros x dx [-> | Hx]%elem_of_cons Hdx; [congruence|by eapply Hbefore].
      * intros x dx [-> | Hx]%elem_of_cons Hdx; [congruence|by eapply Hfound].
Qed.

(** X8.  When every configured device is a live object,
    [findConfiguredDevice] returns without changing anything: the first
    configured device that carries the id, or null when no configured
    device carries it. *)
Theorem findConfiguredDevice_first_match m id :
  live m →
  ∃ found,
    findConfiguredDevice id m = Some (found, m)
    ∧ match found with
      | Some device =>
          ∃ before after d,
            m_configuredDevices m = before ++ device :: after
            ∧ objects m !! device = Some d ∧ dev_id d = id
            ∧ ∀ x dx, x ∈ before → objects m !! x = Some dx → dev_id dx ≠ id
      | None => idUnused m id
      end.
Proof.
  intros Hlive. unfold findConfiguredDevice.
  destruct (findDeviceById_first (objects m) (m_configuredDevices m) id Hlive)
    as (found & -> & Hfound).
  by exists found.
Qed.

Lemma findDevicesByClass_spec objs devices deviceClassId :
  (∀ device, device ∈ devices → is_Some (objs !! device)) →
  ∃ ret,
    findDevicesByClass objs devices deviceClassId = Some ret
    ∧ ret `sublist_of` devices
    ∧ ∀ device, device ∈ ret
                ↔ device ∈ devices
                  ∧ ∃ d, objs !! device = Some d ∧ dev_deviceClassId d = deviceClassId.
Proof.
  induction devices as [|x xs IH]; intros Hlive; cbn.
  - exists []. split; [done|]. split; [done|]. intros device. split.
    + by intros ?%elem_of_nil.
    + by intros [?%elem_of_nil _].
  - destruct (Hlive x) as [d Hd]; [left|]. rewrite Hd. cbn.
    destruct IH as (ret & -> & Hsub & Helem); [intros y Hy; apply Hlive; by right|].
    cbn. eexists. split; [done|].
    destruct (N.eqb_spec (dev_deviceClassId d) deviceClassId) as [Hc|Hc].
    + split; [by apply sublist_skip|]. intros device.
      rewrite !elem_of_cons, Helem. split.
      * intros [-> | [Hin Hd']]; [split; [by left | by exists d] | split; [by right | done]].
      * intros [[-> | Hin] Hd']; [by left | right; done].
    + split; [by apply sublist_cons|]. intros device.
      rewrite elem_of_cons, Helem. split.
      * intros [Hin Hd']. split; [by right | done].
      * intros [[-> | Hin] (d' & Hd' & Hc')]; [congruence | split; [done | by exists d']].
Qed.

(** X9.  When every configured device is a live object,
    [findConfiguredDevices] returns exactly the configured devices of the
    device class asked for, in the order of the configured devices. *)
Theorem findConfiguredDevices_of_class m deviceClassId :
  live m →
  ∃ ret,
    findConfiguredDevices deviceClassId m = Some ret
    ∧ ret `sublist_of` m_configuredDevices m
    ∧ ∀ device, device ∈ ret
                ↔ device ∈ m_configuredDevices m
                  ∧ ∃ d, objects m !! device = Some d
                         ∧ dev_deviceClassId d = deviceClassId.
Proof. intros Hlive. by apply findDevicesByClass_spec. Qed.

(** ** Removing a device *)

(** X10.  When every configured device is a live object and none of them
    carries the id, [removeConfiguredDevice] answers DeviceNotFound and
    changes nothing. *)
Theorem removeConfiguredDevice_unknown_id m deviceId :
  live m →
  idUnused m deviceId →
  removeConfiguredDevice deviceId m = Some (DeviceErrorDeviceNotFound, m).
Proof.
  intros Hlive Hunused. unfold removeConfiguredDevice, findConfiguredDevice.
  destruct (findDeviceById_first (objects m) (m_configuredDevices m) deviceId Hlive)
    as ([device|] & Hrun & Hfound); rewrite bind_run, Hrun; [|done].
  destruct Hfound as (before & after & d & Hlist & Hd & Hid & _).
  destruct (Hunused device d); [|done..].
  rewrite Hlist. apply elem_of_app. right. left.
Qed.

(** X11.  When [findConfiguredDevice] finds the device: if the plugin the
    device names is loaded, [removeConfiguredDevice] answers NoError, the
    device is gone from the configured devices, from the timer users and
    from the connections, its object is deleted, its group of the settings
    is removed, and the only effect is one call of deviceRemoved on that
    plugin; if the plugin is not loaded, the method stops at the null
    plugin pointer. *)
Theorem removeConfiguredDevice_found m deviceId device d :
  findConfiguredDevice deviceId m = Some (Some device, m) →
  objects m !! device = Some d →
  match m_devicePlugins m !! dev_pluginId d with
  | Some plugin =>
      ∃ m',
        removeConfiguredDevice deviceId m = Some (DeviceErrorNoError, m')
        ∧ m_configuredDevices m' = removeAllDevice device (m_configuredDevices m)
        ∧ m_pluginTimerUsers m' = removeAllDevice device (m_pluginTimerUsers m)
        ∧ connections m' = removeAllDevice device (connections m)
        ∧ objects m' = delete device (objects m)
        ∧ settings m' = delete deviceId (settings m)
        ∧ trace m' = trace m ++ [CallDeviceRemoved (plugin_addr plugin) device]
  | None => removeConfiguredDevice deviceId m = None
  end.
Proof.
  intros Hfind Hd.
  destruct (m_devicePlugins m !! dev_pluginId d) as [plugin|] eqn:Hplugin.
  - unfold removeConfiguredDevice. rewrite bind_run, Hfind.
    unfold readDevice. mrun. rewrite Hd. mrun. rewrite Hplugin.
    unfold unregisterTimerUser, deleteDevice. mrun.
    case_bool_decide; cbn; eexists; (split; [reflexivity|]); cbn; done.
  - unfold removeConfiguredDevice. rewrite bind_run, Hfind.
    unfold readDevice. mrun. rewrite Hd. mrun. by rewrite Hplugin.
Qed.

(** ** Discovery *)

Lemma removeOnePlugin_cons p q rest :
  removeOnePlugin p (q :: rest)
  = if samePlugin p q then rest else q :: removeOnePlugin p rest.
Proof. reflexivity. Qed.

Lemma removeOnePlugin_appended p plugins :
  plugin_addr <$> removeOnePlugin p (plugins ++ [p]) ≡ₚ plugin_addr <$> plugins.
Proof.
  induction plugins as [|q qs IH].
  - cbn [app]. rewrite removeOnePlugin_cons. unfold samePlugin.
    by rewrite Nat.eqb_refl.
  - rewrite <- app_comm_cons, removeOnePlugin_cons. unfold samePlugin.
    destruct (Nat.eqb_spec (plugin_addr p) (plugin_addr q)) as [E|_].
    + rewrite fmap_app, fmap_cons. cbn [fmap list_fmap]. rewrite E.
      by rewrite Permutation_app_comm.
    + rewrite !fmap_cons. by rewrite IH.
Qed.

(** X12.  [discoverDevices] always returns.  It calls discoverDevices on
    the plugin of the class at most once, and only when the class is valid
    and discoverable, the discovery params pass [verifyParams] with
    requireAll and the plugin is loaded; the call gets the verified params
    and the plugin's answer is what the method returns.  When the answer
    is Async the plugin is appended to the discovering plugins; with any
    other answer every plugin has as many entries among the discovering
    plugins as before. *)
Theorem discoverDevices_bookkeeping qt deviceClassId params m :
  let deviceClass := findDeviceClass m deviceClassId in
  ∃ r m',
    discoverDevices qt deviceClassId params m = Some (r, m')
    ∧ (trace m' = trace m
       ∨ ∃ plugin effective,
           dc_isValid deviceClass = true
           ∧ testFlag (dc_createMethods deviceClass) CreateMethodDiscovery = true
           ∧ verifyParams qt (dc_discoveryParamTypes deviceClass) params true
             = (DeviceErrorNoError, effective)
           ∧ m_devicePlugins m !! dc_pluginId deviceClass = Some plugin
           ∧ r = plugin_discoverDevices plugin deviceClassId effective
           ∧ trace m' = trace m ++ [CallDiscoverDevices (plugin_addr plugin)
                                                        deviceClassId effective])
    ∧ (r = DeviceErrorAsync →
       ∃ plugin,
         m_devicePlugins m !! dc_pluginId deviceClass = Some plugin
         ∧ m_discoveringPlugins m' = m_discoveringPlugins m ++ [plugin])
    ∧ (r ≠ DeviceErrorAsync →
       plugin_addr <$> m_discoveringPlugins m' ≡ₚ plugin_addr <$> m_discoveringPlugins m).
Proof.
  intros deviceClass. unfold discoverDevices, requireAll_default. mrun.
  fold deviceClass.
  destruct (dc_isValid deviceClass); cbn [negb].
  2:{ eexists _, _. split; [done|]. split; [by left|]. split; done. }
  destruct (testFlag _ _); cbn [negb].
  2:{ eexists _, _. split; [done|]. split; [by left|]. split; done. }
  pose proof (verifyParams_result qt (dc_discoveryParamTypes deviceClass) params true)
    as Hres.
  destruct (verifyParams _ _ _ _) as [result effective]. cbn [fst] in Hres.
  case_bool_decide as Hresult.
  { eexists _, _. split; [done|]. split; [by left|]. split; [|done].
    intros ->. by destruct Hres as [|[|]]. }
  subst result.
  destruct (m_devicePlugins m !! dc_pluginId deviceClass) as [plugin|].
  2:{ eexists _, _. split; [done|]. split; [by left|]. split; done. }
  mrun. case_bool_decide as Hret; mrun.
  - eexists _, _. split; [done|]. cbn. split; [|split; [done|]].
    + right. by exists plugin, effective.
    + intros _. apply removeOnePlugin_appended.
  - eexists _, _. split; [done|]. cbn. split; [|split; [|done]].
    + right. by exists plugin, effective.
    + intros _. by exists plugin.
Qed.

(** Loops that insert into a hash, one entry per element of a list. *)
Section InsertLoop.
Context `{Countable K} {A B : Type} (key : A → K) (val : A → B).

Lemma insert_loop_other (m : gmap K B) l k :
  k ∉ key <$> l → foldl (λ m a, <[key a := val a]> m) m l !! k = m !! k.
Proof.
  revert m. induction l as [|a l IH]; intros m Hk; cbn; [done|].
  rewrite fmap_cons, not_elem_of_cons in Hk. destruct Hk as [Hne Hk].
  rewrite IH by done. by rewrite lookup_insert_ne.
Qed.

Lemma insert_loop_last (m : gmap K B) before a after :
  key a ∉ key <$> after →
  foldl (λ m a, <[key a := val a]> m) m (before ++ a :: after) !! key a = Some (val a).
Proof.
  intros Hlast. rewrite foldl_app. cbn [foldl]. rewrite insert_loop_other by done.
  apply lookup_insert_eq.
Qed.

Lemma insert_loop_fresh (m : gmap K B) l :
  NoDup (key <$> l) →
  (∀ a, a ∈ l → m !! key a = None) →
  map_to_list (foldl (λ m a, <[key a := val a]> m) m l)
  ≡ₚ map_to_list m ++ ((λ a, (key a, val a)) <$> l).
Proof.
  revert m. induction l as [|a l IH]; intros m Hnd Hfresh; cbn.
  - by rewrite app_nil_r.
  - rewrite fmap_cons in Hnd. apply NoDup_cons in Hnd as [Hnot Hnd].
    rewrite IH; [|done|].
    + rewrite map_to_list_insert by (apply Hfresh; left).
      by rewrite <- Permutation_middle.
    + intros b Hb. rewrite lookup_insert_ne; [apply Hfresh; by right|].
      intros E. apply Hnot. rewrite E. by apply list_elem_of_fmap_2.
Qed.
End InsertLoop.

(** X13.  [slotDevicesDiscovered] puts every descriptor of the signal into
    the discovery pool under its id, the last descriptor of an id winning;
    entries of other ids stay as they are.  One entry of the sending
    plugin leaves the discovering plugins, and the only effect is the
    signal devicesDiscovered with the class id and the descriptors. *)
Theorem slotDevicesDiscovered_pool sender deviceClassId descriptors m :
  ∃ m',
    slotDevicesDiscovered sender deviceClassId descriptors m = Some (tt, m')
    ∧ (∀ before descriptor after,
         descriptors = before ++ descriptor :: after →
         dd_id descriptor ∉ dd_id <$> after →
         m_discoveredDevices m' !! dd_id descriptor = Some descriptor)
    ∧ (∀ id, id ∉ dd_id <$> descriptors →
             m_discoveredDevices m' !! id = m_discoveredDevices m !! id)
    ∧ m_discoveringPlugins m' = removeOnePlugin sender (m_discoveringPlugins m)
    ∧ trace m' = trace m ++ [EmitDevicesDiscovered deviceClassId descriptors].
Proof.
  unfold slotDevicesDiscovered. mrun. eexists. split; [done|]. cbn.
  split; [|split; [|done]].
  - intros before descriptor after -> Hlast.
    by apply (insert_loop_last dd_id (λ descriptor, descriptor)).
  - intros id Hid. by apply (insert_loop_other dd_id (λ descriptor, descriptor)).
Qed.

(** ** The pairing tables *)

(** X14.  [pairDevice] with a descriptor id always returns.  When it
    answers NoError or SetupFailed, the descriptor is in the discovery pool
    and the transaction is recorded with the class id and the descriptor
    id, and nothing else changes; with any other answer
    (DeviceClassNotFound, CreationMethodNotSupported,
    DeviceDescriptorNotFound) nothing changes at all. *)
Theorem pairDevice_records tx deviceClassId deviceDescriptorId m :
  ∃ r m',
    pairDevice tx deviceClassId deviceDescriptorId m = Some (r, m')
    ∧ (((r = DeviceErrorNoError ∨ r = DeviceErrorSetupFailed)
        ∧ is_Some (m_discoveredDevices m !! deviceDescriptorId)
        ∧ m' = set_pairingsDiscovery (<[tx := (deviceClassId, deviceDescriptorId)]>) m)
       ∨ ((r = DeviceErrorDeviceClassNotFound
           ∨ r = DeviceErrorCreationMethodNotSupported
           ∨ r = DeviceErrorDeviceDescriptorNotFound)
          ∧ m' = m)).
Proof.
  unfold pairDevice. mrun.
  destruct (uuid_isNull _); [eexists _, _; split; [done|]; right; auto|].
  case_bool_decide; [eexists _, _; split; [done|]; right; auto|].
  case_bool_decide as Hpool; cbn [negb]; [|eexists _, _; split; [done|]; right; auto].
  mrun. case_bool_decide; eexists _, _; (split; [done|]); left; auto.
Qed.

(** Entries that are not there are not deleted. *)
Ltac absent :=
  repeat match goal with
         | H : _ !! _ = None |- _ => rewrite (delete_id _ _ H)
         end.

Lemma setupDevice_pairings device :
  preserves (sameOn (λ m, (m_pairingsJustAdd m, m_pairingsDiscovery m,
                           m_discoveredDevices m)))
            (setupDevice device).
Proof. apply setupDevice_preserves; same. Qed.

Lemma storeConfiguredDevices_pairings :
  preserves (sameOn (λ m, (m_pairingsJustAdd m, m_pairingsDiscovery m,
                           m_discoveredDevices m)))
            storeConfiguredDevices.
Proof. apply storeConfiguredDevices_preserves; same. Qed.

(** What [slotPairingFinished] leaves of the pairing tables and of the
    discovery pool. *)
Lemma slotPairingFinished_tables tx status newId m m' :
  slotPairingFinished tx status newId m = Some (tt, m') →
  m_pairingsJustAdd m' = delete tx (m_pairingsJustAdd m)
  ∧ m_pairingsDiscovery m' = delete tx (m_pairingsDiscovery m)
  ∧ m_discoveredDevices m'
    = match m_pairingsDiscovery m !! tx with
      | Some (_, deviceDescriptorId) => delete deviceDescriptorId (m_discoveredDevices m)
      | None => m_discoveredDevices m
      end.
Proof.
  unfold slotPairingFinished. mrun.
  destruct (m_pairingsJustAdd m !! tx) as [[c1 p1]|] eqn:HJ;
    destruct (m_pairingsDiscovery m !! tx) as [[c2 d2]|] eqn:HD; mrun.
  4:{ intros [= <-]. by absent. }
  all: case_bool_decide; [intros [= <-]; cbn; by absent|].
  all: destruct (m_devicePlugins m !! _) as [plugin|];
         [|intros [= <-]; cbn; by absent].
  all: unfold newDevice; mrun.
  all: destruct (setupDevice _ _) as [[s m2]|] eqn:Hsetup; [|done].
  all: apply setupDevice_pairings in Hsetup; injection Hsetup as HJ2 HD2 HP2;
       cbn in HJ2, HD2, HP2.
  all: destruct s; unfold pairingAppend, deleteDevice; mrun.
  all: try (intros [= <-]; rewrite HJ2, HD2, HP2; by absent).
  all: destruct (storeConfiguredDevices _) as [[[] m3]|] eqn:Hstore; [|done].
  all: apply storeConfiguredDevices_pairings in Hstore;
       injection Hstore as HJ3 HD3 HP3; cbn in HJ3, HD3, HP3.
  all: intros [= <-]; cbn; rewrite HJ3, HD3, HP3, ?HJ2, ?HD2, ?HP2;
       by absent.
Qed.

Lemma confirmPairing_no_justAdd tx secret m r m' :
  confirmPairing tx secret m = Some (r, m') →
  m_pairingsJustAdd m = ∅ → m_pairingsJustAdd m' = ∅.
Proof.
  intros Hrun Hempty. revert Hrun. unfold confirmPairing. mrun.
  rewrite Hempty, lookup_empty. rewrite bool_decide_false by by intros [? [=]].
  destruct (m_pairingsDiscovery m !! tx) as [[c d]|]; [|by intros [= _ <-]].
  destruct (m_devicePlugins m !! _) as [plugin|]; [|by intros [= _ <-]].
  mrun. destruct (plugin_confirmPairing _ _ _ _); mrun; by intros [= _ <-].
Qed.

Lemma run_no_justAdd qt c m m' :
  run qt c m = Some (tt, m') →
  m_pairingsJustAdd m = ∅ → m_pairingsJustAdd m' = ∅.
Proof.
  intros Hrun Hempty.
  destruct c.
  11:{ cbn [run] in Hrun.
       destruct (slotPairingFinished_tables _ _ _ _ _ Hrun) as (-> & _).
       rewrite Hempty. apply delete_empty. }
  7:{ cbn [run] in Hrun. apply discard_Some in Hrun as [r Hrun].
      by eapply confirmPairing_no_justAdd. }
  all: rewrite <- Hempty; revert Hrun;
       match goal with
       | |- ?c _ = Some _ → _ =>
           enough (preserves (sameOn m_pairingsJustAdd) c) as Hsame
             by (intros Hrun; exact (Hsame _ _ _ Hrun))
       end.
  all: cbn [run]; repeat preserves_step; try done.
  all: first [ apply loadConfiguredDevices_preserves
             | apply addConfiguredDevice_preserves
             | apply addDiscoveredDevice_preserves
             | apply discoverDevices_preserves
             | apply pairDeviceParams_preserves
             | apply pairDevice_preserves
             | apply removeConfiguredDevice_preserves
             | apply slotDevicesDiscovered_preserves
             | apply slotDeviceSetupFinished_preserves
             | apply autoDevicesAppeared_preserves
             | apply Device_stateValueChanged_preserves
             | apply timerEvent_preserves
             | apply radio433SignalReceived_preserves
             | idtac ]; same.
Qed.

Lemma reachable_no_justAdd qt classes plugins stored m :
  reachable qt (initial classes plugins stored) m → m_pairingsJustAdd m = ∅.
Proof.
  induction 1 as [|m c m' _ IH Hrun]; [done|]. by eapply run_no_justAdd.
Qed.

(** X15.  In every state the manager reaches, the table of just-add
    pairings is empty, and [pairDevice] with params returns an answer that
    is never NoError and changes nothing: no transaction is ever opened
    that way. *)
Theorem pairDeviceParams_never_pairs qt classes plugins stored m :
  reachable qt (initial classes plugins stored) m →
  m_pairingsJustAdd m = ∅
  ∧ ∀ tx deviceClassId params,
      ∃ r, pairDeviceParams tx deviceClassId params m = Some (r, m)
           ∧ r ≠ DeviceErrorNoError.
Proof.
  intros Hreach. split.
  - induction Hreach as [|m c m' _ IH Hrun]; [done|]. by eapply run_no_justAdd.
  - intros tx deviceClassId params. unfold pairDeviceParams. mrun.
    destruct (uuid_isNull _); [by eexists|].
    destruct (dc_setupMethod _); by eexists.
Qed.

(** X16.  In every state the manager reaches, [confirmPairing] returns.
    It answers PairingTransactionIdNotFound exactly when the transaction
    is not recorded.  The transaction is still recorded afterwards exactly
    when the answer is Async or PluginNotFound.  The plugin is asked at
    most once, and nothing else is called or emitted. *)
Theorem confirmPairing_keeps_open_or_closes qt classes plugins stored m tx secret :
  reachable qt (initial classes plugins stored) m →
  ∃ r m',
    confirmPairing tx secret m = Some (r, m')
    ∧ (r = DeviceErrorPairingTransactionIdNotFound
       ↔ m_pairingsDiscovery m !! tx = None)
    ∧ (is_Some (m_pairingsDiscovery m' !! tx)
       ↔ r = DeviceErrorAsync ∨ r = DeviceErrorPluginNotFound)
    ∧ (trace m' = trace m
       ∨ ∃ plugin deviceClassId params,
           trace m' = trace m ++ [CallConfirmPairing (plugin_addr plugin) tx
                                                     deviceClassId params]).
Proof.
  intros Hempty%reachable_no_justAdd. unfold confirmPairing. mrun.
  rewrite Hempty, lookup_empty. rewrite bool_decide_false by by intros [? [=]].
  destruct (m_pairingsDiscovery m !! tx) as [[c d]|] eqn:HD.
  2:{ eexists _, _. split; [done|]. split; [done|]. split; [|by left].
      rewrite HD. split; [by intros [? [=]] | by intros [|]]. }
  destruct (m_devicePlugins m !! _) as [plugin|].
  2:{ eexists _, _. split; [done|]. split; [done|]. split; [|by left].
      rewrite HD. split; [auto | by eexists]. }
  mrun. destruct (plugin_confirmPairing _ _ _ _); mrun.
  all: eexists _, _; (split; [done|]); cbn; (split; [done|]).
  all: split; [|right; by eexists _, _, _].
  - rewrite lookup_delete_eq. split; [by intros [? [=]] | by intros [|]].
  - rewrite lookup_delete_eq. split; [by intros [? [=]] | by intros [|]].
  - rewrite HD. split; [auto | by eexists].
Qed.

(** X17.  Whenever [slotPairingFinished] returns, whatever the status, the
    transaction is in neither pairing table, the descriptor of a discovery
    transaction is gone from the discovery pool, no other entry of the
    tables or of the pool has changed, and every later pairingFinished
    signal for that transaction is dropped without any change. *)
Theorem slotPairingFinished_closes_transaction tx status newId m m' :
  slotPairingFinished tx status newId m = Some (tt, m') →
  m_pairingsJustAdd m' = delete tx (m_pairingsJustAdd m)
  ∧ m_pairingsDiscovery m' = delete tx (m_pairingsDiscovery m)
  ∧ m_discoveredDevices m'
    = match m_pairingsDiscovery m !! tx with
      | Some (_, deviceDescriptorId) => delete deviceDescriptorId (m_discoveredDevices m)
      | None => m_discoveredDevices m
      end
  ∧ ∀ status' newId', slotPairingFinished tx status' newId' m' = Some (tt, m').
Proof.
  intros (HJ & HD & HP)%slotPairingFinished_tables.
  split; [done|]. split; [done|]. split; [done|].
  intros status' newId'. apply slotPairingFinished_unknown.
  - rewrite HJ. apply lookup_delete_eq.
  - rewrite HD. apply lookup_delete_eq.
Qed.

(** ** Setup, in full *)

Lemma registerTimerUser_total plugin device m :
  ∃ m', registerTimerUser plugin device m = Some (tt, m')
        ∧ sameOn (λ m, (m_supportedDevices m, m_devicePlugins m, m_configuredDevices m,
                        m_discoveredDevices m, m_pairingsJustAdd m,
                        m_pairingsDiscovery m, m_discoveringPlugins m, objects m,
                        settings m, connections m, trace m)) m m'
        ∧ m_pluginTimerUsers m'
          = (if testFlag (plugin_requiredHardware plugin) HardwareResourceTimer
             then m_pluginTimerUsers m ++ [device] else m_pluginTimerUsers m).
Proof.
  unfold registerTimerUser. destruct (testFlag _ _); [|by eexists].
  mrun. destruct (m_pluginTimerActive m); mrun; by eexists.
Qed.

Lemma registerTimerUser_timer plugin device m m' :
  registerTimerUser plugin device m = Some (tt, m') →
  m_pluginTimerActive m'
  = (if testFlag (plugin_requiredHardware plugin) HardwareResourceTimer
     then true else m_pluginTimerActive m).
Proof.
  unfold registerTimerUser. destruct (testFlag _ _); [|by intros [= <-]].
  mrun. destruct (m_pluginTimerActive m) eqn:E; mrun; by intros [= <-].
Qed.

(** What [setupDevice] does to the device and to the lists of the manager. *)
Lemma setupDevice_outcome device m s m' :
  setupDevice device m = Some (s, m') →
  ∃ d d',
    objects m !! device = Some d
    ∧ s = setupAnswer m d
    ∧ objects m' = <[device := d']> (objects m)
    ∧ deviceIdentity d' = deviceIdentity d
    ∧ dev_setupComplete d'
      = (dev_setupComplete d || bool_decide (s = DeviceSetupStatusSuccess))
    ∧ m_configuredDevices m' = m_configuredDevices m
    ∧ connections m'
      = (if bool_decide (s = DeviceSetupStatusSuccess)
         then connections m ++ [device] else connections m)
    ∧ (m_pluginTimerUsers m' = m_pluginTimerUsers m
       ∨ (s = DeviceSetupStatusSuccess
          ∧ m_pluginTimerUsers m' = m_pluginTimerUsers m ++ [device])).
Proof.
  unfold setupDevice, readDevice, setupAnswer. rewrite bind_run.
  destruct (objects m !! device) as [d|] eqn:Hd; [|done]. mrun.
  destruct (m_devicePlugins m !! _) as [plugin|] eqn:Hplugin.
  2:{ intros [= <- <-]. exists d, d. rewrite Hplugin, insert_id by done.
      rewrite orb_false_r. by repeat split; auto. }
  unfold writeDevice, readDevice. mrun. rewrite Hd. mrun.
  case_bool_decide as Hs.
  { intros [= <- <-]. eexists d, _. cbn. rewrite Hplugin.
    rewrite bool_decide_false by done.
    rewrite orb_false_r. by repeat split; auto. }
  rewrite bind_run.
  destruct (registerTimerUser_total plugin device
              (set_trace (λ t, t ++ [CallSetupDevice (plugin_addr plugin) device])
                 (set_objects (λ o, <[device := Device_setStates
                    (defaultStates (findDeviceClass m (dev_deviceClassId d)) (dev_id d)) d]> o)
                    m)))
    as (m1 & Hreg & Hsame & Husers).
  cbn in Hreg. rewrite Hreg. clear Hreg.
  injection Hsame as _ _ Hc _ _ _ _ Ho _ Hconn _. cbn in Hc, Ho, Hconn, Husers.
  mrun. rewrite Ho, lookup_insert_eq. mrun.
  intros [= <- <-]. eexists d, _. cbn. rewrite Hplugin, Hs, Hc, Hconn, insert_insert_eq.
  rewrite bool_decide_true by done. rewrite orb_true_r.
  repeat split; try done.
  rewrite Husers. destruct (testFlag _ _); auto.
Qed.

(** A setup that succeeds, in full. *)
Lemma setupDevice_success device m d m' :
  objects m !! device = Some d →
  setupDevice device m = Some (DeviceSetupStatusSuccess, m') →
  let deviceClass := findDeviceClass m (dev_deviceClassId d) in
  ∃ plugin,
    m_devicePlugins m !! dc_pluginId deviceClass = Some plugin
    ∧ sameOn (λ m, (m_supportedDevices m, m_devicePlugins m, m_configuredDevices m,
                    m_discoveredDevices m, m_pairingsJustAdd m, m_pairingsDiscovery m,
                    m_discoveringPlugins m, settings m)) m m'
    ∧ objects m'
      = <[device := Device_setupCompleted
                      (Device_setStates (defaultStates deviceClass (dev_id d)) d)]>
          (objects m)
    ∧ connections m' = connections m ++ [device]
    ∧ m_pluginTimerUsers m'
      = (if testFlag (plugin_requiredHardware plugin) HardwareResourceTimer
         then m_pluginTimerUsers m ++ [device] else m_pluginTimerUsers m)
    ∧ m_pluginTimerActive m'
      = (if testFlag (plugin_requiredHardware plugin) HardwareResourceTimer
         then true else m_pluginTimerActive m)
    ∧ trace m' = trace m ++ [CallSetupDevice (plugin_addr plugin) device].
Proof.
  intros Hd. unfold setupDevice, readDevice. rewrite bind_run, Hd. mrun.
  destruct (m_devicePlugins m !! _) as [plugin|] eqn:Hplugin; [|done].
  unfold writeDevice, readDevice. mrun. rewrite Hd. mrun.
  case_bool_decide as Hs; [intros [= E _]; by destruct Hs|].
  rewrite bind_run.
  set (m0 := mkManager _ _ _ _ _ _ _ _ _ _ _ _ _ _ _).
  destruct (registerTimerUser_total plugin device m0) as (m1 & Hreg & Hsame & Husers).
  rewrite Hreg. apply registerTimerUser_timer in Hreg.
  injection Hsame as Hsd Hdp Hc Hdd HJ HD Hdisc Ho Hset Hk Ht.
  mrun. rewrite Ho. subst m0. cbn. rewrite lookup_insert_eq. mrun.
  intros [= _ <-]. exists plugin. split; [done|]. cbn in *.
  rewrite Hk, Ht, Husers, Hreg, insert_insert_eq.
  repeat split; try done. unfold sameOn. cbn. congruence.
Qed.

Lemma setupDevice_identity device m s m' x :
  setupDevice device m = Some (s, m') →
  deviceIdentity <$> objects m' !! x = deviceIdentity <$> objects m !! x.
Proof.
  intros (d & d' & Hd & _ & -> & Hid & _)%setupDevice_outcome.
  destruct (decide (x = device)) as [->|Hne].
  - by rewrite lookup_insert_eq, Hd; cbn; rewrite Hid.
  - by rewrite lookup_insert_ne.
Qed.

Lemma setupAnswer_same m m' d :
  sameOn (λ m, (m_supportedDevices m, m_devicePlugins m)) m m' →
  setupAnswer m' d = setupAnswer m d.
Proof.
  unfold sameOn. intros [= Hs Hp]. unfold setupAnswer, findDeviceClass.
  by rewrite Hs, Hp.
Qed.

Lemma storeDevices_dangling devices device m :
  device ∈ devices → objects m !! device = None → storeDevices devices m = None.
Proof.
  intros Hin Hgone.
  destruct (storeDevices devices m) as [[[] m']|] eqn:Hstore; [|done].
  destruct (storeDevices_live _ _ _ Hstore device Hin) as [d Hd]. congruence.
Qed.

Lemma storeDevices_settings_only devices :
  preserves (sameOn (λ m, (m_supportedDevices m, m_devicePlugins m,
                           m_configuredDevices m, m_discoveredDevices m,
                           m_pairingsJustAdd m, m_pairingsDiscovery m,
                           m_discoveringPlugins m, m_pluginTimerActive m,
                           m_pluginTimerUsers m, objects m, queuedTimerEvents m,
                           connections m, trace m)))
            (storeDevices devices).
Proof. apply storeDevices_preserves; same. Qed.

(** X18.  A pairingFinished signal with status Success for a discovery
    transaction whose class has a loaded plugin: when that plugin answers
    Failure to the setup of the new device, [slotPairingFinished] deletes
    the device and falls through to the code that appends it to the
    configured devices and stores them; the store reads the deleted device
    and the method stops there. *)
Theorem slotPairingFinished_failed_setup_stops m tx deviceClassId deviceDescriptorId
        newId plugin :
  let deviceClass := findDeviceClass m deviceClassId in
  let params := dd_params (discoveredDevice m deviceDescriptorId) in
  m_pairingsJustAdd m !! tx = None →
  m_pairingsDiscovery m !! tx = Some (deviceClassId, deviceDescriptorId) →
  m_devicePlugins m !! dc_pluginId deviceClass = Some plugin →
  plugin_setupDevice plugin
    (Device_setStates (defaultStates deviceClass newId)
       (Device_new (plugin_pluginId plugin) newId deviceClassId
                   (dc_name deviceClass) params))
  = DeviceSetupStatusFailure →
  slotPairingFinished tx DeviceSetupStatusSuccess newId m = None.
Proof.
  intros deviceClass params HJ HD Hplugin Hfails.
  unfold slotPairingFinished. mrun. rewrite HJ, HD. mrun.
  rewrite bool_decide_false by (intros Hne; by apply Hne).
  fold deviceClass. rewrite Hplugin. unfold newDevice. mrun.
  destruct (setupDevice _ _) as [[s m2]|] eqn:Hsetup; [|done].
  apply setupDevice_outcome in Hsetup
    as (d & d' & Hd & Hs & Ho & _ & _ & Hc & _ & _).
  cbn in Hd, Ho, Hc. rewrite lookup_insert_eq in Hd. injection Hd as <-.
  unfold setupAnswer in Hs. cbn in Hs.
  change (findDeviceClass _ deviceClassId) with deviceClass in Hs.
  rewrite Hplugin in Hs. fold params in Hs. rewrite Hfails in Hs. subst s.
  unfold pairingAppend, deleteDevice, storeConfiguredDevices. mrun.
  rewrite (storeDevices_dangling _ (fresh (dom (objects m)))); [done| |].
  - apply elem_of_app. right. left.
  - cbn. apply lookup_delete_eq.
Qed.

(** ** The slot for deviceSetupFinished *)

(** X19.  [slotDeviceSetupFinished] for a live device, while every
    configured device is a live object.  A device that is set up already,
    and the status Async, are ignored.  With Failure the only effect is the
    signal deviceSetupFinished(device, SetupFailed): the device object
    stays, and the configured devices are as they were.  With Success and
    the plugin named by the device not loaded, the method stops at the
    null plugin pointer.  With Success and the plugin loaded, the device
    is appended to the configured devices unless it is among them, its
    setup is complete, it is connected, it is a timer user when the plugin
    needs the timer, deviceSetupFinished(device, NoError) is emitted, and
    every later deviceSetupFinished signal for the device is ignored. *)
Theorem slotDeviceSetupFinished_cases m device d status :
  live m →
  objects m !! device = Some d →
  if dev_setupComplete d then
    slotDeviceSetupFinished (Some device) status m = Some (tt, m)
  else
    match status with
    | DeviceSetupStatusAsync =>
        slotDeviceSetupFinished (Some device) status m = Some (tt, m)
    | DeviceSetupStatusFailure =>
        slotDeviceSetupFinished (Some device) status m
        = Some (tt, set_trace
                      (λ t, t ++ [EmitDeviceSetupFinished device DeviceErrorSetupFailed])
                      m)
    | DeviceSetupStatusSuccess =>
        match m_devicePlugins m !! dev_pluginId d with
        | None => slotDeviceSetupFinished (Some device) status m = None
        | Some plugin =>
            ∃ m',
              slotDeviceSetupFinished (Some device) status m = Some (tt, m')
              ∧ m_configuredDevices m'
                = (if bool_decide (device ∈ m_configuredDevices m)
                   then m_configuredDevices m else m_configuredDevices m ++ [device])
              ∧ objects m' = <[device := Device_setupCompleted d]> (objects m)
              ∧ connections m' = connections m ++ [device]
              ∧ m_pluginTimerUsers m'
                = (if testFlag (plugin_requiredHardware plugin) HardwareResourceTimer
                   then m_pluginTimerUsers m ++ [device] else m_pluginTimerUsers m)
              ∧ trace m' = trace m ++ [EmitDeviceSetupFinished device DeviceErrorNoError]
              ∧ ∀ status',
                  slotDeviceSetupFinished (Some device) status' m' = Some (tt, m')
        end
    end.
Proof.
  intros Hlive Hd.
  destruct (dev_setupComplete d) eqn:Hpending.
  { unfold slotDeviceSetupFinished, readDevice. rewrite bind_run, Hd.
    cbv beta iota. by rewrite Hpending. }
  destruct status.
  2,3: unfold slotDeviceSetupFinished, readDevice; rewrite bind_run, Hd;
       cbv beta iota; by rewrite Hpending.
  assert (slotDeviceSetupFinished (Some device) DeviceSetupStatusSuccess m
          = (m0 ← get;
             (if negb (bool_decide (device ∈ m_configuredDevices m0)) then
                modify (set_configuredDevices (λ l, l ++ [device]));;
                storeConfiguredDevices
              else mret tt);;
             match m_devicePlugins m0 !! dev_pluginId d with
             | None => crash
             | Some plugin =>
                 registerTimerUser plugin device;;
                 modify (set_connections (λ c, c ++ [device]));;
                 writeDevice device Device_setupCompleted;;
                 emit (EmitDeviceSetupFinished device DeviceErrorNoError)
             end) m) as ->.
  { unfold slotDeviceSetupFinished, readDevice. rewrite bind_run, Hd.
    cbv beta iota. by rewrite Hpending. }
  rewrite bind_run. unfold get. cbv beta iota. rewrite bind_run.
  set (step1 := if negb (bool_decide (device ∈ m_configuredDevices m)) then _ else _).
  assert (∃ m1, step1 m = Some (tt, m1)
                ∧ m_configuredDevices m1
                  = (if bool_decide (device ∈ m_configuredDevices m)
                     then m_configuredDevices m else m_configuredDevices m ++ [device])
                ∧ (objects m1, m_pluginTimerUsers m1, connections m1, trace m1)
                  = (objects m, m_pluginTimerUsers m, connections m, trace m))
    as (m1 & -> & Hc1 & Hrest1).
  { subst step1. case_bool_decide as Hin; cbn [negb]; [by eexists|].
    unfold storeConfiguredDevices. mrun.
    edestruct (storeDevices_total (m_configuredDevices m ++ [device])) as [m1 Hstore].
    2:{ rewrite Hstore. exists m1. split; [done|].
        apply storeDevices_settings_only in Hstore.
        injection Hstore as _ _ Hc _ _ _ _ _ Hu Ho _ Hk Ht. cbn in *.
        by rewrite Hc, Hu, Ho, Hk, Ht. }
    cbn. intros x [Hx | ->%list_elem_of_singleton]%elem_of_app; [by apply Hlive|].
    by rewrite Hd. }
  injection Hrest1 as Ho1 Hu1 Hk1 Ht1.
  destruct (m_devicePlugins m !! dev_pluginId d) as [plugin|]; [|done].
  rewrite bind_run.
  destruct (registerTimerUser_total plugin device m1) as (m2 & -> & Hsame & Husers).
  injection Hsame as _ _ Hc2 _ _ _ _ Ho2 _ Hk2 Ht2.
  unfold writeDevice, readDevice. mrun. rewrite Ho2, Ho1, Hd. mrun.
  eexists. split; [done|]. cbn.
  rewrite Hc2, Hc1, Hk2, Hk1, Ht2, Ht1, Husers, Hu1.
  repeat split; try done.
  intros status. unfold slotDeviceSetupFinished, readDevice. rewrite bind_run. cbn.
  by rewrite lookup_insert_eq.
Qed.

(** ** Set up once *)

Lemma setUp_insert objs device d x :
  setUp (<[device := d]> objs) x
  ↔ (x = device ∧ dev_setupComplete d = true) ∨ (x ≠ device ∧ setUp objs x).
Proof.
  unfold setUp. destruct (decide (x = device)) as [->|Hne].
  - rewrite lookup_insert_eq. split.
    + intros (d' & [= <-] & ?). by left.
    + intros [[_ ?] | [? _]]; [by exists d | done].
  - rewrite lookup_insert_ne by done. split; [by right | by intros [[? _] | [_ ?]]].
Qed.

Lemma setUp_delete objs device x :
  setUp (delete device objs) x ↔ x ≠ device ∧ setUp objs x.
Proof.
  unfold setUp. destruct (decide (x = device)) as [->|Hne].
  - rewrite lookup_delete_eq. split; [by intros (? & [=] & _) | by intros [? _]].
  - rewrite lookup_delete_ne by done. split; [done | by intros [_ ?]].
Qed.

Lemma removeAllDevice_elem device devices x :
  x ∈ removeAllDevice device devices ↔ x ≠ device ∧ x ∈ devices.
Proof. unfold removeAllDevice. by rewrite list_elem_of_filter. Qed.

Lemma removeAllDevice_absent device devices :
  device ∉ devices → removeAllDevice device devices = devices.
Proof.
  intros Hnot. unfold removeAllDevice. induction devices as [|x xs IH]; [done|].
  apply not_elem_of_cons in Hnot as [Hne Hnot].
  rewrite filter_cons, decide_True by done. by rewrite IH.
Qed.

Lemma removeAllDevice_NoDup device devices :
  NoDup devices → NoDup (removeAllDevice device devices).
Proof. apply NoDup_filter. Qed.

Lemma NoDup_appended (l : list nat) x : NoDup l → x ∉ l → NoDup (l ++ [x]).
Proof.
  intros Hl Hx. apply NoDup_app. split; [done|]. split; [|apply NoDup_singleton].
  by intros y Hy ->%list_elem_of_singleton.
Qed.

Section Wired.
Context (c u k : list nat) (o : gmap nat Device).
Hypothesis Hwired : wired c u k o.

Lemma wired_new d :
  dev_setupComplete d = false → wired c u k (<[fresh (dom o) := d]> o).
Proof.
  destruct Hwired as (Hc & Hu & Hk & Hlive & Husers & Hconn). intros Hd.
  assert (¬ setUp o (fresh (dom o))) as Hfresh.
  { intros (d' & Hd' & _). apply (is_fresh (dom o)), elem_of_dom. by eexists. }
  repeat split; try done.
  - intros x Hx. apply lookup_insert_is_Some'. right. by apply Hlive.
  - intros x Hx. apply setUp_insert. right. split; [|by apply Husers].
    intros ->. by apply Hfresh, Husers.
  - intros Hx. apply setUp_insert. right. apply Hconn in Hx. split; [|done].
    by intros ->.
  - intros [[_ Hcomplete] | [_ Hx]]%setUp_insert; [congruence | by apply Hconn].
Qed.

Lemma wired_setup device d d' u' k' :
  o !! device = Some d →
  dev_setupComplete d = false →
  (dev_setupComplete d' = false ∧ u' = u ∧ k' = k)
  ∨ (dev_setupComplete d' = true ∧ (u' = u ∨ u' = u ++ [device])
     ∧ k' = k ++ [device]) →
  wired c u' k' (<[device := d']> o).
Proof.
  destruct Hwired as (Hc & Hu & Hk & Hlive & Husers & Hconn). intros Hd Hpending Hcase.
  assert (¬ setUp o device) as Hnot.
  { intros (d0 & Hd0 & Hcomplete). congruence. }
  assert (device ∉ u) as Hnu by (intros Hin; by apply Hnot, Husers).
  assert (device ∉ k) as Hnk by (intros Hin; by apply Hnot, Hconn).
  assert (∀ x, x ∈ c → is_Some (<[device := d']> o !! x)) as Hlive'.
  { intros x Hx. apply lookup_insert_is_Some'. right. by apply Hlive. }
  destruct Hcase as [(Hd' & -> & ->) | (Hd' & Hu' & ->)].
  - repeat split; try done.
    + intros x Hx. apply setUp_insert. right. split; [by intros -> | by apply Husers].
    + intros Hx. apply setUp_insert. right. split; [by intros -> | by apply Hconn].
    + intros [[_ ?] | [_ Hx]]%setUp_insert; [congruence | by apply Hconn].
  - assert (NoDup u' ∧ ∀ x, x ∈ u' → x = device ∨ x ∈ u) as [Hu'1 Hu'2].
    { destruct Hu' as [-> | ->]; [split; [done | auto]|].
      split; [by apply NoDup_appended|].
      intros x [?| ->%list_elem_of_singleton]%elem_of_app; auto. }
    repeat split; try done.
    + by apply NoDup_appended.
    + intros x [-> | Hx]%Hu'2; apply setUp_insert; [by left|].
      right. split; [by intros -> | by apply Husers].
    + intros [Hx | ->%list_elem_of_singleton]%elem_of_app; apply setUp_insert;
        [|by left].
      right. split; [by intros -> | by apply Hconn].
    + intros [[-> _] | [_ Hx]]%setUp_insert; apply elem_of_app;
        [right; by left | left; by apply Hconn].
Qed.

Lemma wired_append device :
  device ∉ c → is_Some (o !! device) → wired (c ++ [device]) u k o.
Proof.
  destruct Hwired as (Hc & Hu & Hk & Hlive & Husers & Hconn). intros Hnot Hd.
  repeat split; try done; try apply Hconn.
  - by apply NoDup_appended.
  - intros x [Hx | ->%list_elem_of_singleton]%elem_of_app; [by apply Hlive | done].
Qed.

Lemma wired_remove device :
  wired (removeAllDevice device c) (removeAllDevice device u)
        (removeAllDevice device k) (delete device o).
Proof.
  destruct Hwired as (Hc & Hu & Hk & Hlive & Husers & Hconn).
  repeat split; try by apply removeAllDevice_NoDup.
  - intros x [Hne Hx]%removeAllDevice_elem. apply lookup_delete_is_Some.
    split; [done | by apply Hlive].
  - intros x [Hne Hx]%removeAllDevice_elem. apply setUp_delete.
    split; [done | by apply Husers].
  - intros [Hne Hx]%removeAllDevice_elem. apply setUp_delete.
    split; [done | by apply Hconn].
  - intros [Hne Hx]%setUp_delete. apply removeAllDevice_elem.
    split; [done | by apply Hconn].
Qed.

Lemma wired_fresh :
  (fresh (dom o) ∉ c) ∧ (fresh (dom o) ∉ u) ∧ (fresh (dom o) ∉ k).
Proof.
  destruct Hwired as (Hc & Hu & Hk & Hlive & Husers & Hconn).
  assert (¬ is_Some (o !! fresh (dom o))) as Hfresh.
  { intros H. by apply (is_fresh (dom o)), elem_of_dom. }
  split; [|split]; intros Hin; apply Hfresh.
  - by apply Hlive.
  - apply Husers in Hin as (d & -> & _). by eexists.
  - apply Hconn in Hin as (d & -> & _). by eexists.
Qed.
End Wired.

Lemma setUpOnce_wiring m m' : wiring m' = wiring m → setUpOnce m → setUpOnce m'.
Proof. unfold wiring, setUpOnce. by intros [= -> -> -> ->]. Qed.

Lemma setUpOnce_frame {A} (c : M A) :
  preserves (sameOn wiring) c →
  ∀ m a m', setUpOnce m → c m = Some (a, m') → setUpOnce m'.
Proof. intros Hc m a m' Hgood Hrun. eapply setUpOnce_wiring; [by eapply Hc | done]. Qed.

(** A device is allocated in a state [m] that is wired as it should,
    possibly after writes that leave the wiring alone, and set up. *)
Section NewDeviceWired.
Context (m : DeviceManager) (d : Device) (m1 : DeviceManager)
      (s : DeviceSetupStatus) (m2 : DeviceManager).
Hypothesis Hgood : setUpOnce m.
Hypothesis Hpending : dev_setupComplete d = false.
Hypothesis Hnew : wiring m1 = (m_configuredDevices m, m_pluginTimerUsers m,
                             connections m, <[fresh (dom (objects m)) := d]> (objects m)).
Hypothesis Hsetup : setupDevice (fresh (dom (objects m))) m1 = Some (s, m2).

Lemma new_setup_wired :
setUpOnce m2
∧ m_configuredDevices m2 = m_configuredDevices m
∧ is_Some (objects m2 !! fresh (dom (objects m)))
∧ (s ≠ DeviceSetupStatusSuccess →
   m_pluginTimerUsers m2 = m_pluginTimerUsers m ∧ connections m2 = connections m).
Proof.
injection Hnew as Hc1 Hu1 Hk1 Ho1.
apply setupDevice_outcome in Hsetup
  as (d0 & d' & Hd0 & _ & Ho2 & _ & Hcomplete & Hc2 & Hk2 & Hu2).
rewrite Ho1, lookup_insert_eq in Hd0. injection Hd0 as <-.
rewrite Hpending in Hcomplete. cbn in Hcomplete.
rewrite Hc1 in Hc2. rewrite Hk1 in Hk2. rewrite Hu1 in Hu2. rewrite Ho1 in Ho2.
split; [|split; [done|split]].
- unfold setUpOnce. rewrite Hc2, Ho2.
  eapply wired_setup; [by apply wired_new | apply lookup_insert_eq | done |].
  case_bool_decide as Hs; [right | left]; rewrite Hcomplete, Hk2.
  + split; [done|]. split; [|done]. destruct Hu2 as [-> | [_ ->]]; auto.
  + split; [done|]. split; [|done]. by destruct Hu2 as [-> | [? _]].
- rewrite Ho2, lookup_insert_eq. by eexists.
- intros Hs. rewrite bool_decide_false in Hk2 by done. split; [|done].
  by destruct Hu2 as [-> | [? _]].
Qed.

(** The new device is appended to the configured devices. *)
Lemma wired_appended m3 :
wiring m3 = (m_configuredDevices m2 ++ [fresh (dom (objects m))],
             m_pluginTimerUsers m2, connections m2, objects m2) →
setUpOnce m3.
Proof.
destruct new_setup_wired as (Hgood2 & Hc2 & Hlive2 & _).
intros [= Hc3 Hu3 Hk3 Ho3]. unfold setUpOnce. rewrite Hc3, Hu3, Hk3, Ho3.
apply wired_append; [done| |done]. rewrite Hc2. by apply (wired_fresh _ _ _ _ Hgood).
Qed.

(** The setup did not succeed and the new device is deleted. *)
Lemma wired_deleted m3 :
s ≠ DeviceSetupStatusSuccess →
wiring m3 = (m_configuredDevices m2, m_pluginTimerUsers m2,
             removeAllDevice (fresh (dom (objects m))) (connections m2),
             delete (fresh (dom (objects m))) (objects m2)) →
setUpOnce m3.
Proof.
destruct new_setup_wired as (Hgood2 & Hc2 & Hlive2 & Hfailed).
intros Hs [= Hc3 Hu3 Hk3 Ho3]. destruct (Hfailed Hs) as [Hu2 Hk2].
destruct (wired_fresh _ _ _ _ Hgood) as (Hnc & Hnu & Hnk).
unfold setUpOnce. rewrite Hc3, Hu3, Hk3, Ho3.
rewrite <- (removeAllDevice_absent (fresh (dom (objects m))) (m_configuredDevices m2))
  by by rewrite Hc2.
rewrite <- (removeAllDevice_absent (fresh (dom (objects m))) (m_pluginTimerUsers m2))
  by by rewrite Hu2.
by apply wired_remove.
Qed.
End NewDeviceWired.

(** Closes a goal [setUpOnce _] after a device was allocated and set up. *)
Ltac wired_by lem Hgood Hsetup :=
  eapply lem; [exact Hgood | | | exact Hsetup | ..];
  [ | reflexivity | ..]; first [reflexivity | done].

Lemma storeConfiguredDevices_wiring : preserves (sameOn wiring) storeConfiguredDevices.
Proof. apply storeConfiguredDevices_preserves; same. Qed.

Lemma addConfiguredDeviceInternal_setUpOnce qt deviceClassId params id m r m' :
  setUpOnce m →
  addConfiguredDeviceInternal qt deviceClassId params id m = Some (r, m') →
  setUpOnce m'.
Proof.
  intros Hgood. unfold addConfiguredDeviceInternal. mrun.
  destruct (uuid_isNull _); [by intros [= _ <-]|].
  case_bool_decide; [by intros [= _ <-]|].
  destruct (verifyParams _ _ _ _) as [result effective].
  case_bool_decide; [by intros [= _ <-]|].
  unfold findConfiguredDevice. mrun.
  destruct (findDeviceById _ _ _) as [[dup|]|]; mrun; [by intros [= _ <-] | | done].
  destruct (m_devicePlugins m !! _) as [plugin|]; [|by intros [= _ <-]].
  unfold newDevice. mrun.
  destruct (setupDevice _ _) as [[s m2]|] eqn:Hsetup; [|done].
  destruct s; mrun.
  - destruct (storeConfiguredDevices _) as [[[] m3]|] eqn:Hstore; [|done].
    intros [= _ <-].
    apply (setUpOnce_wiring _ _ (storeConfiguredDevices_wiring _ _ _ Hstore)).
    wired_by wired_appended Hgood Hsetup.
  - unfold deleteDevice. mrun. intros [= _ <-].
    wired_by wired_deleted Hgood Hsetup.
  - intros [= _ <-].
    wired_by new_setup_wired Hgood Hsetup.
Qed.

Lemma loadDevices_setUpOnce stored m m' :
  setUpOnce m → loadDevices stored m = Some (tt, m') → setUpOnce m'.
Proof.
  revert m. induction stored as [|[id sd] rest IH]; intros m Hgood; cbn [loadDevices].
  - by intros [= <-].
  - unfold newDevice. mrun.
    destruct (setupDevice _ _) as [[s m2]|] eqn:Hsetup; [|done]. mrun.
    apply IH. wired_by wired_appended Hgood Hsetup.
Qed.

Lemma autoDevices_loop_setUpOnce plugin deviceClass deviceClassId descriptors m m' :
  setUpOnce m →
  autoDevices_loop plugin deviceClass deviceClassId descriptors m = Some (tt, m') →
  setUpOnce m'.
Proof.
  revert m. induction descriptors as [|[descriptor newId] rest IH]; intros m Hgood;
    cbn [autoDevices_loop].
  - by intros [= <-].
  - unfold newDevice. mrun.
    destruct (setupDevice _ _) as [[s m2]|] eqn:Hsetup; [|done].
    destruct s; mrun.
    + destruct (storeConfiguredDevices _) as [[[] m3]|] eqn:Hstore; [|done].
      apply IH.
      apply (setUpOnce_wiring _ _ (storeConfiguredDevices_wiring _ _ _ Hstore)).
      wired_by wired_appended Hgood Hsetup.
    + unfold deleteDevice. mrun. apply IH. wired_by wired_deleted Hgood Hsetup.
    + apply IH. wired_by new_setup_wired Hgood Hsetup.
Qed.

Lemma slotPairingFinished_setUpOnce tx status newId m m' :
  setUpOnce m → slotPairingFinished tx status newId m = Some (tt, m') → setUpOnce m'.
Proof.
  intros Hgood. unfold slotPairingFinished. mrun.
  destruct (_ && _); [by intros [= <-]|].
  destruct (m_pairingsJustAdd m !! tx) as [[c1 p1]|];
    destruct (m_pairingsDiscovery m !! tx) as [[c2 d2]|]; mrun;
    (case_bool_decide; [by intros [= <-]|]);
    (destruct (m_devicePlugins m !! _) as [plugin|]; [|by intros [= <-]]);
    unfold newDevice; mrun;
    (destruct (setupDevice _ _) as [[s m2]|] eqn:Hsetup; [|done]);
    destruct s; unfold pairingAppend, deleteDevice; mrun.
  all: try (intros [= <-]; wired_by new_setup_wired Hgood Hsetup).
  all: destruct (storeConfiguredDevices _) as [[[] m3]|] eqn:Hstore; [|done].
  all: intros [= <-].
  all: try (apply (setUpOnce_wiring _ _ (storeConfiguredDevices_wiring _ _ _ Hstore));
            by wired_by wired_appended Hgood Hsetup).
  all: unfold storeConfiguredDevices in Hstore; rewrite bind_run in Hstore;
       cbn in Hstore;
       apply storeDevices_live with (x := fresh (dom (objects m))) in Hstore.
  all: try (apply elem_of_app; right; by left).
  all: cbn in Hstore; rewrite lookup_delete_eq in Hstore; by destruct Hstore.
Qed.

Lemma removeConfiguredDevice_setUpOnce deviceId m r m' :
  setUpOnce m → removeConfiguredDevice deviceId m = Some (r, m') → setUpOnce m'.
Proof.
  intros Hgood. unfold removeConfiguredDevice, findConfiguredDevice. mrun.
  destruct (findDeviceById _ _ _) as [[device|]|]; mrun; [|by intros [= _ <-]|done].
  unfold readDevice. mrun.
  destruct (objects m !! device) as [d|]; [|done]. mrun.
  destruct (m_devicePlugins m !! _) as [plugin|]; [|done].
  unfold unregisterTimerUser, deleteDevice. mrun.
  case_bool_decide; cbn; intros [= _ <-]; by apply wired_remove.
Qed.

Lemma slotDeviceSetupFinished_setUpOnce device status m m' :
  setUpOnce m → slotDeviceSetupFinished device status m = Some (tt, m') → setUpOnce m'.
Proof.
  intros Hgood. unfold slotDeviceSetupFinished.
  destruct device as [device|]; [|by intros [= <-]].
  unfold readDevice. rewrite bind_run.
  destruct (objects m !! device) as [d|] eqn:Hd; [|done]. cbv beta iota.
  destruct (dev_setupComplete d) eqn:Hpending; [by intros [= <-]|].
  destruct status; [|by intros [= <-]|by intros [= <-]].
  rewrite bind_run. unfold get. cbv beta iota. rewrite bind_run.
  set (step1 := if negb (bool_decide (device ∈ m_configuredDevices m)) then _ else _).
  destruct (step1 m) as [[[] m1]|] eqn:Hstep1; [|done].
  assert (setUpOnce m1 ∧ objects m1 = objects m) as (Hgood1 & Hobj1).
  { subst step1. revert Hstep1. case_bool_decide as Hin; cbn [negb].
    - by intros [= <-].
    - mrun. intros Hstore.
      pose proof (storeConfiguredDevices_wiring _ _ _ Hstore) as Hsame.
      split; [|by injection Hsame].
      apply (setUpOnce_wiring _ _ Hsame). apply wired_append; [done..|].
      cbn. by rewrite Hd. }
  destruct (m_devicePlugins m !! _) as [plugin|]; [|done].
  rewrite bind_run.
  destruct (registerTimerUser_total plugin device m1) as (m2 & -> & Hsame & Husers).
  injection Hsame as _ _ Hc2 _ _ _ _ Ho2 _ Hk2 _.
  unfold writeDevice, readDevice. mrun. rewrite Ho2, Hobj1, Hd. mrun.
  intros [= <-]. unfold setUpOnce. cbn. rewrite Hc2, Hk2, <- Hobj1.
  eapply wired_setup; [exact Hgood1 | by rewrite Hobj1 | done |].
  right. split; [done|]. split; [|done]. rewrite Husers.
  destruct (testFlag _ _); auto.
Qed.

Lemma run_setUpOnce qt c m m' :
  setUpOnce m → run qt c m = Some (tt, m') → setUpOnce m'.
Proof.
  intros Hgood. destruct c; cbn [run].
  - unfold loadConfiguredDevices. mrun. by apply loadDevices_setUpOnce.
  - intros [r Hrun]%discard_Some. revert Hrun. unfold addConfiguredDevice. mrun.
    destruct (negb _); [by intros [= _ <-]|].
    destruct (testFlag _ _); [|by intros [= _ <-]].
    by apply addConfiguredDeviceInternal_setUpOnce.
  - intros [r Hrun]%discard_Some. revert Hrun. unfold addDiscoveredDevice. mrun.
    destruct (negb (dc_isValid _)); [by intros [= _ <-]|].
    destruct (negb (testFlag _ _)); [by intros [= _ <-]|]. mrun.
    destruct (negb (dd_isValid _)); [by intros [= _ <-]|].
    by apply addConfiguredDeviceInternal_setUpOnce.
  - apply setUpOnce_frame; [|done]. apply preserves_discard; [apply _|].
    apply discoverDevices_preserves; same.
  - apply setUpOnce_frame; [|done]. apply preserves_discard; [apply _|].
    apply pairDeviceParams_preserves; same.
  - apply setUpOnce_frame; [|done]. apply preserves_discard; [apply _|].
    apply pairDevice_preserves; same.
  - apply setUpOnce_frame; [|done]. apply preserves_discard; [apply _|].
    apply confirmPairing_preserves; same.
  - intros [r Hrun]%discard_Some. by eapply removeConfiguredDevice_setUpOnce.
  - apply setUpOnce_frame; [|done]. apply slotDevicesDiscovered_preserves; same.
  - by apply slotDeviceSetupFinished_setUpOnce.
  - by apply slotPairingFinished_setUpOnce.
  - unfold autoDevicesAppeared. mrun.
    destruct (negb _); [by intros [= <-]|].
    destruct (m_devicePlugins m !! _); [|by intros [= <-]].
    by apply autoDevices_loop_setUpOnce.
  - apply setUpOnce_frame; [|done]. apply Device_stateValueChanged_preserves; same.
  - mrun. destruct (m_pluginTimerActive m); [|by intros [= <-]].
    apply setUpOnce_frame; [|done]. apply timerEvent_preserves; same.
  - mrun. destruct (queuedTimerEvents m); [by intros [= <-]|]. mrun.
    intros Hrun.
    eapply setUpOnce_frame; [apply timerEvent_preserves; same| |exact Hrun]. done.
  - apply setUpOnce_frame; [|done]. apply radio433SignalReceived_preserves; same.
Qed.


Lemma reachable_setUpOnce qt classes plugins stored m :
  reachable qt (initial classes plugins stored) m → setUpOnce m.
Proof.
  induction 1 as [|m c m' _ IH Hrun]; [|by eapply run_setUpOnce].
  repeat split; cbn; try apply NoDup_nil_2; try (by intros ?%elem_of_nil);
    try (by intros ? ?%elem_of_nil).
  unfold setUp. intros (d & Hd & _). by rewrite lookup_empty in Hd.
Qed.

(** X20.  In every state the manager reaches, no device is twice among
    the configured devices, the timer users or the connected devices;
    every timer user is a live object whose setup is complete; and the
    connected devices are exactly the live objects whose setup is
    complete: a device is set up, connected and registered for the timer
    at most once. *)
Theorem reachable_set_up_once qt classes plugins stored m :
  reachable qt (initial classes plugins stored) m →
  NoDup (m_configuredDevices m)
  ∧ NoDup (m_pluginTimerUsers m)
  ∧ NoDup (connections m)
  ∧ (∀ device, device ∈ m_pluginTimerUsers m → setUp (objects m) device)
  ∧ (∀ device, device ∈ connections m ↔ setUp (objects m) device).
Proof.
  intros (? & ? & ? & _ & ? & ?)%reachable_setUpOnce. done.
Qed.

(** ** Storing and loading the configured devices *)

Lemma storeDevices_run devices m :
  (∀ device, device ∈ devices → is_Some (objects m !! device)) →
  ∃ ds, Forall2 (λ device d, objects m !! device = Some d) devices ds
        ∧ storeDevices devices m = Some (tt, set_settings (storeAll ds) m).
Proof.
  revert m. induction devices as [|x xs IH]; intros m Hlive; cbn [storeDevices].
  - exists []. split; [constructor|]. by destruct m.
  - destruct (Hlive x) as [d Hd]; [left|].
    unfold readDevice. rewrite bind_run, Hd. mrun.
    edestruct IH as (ds & Hds & ->).
    { intros y Hy. cbn. apply Hlive. by right. }
    exists (d :: ds). split; [by constructor|]. done.
Qed.

Lemma storeAll_other ds s id :
  id ∉ dev_id <$> ds → storeAll ds s !! id = s !! id.
Proof.
  revert s. induction ds as [|d ds IH]; intros s Hid; cbn; [done|].
  rewrite fmap_cons, not_elem_of_cons in Hid. destruct Hid as [Hne Hid].
  unfold storeAll in IH. rewrite IH by done. unfold storeDevice.
  by rewrite lookup_insert_ne.
Qed.

Lemma storeAll_last before d after s :
  dev_id d ∉ dev_id <$> after →
  storeAll (before ++ d :: after) s !! dev_id d
  = Some (mkStored (dev_name d) (dev_deviceClassId d) (dev_pluginId d)
            (foldl (λ ps p, <[param_name p := param_value p]> ps)
                   (default ∅ (sd_params <$> storeAll before s !! dev_id d))
                   (dev_params d))).
Proof.
  intros Hlast. unfold storeAll. rewrite foldl_app. cbn [foldl].
  fold (storeAll before s). fold (storeAll after (storeDevice d (storeAll before s))).
  rewrite storeAll_other by done. unfold storeDevice. apply lookup_insert_eq.
Qed.

Lemma Forall2_split_at {A B} (R : A → B → Prop) before x after ys :
  Forall2 R (before ++ x :: after) ys →
  ∃ before' y after',
    ys = before' ++ y :: after'
    ∧ Forall2 R before before' ∧ R x y ∧ Forall2 R after after'.
Proof.
  intros (before' & rest & Hb & Hrest & ->)%Forall2_app_inv_l.
  apply Forall2_cons_inv_l in Hrest as (y & after' & Hy & Ha & ->).
  by exists before', y, after'.
Qed.

Lemma ids_of_stored (objs : gmap nat Device) devices ds id :
  Forall2 (λ device d, objs !! device = Some d) devices ds →
  (∀ x dx, x ∈ devices → objs !! x = Some dx → dev_id dx ≠ id) →
  id ∉ dev_id <$> ds.
Proof.
  induction 1 as [|x d xs ds Hd _ IH]; intros Hno; cbn; [by intros ?%elem_of_nil|].
  intros [E | Hin]%elem_of_cons.
  - by apply (Hno x d); [left| |].
  - apply IH; [|done]. intros y dy Hy. apply Hno. by right.
Qed.

(** X21.  While every configured device is a live object,
    [storeConfiguredDevices] returns and writes the settings only.  The
    group of an id no configured device has is as it was.  For a
    configured device whose id no later configured device has, the group
    of its id holds its name, class id and plugin id, and under each param
    name the value of the last param of that name; when the group is new,
    no earlier device has the id and the param names are distinct, the
    group holds the params of the device and no other. *)
Theorem storeConfiguredDevices_stores m :
  live m →
  ∃ m',
    storeConfiguredDevices m = Some (tt, m')
    ∧ (∃ stored, m' = set_settings (λ _, stored) m)
    ∧ (∀ id, idUnused m id → settings m' !! id = settings m !! id)
    ∧ (∀ before device after d,
         m_configuredDevices m = before ++ device :: after →
         objects m !! device = Some d →
         (∀ x dx, x ∈ after → objects m !! x = Some dx → dev_id dx ≠ dev_id d) →
         ∃ sd,
           settings m' !! dev_id d = Some sd
           ∧ sd_devicename sd = dev_name d
           ∧ sd_deviceClassId sd = dev_deviceClassId d
           ∧ sd_pluginid sd = dev_pluginId d
           ∧ (∀ earlier p later,
                dev_params d = earlier ++ p :: later →
                param_name p ∉ param_name <$> later →
                sd_params sd !! param_name p = Some (param_value p))
           ∧ (settings m !! dev_id d = None →
              (∀ x dx, x ∈ before → objects m !! x = Some dx → dev_id dx ≠ dev_id d) →
              NoDup (param_name <$> dev_params d) →
              storedParams sd ≡ₚ dev_params d)).
Proof.
  intros Hlive. unfold storeConfiguredDevices. rewrite bind_run. unfold get.
  cbv beta iota.
  destruct (storeDevices_run (m_configuredDevices m) m Hlive) as (ds & Hds & ->).
  eexists. split; [done|]. split; [|split].
  - eexists. by destruct m.
  - intros id Hunused. cbn. apply storeAll_other.
    by eapply ids_of_stored.
  - intros before device after d Hlist Hd Hafter. rewrite Hlist in Hds.
    apply Forall2_split_at in Hds as (before' & d' & after' & -> & Hb & Hd' & Ha).
    rewrite Hd in Hd'. injection Hd' as <-.
    eexists. cbn. split.
    { apply storeAll_last. by eapply ids_of_stored. }
    cbn. repeat split.
    + intros earlier p later -> Hlast.
      by apply (insert_loop_last param_name param_value).
    + intros Hnone Hbefore Hnames.
      rewrite storeAll_other by by eapply ids_of_stored.
      rewrite Hnone. cbn. unfold storedParams, allKeys. cbn.
      rewrite merge_sort_Permutation.
      rewrite (insert_loop_fresh param_name param_value) by done.
      rewrite map_to_list_empty. cbn. rewrite <- list_fmap_compose.
      rewrite <- (list_fmap_id (dev_params d)) at 2.
      apply Permutation_refl'. apply list_fmap_ext. by intros _ [] _.
Qed.

Lemma loadDevices_identities stored m :
  live m →
  ∃ m', loadDevices stored m = Some (tt, m')
        ∧ live m'
        ∧ identities m' = identities m ++ (Some ∘ storedIdentity <$> stored).
Proof.
  revert m. induction stored as [|[id sd] rest IH]; intros m Hlive; cbn [loadDevices].
  - exists m. split; [done|]. split; [done|]. by rewrite app_nil_r.
  - unfold newDevice. mrun.
    set (device := fresh (dom (objects m))).
    set (new := Device_new (sd_pluginid sd) id (sd_deviceClassId sd) (sd_devicename sd)
                           (storedParams sd)).
    set (m1 := mkManager _ _ _ _ _ _ _ _ _ _ _ _ _ _ _).
    destruct (setupDevice_total device m1) as (s & m2 & Hsetup).
    { cbn. rewrite lookup_insert_eq. by eexists. }
    rewrite Hsetup. mrun.
    set (m3 := mkManager _ _ _ _ _ _ _ _ _ _ _ _ _ _ _).
    assert (m_configuredDevices m2 = m_configuredDevices m) as Hc2
      by apply (setupDevice_configuredDevices _ _ _ _ Hsetup).
    assert (∀ x, deviceIdentity <$> objects m2 !! x
                 = deviceIdentity <$> (<[device := new]> (objects m)) !! x) as Hids.
    { intros x. apply (setupDevice_identity _ _ _ _ x Hsetup). }
    assert (device ∉ m_configuredDevices m) as Hfresh by by apply fresh_not_configured.
    destruct (IH m3) as (m' & -> & Hlive' & Hids').
    { intros x. subst m3. cbn. rewrite Hc2. intros Hx.
      apply (fmap_is_Some deviceIdentity). rewrite (Hids x).
      apply fmap_is_Some, lookup_insert_is_Some'.
      apply elem_of_app in Hx as [Hx | ->%list_elem_of_singleton]; auto. }
    exists m'. split; [done|]. split; [done|]. rewrite Hids'.
    cbn [fmap list_fmap]. rewrite (cons_middle _ (identities m)), app_assoc. f_equal.
    unfold identities. subst m3. cbn [m_configuredDevices objects].
    rewrite Hc2, fmap_app. f_equal.
    + apply list_fmap_ext. intros _ x Hx%list_elem_of_lookup_2. rewrite (Hids x).
      rewrite lookup_insert_ne; [done|]. by intros <-.
    + cbn. rewrite (Hids device), lookup_insert_eq. done.
Qed.

#[global] Instance groupLe_total : Total groupLe.
Proof. intros a b. unfold groupLe. lia. Qed.

#[global] Instance keyLe_total : Total keyLe.
Proof.
  intros a b. unfold keyLe. destruct (String.leb_total a.1 b.1) as [-> | ->]; auto.
Qed.

(** X22.  [loadConfiguredDevices] on the manager as constructed returns;
    the configured devices are then live objects, one per group of the
    settings, in ascending order of the group ids as
    [QSettings::childGroups] lists them, each with the id of its group,
    the plugin id, class id and name stored in it, and one param per key
    of the group, in ascending order of the keys as [QSettings::allKeys]
    lists them, whether or not its setup succeeded; and the settings are
    as they were. *)
Theorem loadConfiguredDevices_restores_groups classes plugins stored :
  ∃ m',
    loadConfiguredDevices (initial classes plugins stored) = Some (tt, m')
    ∧ identities m' = (Some ∘ storedIdentity <$> childGroups stored)
    ∧ settings m' = stored
    ∧ childGroups stored ≡ₚ map_to_list stored
    ∧ Sorted (λ a b, (a.1 ≤ b.1)%N) (childGroups stored)
    ∧ ∀ sd,
        (λ p, (param_name p, param_value p)) <$> storedParams sd
        ≡ₚ map_to_list (sd_params sd)
        ∧ Sorted (λ p q, String.leb (param_name p) (param_name q) = true)
                 (storedParams sd).
Proof.
  unfold loadConfiguredDevices. rewrite bind_run. unfold get. cbv beta iota.
  destruct (loadDevices_identities (childGroups stored) (initial classes plugins stored))
    as (m' & Hrun & _ & Hids).
  { by intros x ?%elem_of_nil. }
  exists m'. cbn [settings initial] in *. rewrite Hrun. split; [done|]. split; [done|].
  split; [by apply (loadDevices_preserves (sameOn settings)) in Hrun; [|same..]|].
  split; [apply merge_sort_Permutation|].
  split; [exact (Sorted_merge_sort groupLe (map_to_list stored))|].
  intros sd. unfold storedParams. split.
  - rewrite <- list_fmap_compose.
    rewrite (list_fmap_ext _ id (allKeys (sd_params sd))) by (by intros _ [] _).
    rewrite list_fmap_id. apply merge_sort_Permutation.
  - apply (Sorted_fmap _ keyLe); [|apply Sorted_merge_sort, _].
    intros a b. unfold keyLe. cbn. apply Is_true_true_1.
Qed.

(** ** Devices that appear by themselves *)

Lemma autoDevices_loop_identities plugin deviceClass deviceClassId descriptors m :
  live m →
  ∃ m',
    autoDevices_loop plugin deviceClass deviceClassId descriptors m = Some (tt, m')
    ∧ live m'
    ∧ identities m'
      = identities m
        ++ (Some ∘ deviceIdentity ∘ autoDevice plugin deviceClass deviceClassId
              <$> filter (λ entry,
                            setupAnswer m (autoDevice plugin deviceClass
                                                      deviceClassId entry)
                            = DeviceSetupStatusSuccess)
                         descriptors).
Proof.
  revert m. induction descriptors as [|[descriptor newId] rest IH]; intros m Hlive;
    cbn [autoDevices_loop].
  - exists m. split; [done|]. split; [done|]. by rewrite app_nil_r.
  - unfold newDevice. mrun.
    set (device := fresh (dom (objects m))).
    set (new := Device_new _ _ _ _ _).
    set (m1 := mkManager _ _ _ _ _ _ _ _ _ _ _ _ _ _ _).
    destruct (setupDevice_total device m1) as (s & m2 & Hsetup).
    { cbn. rewrite lookup_insert_eq. by eexists. }
    rewrite Hsetup.
    assert (m_configuredDevices m2 = m_configuredDevices m) as Hc2
      by apply (setupDevice_configuredDevices _ _ _ _ Hsetup).
    assert (∀ x, deviceIdentity <$> objects m2 !! x
                 = deviceIdentity <$> (<[device := new]> (objects m)) !! x) as Hids.
    { intros x. apply (setupDevice_identity _ _ _ _ x Hsetup). }
    assert (sameOn (λ m, (m_supportedDevices m, m_devicePlugins m)) m m2) as Hcat.
    { by apply (setupDevice_preserves
                  (sameOn (λ m, (m_supportedDevices m, m_devicePlugins m))))
        in Hsetup; [|same..]. }
    assert (device ∉ m_configuredDevices m) as Hfresh by by apply fresh_not_configured.
    assert (s = setupAnswer m new) as Hs.
    { apply setupDevice_outcome in Hsetup as (d0 & _ & Hd0 & -> & _).
      cbn in Hd0. rewrite lookup_insert_eq in Hd0. by injection Hd0 as <-. }
    assert (∀ x, x ∈ m_configuredDevices m →
                 deviceIdentity <$> objects m2 !! x = deviceIdentity <$> objects m !! x) as Hold.
    { intros x Hx. rewrite (Hids x), lookup_insert_ne; [done|]. by intros <-. }
    assert (∀ m3,
              live m3 →
              sameOn (λ m, (m_supportedDevices m, m_devicePlugins m)) m m3 →
              identities m3
              = identities m
                ++ (if bool_decide (s = DeviceSetupStatusSuccess)
                    then [Some (deviceIdentity new)] else []) →
              ∃ m',
                autoDevices_loop plugin deviceClass deviceClassId rest m3 = Some (tt, m')
                ∧ live m'
                ∧ identities m'
                  = identities m
                    ++ (Some ∘ deviceIdentity ∘ autoDevice plugin deviceClass deviceClassId
                          <$> filter (λ entry,
                                        setupAnswer m (autoDevice plugin deviceClass
                                                                  deviceClassId entry)
                                        = DeviceSetupStatusSuccess)
                                     ((descriptor, newId) :: rest))) as Hnext.
    { intros m3 Hlive3 Hcat3 Hids3.
      destruct (IH m3 Hlive3) as (m' & Hrun & Hlive' & Hids').
      exists m'. split; [done|]. split; [done|]. rewrite Hids', Hids3.
      rewrite filter_cons.
      change (autoDevice plugin deviceClass deviceClassId (descriptor, newId)) with new.
      rewrite <- Hs.
      rewrite <- app_assoc. f_equal.
      assert (filter (λ entry, setupAnswer m3 (autoDevice plugin deviceClass
                                                  deviceClassId entry)
                              = DeviceSetupStatusSuccess) rest
              = filter (λ entry, setupAnswer m (autoDevice plugin deviceClass
                                                  deviceClassId entry)
                              = DeviceSetupStatusSuccess) rest) as ->.
      { apply list_filter_iff. intros entry. by rewrite (setupAnswer_same m m3). }
      case_bool_decide as Hsuccess.
      - by rewrite decide_True.
      - by rewrite decide_False. }
    destruct s; mrun.
    + unfold storeConfiguredDevices. mrun.
      edestruct (storeDevices_total (m_configuredDevices m2 ++ [device])) as [m3 Hstore].
      2:{ rewrite Hstore.
          pose proof (storeDevices_settings_only _ _ _ _ Hstore) as Hsame.
          injection Hsame as Hsd Hdp Hc3 _ _ _ _ _ _ Ho3 _ _ _. cbn in Hsd, Hdp, Hc3, Ho3.
          apply Hnext.
          - intros x. rewrite Hc3, Ho3, Hc2. intros Hx.
            apply (fmap_is_Some deviceIdentity). rewrite (Hids x).
            apply fmap_is_Some, lookup_insert_is_Some'.
            apply elem_of_app in Hx as [Hx | ->%list_elem_of_singleton]; auto.
          - injection Hcat as Hs2 Hp2. unfold sameOn. congruence.
          - rewrite bool_decide_true by done. unfold identities.
            rewrite Hc3, Ho3, Hc2, fmap_app. f_equal.
            + apply list_fmap_ext. intros _ x Hx%list_elem_of_lookup_2. by apply Hold.
            + cbn. by rewrite (Hids device), lookup_insert_eq. }
      cbn. rewrite Hc2.
      intros x Hx. apply (fmap_is_Some deviceIdentity). rewrite (Hids x).
      apply fmap_is_Some, lookup_insert_is_Some'.
      apply elem_of_app in Hx as [Hx | ->%list_elem_of_singleton]; auto.
    + unfold deleteDevice. mrun. apply Hnext.
      * intros x. cbn. rewrite Hc2. intros Hx. apply lookup_delete_is_Some.
        split; [by intros <-|]. apply (fmap_is_Some deviceIdentity). rewrite (Hold x Hx).
        by apply fmap_is_Some, Hlive.
      * injection Hcat as Hs2 Hp2. unfold sameOn. cbn. congruence.
      * rewrite bool_decide_false by done. rewrite app_nil_r. unfold identities. cbn.
        rewrite Hc2. apply list_fmap_ext. intros _ x Hx%list_elem_of_lookup_2.
        rewrite lookup_delete_ne by (by intros <-). by apply Hold.
    + apply Hnext.
      * intros x. rewrite Hc2. intros Hx. apply (fmap_is_Some deviceIdentity).
        rewrite (Hold x Hx). by apply fmap_is_Some, Hlive.
      * done.
      * rewrite bool_decide_false by done. rewrite app_nil_r. unfold identities.
        rewrite Hc2. apply list_fmap_ext. intros _ x Hx%list_elem_of_lookup_2.
        by apply Hold.
Qed.

(** X23.  While every configured device is a live object,
    [autoDevicesAppeared] returns.  With an invalid class or without a
    loaded plugin for the class, nothing changes.  Otherwise the configured
    devices are the ones before, followed by one device for each
    descriptor whose setup the plugin answers with Success, in the order
    of the descriptors, each with the plugin id, the id drawn for it, the
    class id, the name of the class and the params of its descriptor;
    descriptors whose setup fails or is async add no configured device. *)
Theorem autoDevicesAppeared_configures_what_sets_up m deviceClassId descriptors :
  live m →
  let deviceClass := findDeviceClass m deviceClassId in
  ∃ m',
    autoDevicesAppeared deviceClassId descriptors m = Some (tt, m')
    ∧ match m_devicePlugins m !! dc_pluginId deviceClass with
      | Some plugin =>
          if dc_isValid deviceClass then
            identities m'
            = identities m
              ++ (Some ∘ deviceIdentity ∘ autoDevice plugin deviceClass deviceClassId
                    <$> filter (λ entry,
                                  setupAnswer m (autoDevice plugin deviceClass
                                                            deviceClassId entry)
                                  = DeviceSetupStatusSuccess)
                               descriptors)
          else m' = m
      | None => m' = m
      end.
Proof.
  intros Hlive deviceClass. unfold autoDevicesAppeared. mrun. fold deviceClass.
  destruct (dc_isValid deviceClass); cbn [negb].
  - destruct (m_devicePlugins m !! _) as [plugin|]; [|by eexists].
    destruct (autoDevices_loop_identities plugin deviceClass deviceClassId descriptors
                m Hlive) as (m' & Hrun & _ & Hids).
    by exists m'.
  - exists m. split; [done|]. by destruct (m_devicePlugins m !! _).
Qed.

(** ** Adding a device, and removing it again *)

Lemma findDeviceById_unused objs devices id :
  findDeviceById objs devices id = Some None →
  ∀ x, x ∈ devices → ∃ dx, objs !! x = Some dx ∧ dev_id dx ≠ id.
Proof.
  induction devices as [|y ys IH]; cbn; [by intros _ x ?%elem_of_nil|].
  destruct (objs !! y) as [dy|] eqn:Hy; [|done].
  destruct (N.eqb_spec (dev_id dy) id) as [|Hne]; [done|].
  intros Hrest x [-> | Hx]%elem_of_cons; [by exists dy | by apply IH].
Qed.

Lemma findDeviceById_appended objs devices id device d :
  findDeviceById objs devices id = Some None →
  device ∉ devices →
  dev_id d = id →
  findDeviceById (<[device := d]> objs) (devices ++ [device]) id = Some (Some device).
Proof.
  intros Hnone Hnot Hid. induction devices as [|y ys IH]; cbn.
  - by rewrite lookup_insert_eq, Hid, N.eqb_refl.
  - apply not_elem_of_cons in Hnot as [Hne Hnot]. cbn in Hnone.
    rewrite lookup_insert_ne by done.
    destruct (objs !! y) as [dy|]; [|done].
    destruct (N.eqb (dev_id dy) id); [done|]. by apply IH.
Qed.

(** What a successful [addConfiguredDeviceInternal] has done. *)
Lemma addConfiguredDeviceInternal_success qt deviceClassId params id m m1 :
  addConfiguredDeviceInternal qt deviceClassId params id m
  = Some (DeviceErrorNoError, m1) →
  let deviceClass := findDeviceClass m deviceClassId in
  let device := fresh (dom (objects m)) in
  ∃ plugin effective,
    verifyParams qt (dc_paramTypes deviceClass) params true
    = (DeviceErrorNoError, effective)
    ∧ findDeviceById (objects m) (m_configuredDevices m) id = Some None
    ∧ m_devicePlugins m !! dc_pluginId deviceClass = Some plugin
    ∧ m_devicePlugins m1 = m_devicePlugins m
    ∧ m_configuredDevices m1 = m_configuredDevices m ++ [device]
    ∧ objects m1
      = <[device := Device_setupCompleted
                      (Device_setStates (defaultStates deviceClass id)
                         (Device_new (plugin_pluginId plugin) id deviceClassId
                                     (dc_name deviceClass) effective))]>
          (objects m)
    ∧ connections m1 = connections m ++ [device]
    ∧ m_pluginTimerUsers m1
      = (if testFlag (plugin_requiredHardware plugin) HardwareResourceTimer
         then m_pluginTimerUsers m ++ [device] else m_pluginTimerUsers m)
    ∧ m_pluginTimerActive m1
      = (if testFlag (plugin_requiredHardware plugin) HardwareResourceTimer
         then true else m_pluginTimerActive m)
    ∧ trace m1 = trace m ++ [CallSetupDevice (plugin_addr plugin) device]
    ∧ ∃ ds, Forall2 (λ x dx, objects m1 !! x = Some dx) (m_configuredDevices m1) ds
            ∧ settings m1 = storeAll ds (settings m).
Proof.
  intros Hrun deviceClass device. revert Hrun.
  unfold addConfiguredDeviceInternal, requireAll_default. mrun. fold deviceClass.
  destruct (uuid_isNull _); [done|].
  case_bool_decide; [done|].
  destruct (verifyParams _ _ _ _) as [result effective].
  case_bool_decide as Hresult; [by intros [= -> _]|]. subst result.
  unfold findConfiguredDevice. mrun.
  destruct (findDeviceById _ _ _) as [[dup|]|] eqn:Hfind; mrun; [done| |done].
  destruct (m_devicePlugins m !! _) as [plugin|] eqn:Hplugin; [|done].
  unfold newDevice. mrun. fold device.
  set (new := Device_new _ _ _ _ _).
  set (m0 := mkManager _ _ _ _ _ _ _ _ _ _ _ _ _ _ _).
  destruct (setupDevice device m0) as [[s m2]|] eqn:Hsetup; [|done].
  destruct s; mrun; [|unfold deleteDevice; mrun; done|done].
  apply (setupDevice_success device m0 new) in Hsetup as (plugin' & Hplugin' & Hsame & Ho & Hk & Hu & Ha & Ht);
    [|apply lookup_insert_eq].
  change (findDeviceClass m0 (dev_deviceClassId new)) with deviceClass in *.
  change (m_devicePlugins m0) with (m_devicePlugins m) in Hplugin'.
  rewrite Hplugin in Hplugin'. injection Hplugin' as <-.
  injection Hsame as _ Hdp Hc _ _ _ _ Hset.
  subst m0. cbn in Hdp, Hc, Hset, Ho, Hk, Hu, Ha, Ht.
  rewrite insert_insert_eq in Ho.
  unfold storeConfiguredDevices. mrun.
  destruct (storeDevices _ _) as [[[] m3]|] eqn:Hstore; [|done].
  intros [= <-]. exists plugin, effective.
  pose proof (storeDevices_live _ _ _ Hstore) as Hlive.
  destruct (storeDevices_run _ _ Hlive) as (ds & Hds & Hstore').
  rewrite Hstore' in Hstore. injection Hstore as <-. cbn in *.
  rewrite Hdp, Hc, Ho, Hk, Hu, Ha, Ht, Hset.
  repeat split; try done.
  exists ds. split; [|done]. by rewrite <- Ho, <- Hc.
Qed.

Lemma removeAllDevice_appended device devices :
  device ∉ devices → removeAllDevice device (devices ++ [device]) = devices.
Proof.
  intros Hnot. unfold removeAllDevice. rewrite filter_app.
  fold (removeAllDevice device devices). rewrite removeAllDevice_absent by done.
  rewrite filter_cons, decide_False by (by intros Hne). by rewrite app_nil_r.
Qed.

(** X24.  When [addConfiguredDevice] answers NoError, the params passed
    verification against the schema of the class, no configured device had
    the id, and the plugin of the class is loaded; exactly one device was
    created, at a fresh address, and appended last to the configured
    devices; it has the plugin id, the id, the class id, the name of the
    class, the verified params with their defaults, the default states of
    the class, and its setup is complete; the plugin was asked to set it
    up once and nothing else was called or emitted; and the group of the
    id in the settings holds its name, class id, plugin id and params. *)
Theorem addConfiguredDevice_success qt deviceClassId params id m m1 :
  addConfiguredDevice qt deviceClassId params id m = Some (DeviceErrorNoError, m1) →
  let deviceClass := findDeviceClass m deviceClassId in
  let device := fresh (dom (objects m)) in
  ∃ plugin effective d sd,
    verifyParams qt (dc_paramTypes deviceClass) params true
    = (DeviceErrorNoError, effective)
    ∧ idUnused m id
    ∧ m_devicePlugins m !! dc_pluginId deviceClass = Some plugin
    ∧ objects m !! device = None
    ∧ objects m1 = <[device := d]> (objects m)
    ∧ m_configuredDevices m1 = m_configuredDevices m ++ [device]
    ∧ deviceIdentity d
      = (plugin_pluginId plugin, id, deviceClassId, dc_name deviceClass, effective)
    ∧ dev_states d = defaultStates deviceClass id
    ∧ dev_setupComplete d = true
    ∧ trace m1 = trace m ++ [CallSetupDevice (plugin_addr plugin) device]
    ∧ settings m1 !! id = Some sd
    ∧ sd_devicename sd = dc_name deviceClass
    ∧ sd_deviceClassId sd = deviceClassId
    ∧ sd_pluginid sd = plugin_pluginId plugin
    ∧ ∀ earlier p later,
        effective = earlier ++ p :: later →
        param_name p ∉ param_name <$> later →
        sd_params sd !! param_name p = Some (param_value p).
Proof.
  intros Hrun deviceClass device.
  assert (addConfiguredDeviceInternal qt deviceClassId params id m
          = Some (DeviceErrorNoError, m1)) as Hinternal.
  { revert Hrun. unfold addConfiguredDevice. mrun.
    destruct (negb _); [done|]. by destruct (testFlag _ _). }
  apply addConfiguredDeviceInternal_success in Hinternal
    as (plugin & effective & Hverify & Hfind & Hplugin & _ & Hc & Ho & _ & _ & _ & Ht
        & ds & Hds & Hset).
  fold deviceClass device in Hverify, Hplugin, Hc, Ho, Ht.
  rewrite Hc in Hds.
  apply Forall2_split_at in Hds as (before' & d & after' & -> & Hbefore & Hd & Hafter).
  apply Forall2_nil_inv_l in Hafter as ->.
  rewrite Ho, lookup_insert_eq in Hd. injection Hd as <-.
  eexists plugin, effective, _, _.
  split; [done|]. split.
  { intros x dx Hx Hdx. destruct (findDeviceById_unused _ _ _ Hfind x Hx) as (dx' & Hdx' & ?).
    congruence. }
  split; [done|]. split.
  { apply not_elem_of_dom, is_fresh. }
  split; [exact Ho|]. split; [done|]. split; [done|]. split; [done|]. split; [done|].
  split; [done|]. split.
  { rewrite Hset.
    match goal with
    | |- storeAll (_ ++ [?d]) _ !! _ = _ => apply (storeAll_last before' d [])
    end.
    apply not_elem_of_nil. }
  cbn. repeat split.
  intros earlier p later -> Hlast.
  by apply (insert_loop_last param_name param_value).
Qed.

(** X25.  In a state the manager reaches, with the plugins keyed by their
    ids: after [addConfiguredDevice] answers NoError,
    [removeConfiguredDevice] with the same id answers NoError and undoes
    it: the configured devices, the timer users, the timer, the
    connections and the device objects are as before the device was added,
    and the settings hold no group for the id. *)
Theorem addConfiguredDevice_then_remove qt classes plugins stored m
        deviceClassId params id m1 :
  reachable qt (initial classes plugins stored) m →
  pluginsKeyedById plugins →
  addConfiguredDevice qt deviceClassId params id m = Some (DeviceErrorNoError, m1) →
  ∃ m2,
    removeConfiguredDevice id m1 = Some (DeviceErrorNoError, m2)
    ∧ m_configuredDevices m2 = m_configuredDevices m
    ∧ m_pluginTimerUsers m2 = m_pluginTimerUsers m
    ∧ m_pluginTimerActive m2 = m_pluginTimerActive m
    ∧ connections m2 = connections m
    ∧ objects m2 = objects m
    ∧ settings m2 !! id = None.
Proof.
  intros Hreach Hkeyed Hrun.
  destruct (reachable_consistent _ _ _ _ _ Hreach) as [Hlive Husers].
  pose proof (reachable_setUpOnce _ _ _ _ _ Hreach) as Hwired.
  assert (TimerInv m) as Hinv.
  { apply (reachable_TimerInv _ _ _ Hreach). by split. }
  assert (m_devicePlugins m = plugins) as Hplugins.
  { clear -Hreach. induction Hreach as [|m c m' _ IH Hstep]; [done|].
    by rewrite (run_devicePlugins _ _ _ _ _ Hstep). }
  assert (addConfiguredDeviceInternal qt deviceClassId params id m
          = Some (DeviceErrorNoError, m1)) as Hinternal.
  { revert Hrun. unfold addConfiguredDevice. mrun.
    destruct (negb _); [done|]. by destruct (testFlag _ _). }
  apply addConfiguredDeviceInternal_success in Hinternal
    as (plugin & effective & _ & Hfind & Hplugin & Hdp & Hc & Ho & Hk & Hu & Ha & _ & _).
  set (device := fresh (dom (objects m))) in *.
  destruct (wired_fresh _ _ _ _ Hwired) as (Hnc & Hnu & Hnk). fold device in Hnc, Hnu, Hnk.
  assert (findConfiguredDevice id m1 = Some (Some device, m1)) as Hfound.
  { unfold findConfiguredDevice.
    by rewrite Hc, Ho, (findDeviceById_appended _ _ id device). }
  unfold removeConfiguredDevice. rewrite bind_run, Hfound.
  unfold readDevice. mrun. rewrite Ho, lookup_insert_eq. mrun.
  rewrite Hdp. rewrite Hplugins in Hplugin |- *.
  rewrite (Hkeyed _ _ Hplugin), Hplugin.
  unfold unregisterTimerUser, deleteDevice. mrun.
  rewrite Hc, Hk, Hu, Ha, !removeAllDevice_appended by done.
  assert (removeAllDevice device
            (if testFlag (plugin_requiredHardware plugin) HardwareResourceTimer
             then m_pluginTimerUsers m ++ [device] else m_pluginTimerUsers m)
          = m_pluginTimerUsers m) as ->.
  { destruct (testFlag _ _); [by apply removeAllDevice_appended|].
    by apply removeAllDevice_absent. }
  assert (∀ d, delete device (<[device := d]> (objects m)) = objects m) as Hback.
  { intros d. apply delete_insert_id. apply not_elem_of_dom, is_fresh. }
  case_bool_decide as Hempty; cbn; eexists; (split; [reflexivity|]); cbn;
    rewrite Hback, lookup_delete_eq; repeat split; try done;
    try (by apply removeAllDevice_appended).
  - symmetry. apply not_true_is_false. intros Hactive. by apply Hinv in Hactive.
  - assert (m_pluginTimerActive m = true) as -> by by apply Hinv.
    by destruct (testFlag _ _).
Qed.

(** ** Actions *)

Section ActionFacts.
Variable qt : QVariantOps.
Variable actionTypes : DeviceClass → list ActionType.

Lemma checkActionTypes_error types action finalAction found error :
  checkActionTypes qt types action finalAction found = inl error →
  error = DeviceErrorInvalidParameter ∨ error = DeviceErrorMissingParameter.
Proof.
  revert finalAction found. induction types as [|t ts IH]; intros fa found; cbn; [done|].
  destruct (N.eqb _ _); [|apply IH].
  pose proof (verifyParams_result qt (at_paramTypes t) (action_params action) true) as Hres.
  unfold requireAll_default.
  destruct (verifyParams _ _ _ _) as [check final]. cbn in Hres.
  case_bool_decide as Hcheck; [|apply IH].
  intros [= <-]. by destruct Hres as [|[|]]; auto.
Qed.

Lemma checkActionTypes_found types action finalAction found final :
  checkActionTypes qt types action finalAction found = inr (final, true) →
  (found = true ∧ final = finalAction
   ∧ ∀ t, t ∈ types → at_id t ≠ action_actionTypeId action)
  ∨ (∃ t, t ∈ types
          ∧ at_id t = action_actionTypeId action
          ∧ verifyParams qt (at_paramTypes t) (action_params action) true
            = (DeviceErrorNoError, action_params final)
          ∧ action_actionTypeId final = action_actionTypeId finalAction
          ∧ action_deviceId final = action_deviceId finalAction).
Proof.
  revert finalAction found. induction types as [|t ts IH]; intros fa found; cbn.
  - intros [= <- <-]. left. split; [done|]. split; [done|]. by intros t ?%elem_of_nil.
  - destruct (N.eqb_spec (at_id t) (action_actionTypeId action)) as [Hid|Hid].
    + unfold requireAll_default.
      destruct (verifyParams _ _ _ _) as [check params] eqn:Hverify.
      case_bool_decide as Hcheck; [done|]. subst check.
      intros [(_ & -> & Hnone) | (t' & Hin & ?)]%IH; right.
      * exists t. split; [left|]. done.
      * exists t'. split; [by right|]. done.
    + intros [(-> & -> & Hnone) | (t' & Hin & ?)]%IH.
      * left. split; [done|]. split; [done|].
        intros t' [-> | Hin]%elem_of_cons; [done | by apply Hnone].
      * right. exists t'. split; [by right|]. done.
Qed.

(** X26.  When [executeAction] hands an action to a plugin, the device is
    a configured device with the device id of the action, the plugin is
    the one the device names, the class of the device declares an action
    type with the action type id of the action, the params of the action
    passed verification against the schema of that action type, and the
    action handed over is the action with its params replaced by the
    verified ones. *)
Theorem executeAction_dispatches_verified_action action m plugin device finalAction :
  executeAction qt actionTypes action m
  = Some (ActionDispatched plugin device finalAction) →
  ∃ d actionType,
    device ∈ m_configuredDevices m
    ∧ objects m !! device = Some d
    ∧ dev_id d = action_deviceId action
    ∧ m_devicePlugins m !! dev_pluginId d = Some plugin
    ∧ actionType ∈ actionTypes (findDeviceClass m (dev_deviceClassId d))
    ∧ at_id actionType = action_actionTypeId action
    ∧ verifyParams qt (at_paramTypes actionType) (action_params action) true
      = (DeviceErrorNoError, action_params finalAction)
    ∧ action_actionTypeId finalAction = action_actionTypeId action
    ∧ action_deviceId finalAction = action_deviceId action.
Proof.
  unfold executeAction. induction (m_configuredDevices m) as [|x xs IH]; cbn; [done|].
  destruct (objects m !! x) as [d|] eqn:Hd; cbn; [|done].
  destruct (N.eqb_spec (action_deviceId action) (dev_id d)) as [Hid|Hid].
  - destruct (checkActionTypes _ _ _ _ _) as [error|[final found]] eqn:Hcheck; [done|].
    destruct found; cbn; [|done].
    destruct (m_devicePlugins m !! dev_pluginId d) as [p|] eqn:Hplugin; cbn; [|done].
    intros [= <- <- <-].
    apply checkActionTypes_found in Hcheck as [([=] & _) | (t & Hin & Ht & Hv & ? & ?)].
    exists d, t. split; [left|]. done.
  - intros (d' & t & Hin & ?)%IH. exists d', t. split; [by right | done].
Qed.

(** X27.  When [executeAction] refuses an action itself, the error is
    DeviceNotFound, ActionTypeNotFound, InvalidParameter or
    MissingParameter; and while every configured device is a live object,
    an action for an id no configured device has is refused with
    DeviceNotFound. *)
Theorem executeAction_refusals action m :
  (∀ error, executeAction qt actionTypes action m = Some (ActionRefused error) →
            error = DeviceErrorDeviceNotFound
            ∨ error = DeviceErrorActionTypeNotFound
            ∨ error = DeviceErrorInvalidParameter
            ∨ error = DeviceErrorMissingParameter)
  ∧ (live m → idUnused m (action_deviceId action) →
     executeAction qt actionTypes action m = Some (ActionRefused DeviceErrorDeviceNotFound)).
Proof.
  unfold executeAction, live, idUnused.
  induction (m_configuredDevices m) as [|x xs [IH1 IH2]]; cbn.
  { split; [intros error [= <-]; auto | done]. }
  split.
  - intros error.
    destruct (objects m !! x) as [d|] eqn:Hd; cbn; [|done].
    destruct (N.eqb (action_deviceId action) (dev_id d)); [|apply IH1].
    destruct (checkActionTypes _ _ _ _ _) as [e|[final found]] eqn:Hcheck.
    + intros [= <-]. apply checkActionTypes_error in Hcheck as [|]; auto.
    + destruct found; cbn; [|intros [= <-]; auto].
      by destruct (m_devicePlugins m !! dev_pluginId d).
  - intros Hlive Hunused. destruct (Hlive x) as [d Hd]; [left|]. rewrite Hd. cbn.
    destruct (N.eqb_spec (action_deviceId action) (dev_id d)) as [Hid|_].
    + destruct (Hunused x d); [left|done..].
    + apply IH2.
      * intros y Hy. apply Hlive. by right.
      * intros y dy Hy. apply Hunused. by right.
Qed.
End ActionFacts.

(** ** The catalogs of the plugins *)

Lemma loadVendor_wellFormed c vendor :
  catalogsWellFormed c → catalogsWellFormed (loadVendor c vendor).
Proof.
  intros (Hv & Hc & Hl). unfold loadVendor.
  case_bool_decide as Hknown; [done|]. split; [|split]; cbn.
  - intros key v [[<- <-] | [_ ?]]%lookup_insert_Some; [done | by apply Hv].
  - intros key dc Hdc. destruct (Hc key dc Hdc) as (? & ? & ?).
    repeat split; try done. apply lookup_insert_is_Some'. by right.
  - done.
Qed.

Lemma loadDeviceClass_wellFormed c deviceClass :
  catalogsWellFormed c → catalogsWellFormed (loadDeviceClass c deviceClass).
Proof.
  intros (Hv & Hc & Hl). unfold loadDeviceClass.
  case_bool_decide as Hknown; cbn [negb]; [|done]. split; [|split]; cbn.
  - done.
  - intros key dc [[<- <-] | [Hne Hdc]]%lookup_insert_Some.
    + split; [done|]. split; [done|]. rewrite lookup_insert_eq. cbn.
      apply elem_of_app. right. left.
    + destruct (Hc key dc Hdc) as (Hid & Hvendor & Hlisted).
      split; [done|]. split; [done|].
      destruct (decide (dc_vendorId deviceClass = dc_vendorId dc)) as [E|E].
      * rewrite E, lookup_insert_eq. cbn. apply elem_of_app. by left.
      * by rewrite lookup_insert_ne.
  - intros vendorId id. destruct (decide (dc_vendorId deviceClass = vendorId)) as [<-|E].
    + rewrite lookup_insert_eq. cbn.
      intros [Hin | ->%list_elem_of_singleton]%elem_of_app.
      * apply lookup_insert_is_Some'. right. by eapply Hl.
      * apply lookup_insert_is_Some'. by left.
    + rewrite lookup_insert_ne by done. intros Hin.
      apply lookup_insert_is_Some'. right. by eapply Hl.
Qed.

Lemma loadPlugins_wellFormed plugins : catalogsWellFormed (loadPlugins plugins).
Proof.
  unfold loadPlugins.
  assert (catalogsWellFormed noCatalogs) as Hstart.
  { split; [|split]; cbn; intros ? ?; try by rewrite lookup_empty.
    rewrite lookup_empty. cbn. by intros ?%elem_of_nil. }
  revert Hstart. generalize noCatalogs.
  induction plugins as [|[vendors classes] rest IH]; intros c Hc; cbn [foldl]; [done|].
  apply IH. unfold loadPlugin. cbn [fst snd].
  assert (catalogsWellFormed (foldl loadVendor c vendors)) as Hvendors.
  { clear IH. revert c Hc. induction vendors as [|v vs IHv]; intros c Hc; cbn; [done|].
    by apply IHv, loadVendor_wellFormed. }
  revert Hvendors. generalize (foldl loadVendor c vendors).
  clear. induction classes as [|dc dcs IHc]; intros c Hc; cbn; [done|].
  by apply IHc, loadDeviceClass_wellFormed.
Qed.

(** X28.  Whatever the plugins declare, once the loops of [loadPlugins]
    have run the device classes are keyed by their ids; every class is of
    a known vendor and [supportedDevices] lists it for its vendor; and
    every class [supportedDevices] lists, for any vendor id or for the
    null id, is a class of the catalog under its own id. *)
Theorem loadPlugins_catalogs plugins vendorId :
  let c := loadPlugins plugins in
  keyedById (catalog_supportedDevices c)
  ∧ (∀ key deviceClass,
       catalog_supportedDevices c !! key = Some deviceClass →
       is_Some (m_supportedVendors c !! dc_vendorId deviceClass)
       ∧ deviceClass ∈ supportedDevices c (dc_vendorId deviceClass))
  ∧ (∀ deviceClass,
       deviceClass ∈ supportedDevices c vendorId →
       catalog_supportedDevices c !! dc_id deviceClass = Some deviceClass).
Proof.
  intros c. destruct (loadPlugins_wellFormed plugins) as (Hv & Hc & Hl). fold c in Hv, Hc, Hl.
  split; [|split].
  - intros key dc Hdc. by destruct (Hc key dc Hdc).
  - intros key dc Hdc. destruct (Hc key dc Hdc) as (Hid & Hvendor & Hlisted).
    split; [done|]. unfold supportedDevices.
    destruct (uuid_isNull _).
    + apply list_elem_of_fmap. exists (key, dc). split; [done|].
      by apply elem_of_map_to_list.
    + apply list_elem_of_fmap. exists key. split; [by rewrite Hdc | done].
  - intros dc. unfold supportedDevices. destruct (uuid_isNull _).
    + intros ([key dc'] & -> & Hin%elem_of_map_to_list)%list_elem_of_fmap. cbn.
      destruct (Hc key dc' Hin) as (-> & _). done.
    + intros (id & -> & Hin)%list_elem_of_fmap.
      destruct (Hl _ _ Hin) as [dc Hdc]. rewrite Hdc. cbn.
      destruct (Hc id dc Hdc) as (-> & _). done.
Qed.


(** ** Plugin configuration *)

Section PluginConfigFacts.
Variable setConfiguration : DevicePlugin → ParamList → DeviceError.

Lemma setValue_loop group (config : ParamList) (s : gmap N (gmap string QVariant)) :
  config ≠ [] →
  foldl (λ s param,
           <[group := <[param_name param := param_value param]>
                        (default ∅ (s !! group))]> s) s config
  = <[group := foldl (λ g param, <[param_name param := param_value param]> g)
                     (default ∅ (s !! group)) config]> s.
Proof.
  revert s. induction config as [|p ps IH]; intros s Hne; [done|]. cbn [foldl].
  destruct ps as [|q qs]; [done|].
  rewrite IH by done. rewrite lookup_insert_eq. cbn [default].
  by rewrite insert_insert_eq.
Qed.

(** X29.  [setPluginConfig] answers PluginNotFound for an unknown plugin
    id.  Whenever the answer is not NoError, nothing is stored.  When it
    is NoError, the plugin is loaded and accepted the configuration; the
    groups of other plugins are as they were; the group of the plugin
    holds, under each param name, the value of the last param of that
    name; and keys of other names are as they were. *)
Theorem setPluginConfig_stores pluginId pluginConfig m pluginSettings :
  let result := (setPluginConfig setConfiguration pluginId pluginConfig m pluginSettings).1 in
  let stored := (setPluginConfig setConfiguration pluginId pluginConfig m pluginSettings).2 in
  (m_devicePlugins m !! pluginId = None → result = DeviceErrorPluginNotFound)
  ∧ (result ≠ DeviceErrorNoError → stored = pluginSettings)
  ∧ (result = DeviceErrorNoError →
     ∃ plugin,
       m_devicePlugins m !! pluginId = Some plugin
       ∧ setConfiguration plugin pluginConfig = DeviceErrorNoError
       ∧ (∀ group, group ≠ plugin_pluginId plugin →
                   stored !! group = pluginSettings !! group)
       ∧ (∀ earlier param later,
            pluginConfig = earlier ++ param :: later →
            param_name param ∉ param_name <$> later →
            stored !! plugin_pluginId plugin ≫= (.!! param_name param)
            = Some (param_value param))
       ∧ (∀ name, name ∉ param_name <$> pluginConfig →
                  stored !! plugin_pluginId plugin ≫= (.!! name)
                  = pluginSettings !! plugin_pluginId plugin ≫= (.!! name))).
Proof.
  unfold setPluginConfig.
  destruct (m_devicePlugins m !! pluginId) as [plugin|]; cbn; [|done].
  case_bool_decide as Hresult; cbn; [done|].
  split; [done|]. split; [done|]. intros _. exists plugin.
  split; [done|]. split; [done|].
  destruct (decide (pluginConfig = [])) as [->|Hne].
  { cbn. split; [done|]. split; [|done]. by intros [] ? ? ?. }
  rewrite setValue_loop by done. split; [|split].
  - intros group Hgroup. by rewrite lookup_insert_ne.
  - intros earlier param later -> Hlast. rewrite lookup_insert_eq. cbn.
    by apply (insert_loop_last param_name param_value).
  - intros name Hname. rewrite lookup_insert_eq. cbn.
    rewrite (insert_loop_other param_name param_value) by done.
    by destruct (pluginSettings !! plugin_pluginId plugin).
Qed.
End PluginConfigFacts.

(** ** The timer and the devices that are set up *)

Lemma timed_timing m m' : timing m' = timing m → timed m → timed m'.
Proof.
  unfold timing, timed, storedUnderClassPlugin, timerDevice, namesClassPlugin,
    classPlugin, requiresTimer, findDeviceClass.
  by intros [= -> -> -> -> ->].
Qed.

Lemma timed_frame {A} (c : M A) :
  preserves (sameOn timing) c →
  ∀ m a m', timed m → c m = Some (a, m') → timed m'.
Proof. intros Hc m a m' Hgood Hrun. eapply timed_timing; [by eapply Hc | done]. Qed.

Lemma requiresTimer_lookup m device :
  requiresTimer m device = true ↔
  ∃ d plugin, objects m !! device = Some d
              ∧ m_devicePlugins m !! dev_pluginId d = Some plugin
              ∧ testFlag (plugin_requiredHardware plugin) HardwareResourceTimer = true.
Proof.
  unfold requiresTimer. split.
  - destruct (objects m !! device) as [d|] eqn:Hd; [|done].
    destruct (m_devicePlugins m !! dev_pluginId d) as [plugin|] eqn:Hp; [|done].
    intros H. by exists d, plugin.
  - by intros (d & plugin & -> & -> & ->).
Qed.

Lemma timerDevice_insert m m' device d' x :
  m_devicePlugins m' = m_devicePlugins m →
  objects m' = <[device := d']> (objects m) →
  timerDevice m' x
  ↔ (x = device ∧ dev_setupComplete d' = true
     ∧ ∃ plugin, m_devicePlugins m !! dev_pluginId d' = Some plugin
                 ∧ testFlag (plugin_requiredHardware plugin) HardwareResourceTimer = true)
    ∨ (x ≠ device ∧ timerDevice m x).
Proof.
  intros Hp Ho. unfold timerDevice. rewrite !requiresTimer_lookup, Ho, Hp, setUp_insert.
  destruct (decide (x = device)) as [->|Hne].
  - rewrite lookup_insert_eq. split.
    + intros [[[_ Hc] | [? _]] (d & plugin & [= <-] & Hplugin & Hflag)]; [|done].
      left. split; [done|]. split; [done|]. by exists plugin.
    + intros [(_ & Hc & plugin & Hplugin & Hflag) | [? _]]; [|done].
      split; [by left|]. by exists d', plugin.
  - rewrite lookup_insert_ne by done. split.
    + intros [[[? _] | [_ Hs]] Hr]; [done|]. by right.
    + intros [[? _] | [_ [Hs Hr]]]; [done|]. split; [by right | done].
Qed.

Lemma timerDevice_delete m m' device x :
  m_devicePlugins m' = m_devicePlugins m →
  objects m' = delete device (objects m) →
  timerDevice m' x ↔ x ≠ device ∧ timerDevice m x.
Proof.
  intros Hp Ho. unfold timerDevice. rewrite !requiresTimer_lookup, Ho, Hp, setUp_delete.
  destruct (decide (x = device)) as [->|Hne].
  - split; [by intros [[? _] _] | by intros [? _]].
  - rewrite lookup_delete_ne by done. split; [by intros [[_ ?] ?] | by intros [_ [? ?]]].
Qed.

Lemma timerDevice_live m x : timerDevice m x → is_Some (objects m !! x).
Proof. intros [(d & -> & _) _]. by eexists. Qed.

(** What [setupDevice] does to the members [timed] speaks about. *)
Lemma setupDevice_timing device m s m' :
  setupDevice device m = Some (s, m') →
  ∃ d d',
    objects m !! device = Some d
    ∧ objects m' = <[device := d']> (objects m)
    ∧ deviceIdentity d' = deviceIdentity d
    ∧ dev_setupComplete d'
      = (dev_setupComplete d || bool_decide (s = DeviceSetupStatusSuccess))
    ∧ m_supportedDevices m' = m_supportedDevices m
    ∧ m_devicePlugins m' = m_devicePlugins m
    ∧ settings m' = settings m
    ∧ (s ≠ DeviceSetupStatusSuccess → m_pluginTimerUsers m' = m_pluginTimerUsers m)
    ∧ (s = DeviceSetupStatusSuccess →
       ∃ plugin,
         classPlugin m (dev_deviceClassId d) = Some plugin
         ∧ m_pluginTimerUsers m'
           = if testFlag (plugin_requiredHardware plugin) HardwareResourceTimer
             then m_pluginTimerUsers m ++ [device] else m_pluginTimerUsers m).
Proof.
  intros Hsetup.
  assert (m_supportedDevices m' = m_supportedDevices m) as Hclasses
    by (by apply (setupDevice_preserves (sameOn m_supportedDevices)) in Hsetup;
        [|same..]).
  destruct (setupDevice_outcome _ _ _ _ Hsetup)
    as (d & d' & Hd & _ & Ho & Hid & Hcomplete & _ & _ & Husers).
  exists d, d'. split; [done|]. split; [done|]. split; [done|]. split; [done|].
  split; [done|].
  split; [by apply (setupDevice_preserves (sameOn m_devicePlugins)) in Hsetup; [|same..]|].
  split; [by apply (setupDevice_preserves (sameOn settings)) in Hsetup; [|same..]|].
  split.
  - intros Hs. by destruct Husers as [? | [? _]].
  - intros ->. destruct (setupDevice_success _ _ _ _ Hd Hsetup)
      as (plugin & Hplugin & _ & _ & _ & Hu & _).
    by exists plugin.
Qed.

Lemma namesClassPlugin_same m m' pluginId deviceClassId :
  m_supportedDevices m' = m_supportedDevices m →
  m_devicePlugins m' = m_devicePlugins m →
  namesClassPlugin m' pluginId deviceClassId ↔ namesClassPlugin m pluginId deviceClassId.
Proof.
  unfold namesClassPlugin, classPlugin, findDeviceClass. by intros -> ->.
Qed.

Lemma fresh_no_timerDevice m : ¬ timerDevice m (fresh (dom (objects m))).
Proof.
  intros H%timerDevice_live. by apply (is_fresh (dom (objects m))), elem_of_dom.
Qed.

(** A device is allocated in a state [m] that is timed as it should,
    possibly after writes that leave the timing alone, and set up. *)
Section NewDeviceTimed.
Context (m : DeviceManager) (d : Device) (m1 : DeviceManager)
      (s : DeviceSetupStatus) (m2 : DeviceManager).
Hypothesis Hgood : timed m.
Hypothesis Hpending : dev_setupComplete d = false.
Hypothesis Hnames : namesClassPlugin m (dev_pluginId d) (dev_deviceClassId d).
Hypothesis Hnew : timing m1 = (m_supportedDevices m, m_devicePlugins m,
                             m_pluginTimerUsers m,
                             <[fresh (dom (objects m)) := d]> (objects m), settings m).
Hypothesis Hsetup : setupDevice (fresh (dom (objects m))) m1 = Some (s, m2).

Lemma new_setup_timed :
timed m2
∧ (s ≠ DeviceSetupStatusSuccess →
   (m_supportedDevices m2, m_devicePlugins m2, m_pluginTimerUsers m2,
    delete (fresh (dom (objects m))) (objects m2), settings m2) = timing m).
Proof.
injection Hnew as Hc1 Hp1 Hu1 Ho1 Hs1.
destruct (setupDevice_timing _ _ _ _ Hsetup)
  as (d0 & d' & Hd0 & Ho2 & Hid & Hcomplete & Hc2 & Hp2 & Hs2 & Hfail & Hok).
rewrite Ho1, lookup_insert_eq in Hd0. injection Hd0 as <-.
rewrite Ho1, insert_insert_eq in Ho2. rewrite Hpending in Hcomplete. cbn in Hcomplete.
rewrite Hc1 in Hc2. rewrite Hp1 in Hp2. rewrite Hs1 in Hs2. rewrite Hu1 in Hfail, Hok.
injection Hid as Hpid _ Hcid _ _.
destruct Hgood as (Hkeyed & HJ & HS & HK).
assert (fresh (dom (objects m)) ∉ m_pluginTimerUsers m) as Hfresh.
{ intros Hin%HK. by apply fresh_no_timerDevice in Hin. }
split.
- split; [by rewrite Hp2|]. split; [|split].
  + intros device dd. rewrite Ho2. rewrite (namesClassPlugin_same m m2) by done.
    intros [[<- <-] | [_ Hdd]]%lookup_insert_Some; [|by eapply HJ].
    by rewrite Hpid, Hcid.
  + intros id sd. rewrite Hs2. rewrite (namesClassPlugin_same m m2) by done. apply HS.
  + intros x. rewrite (timerDevice_insert m m2 _ d' x Hp2 Ho2), Hcomplete, Hpid.
    destruct (decide (s = DeviceSetupStatusSuccess)) as [->|Hs].
    * destruct Hok as (plugin & Hplugin & ->); [done|].
      unfold classPlugin, findDeviceClass in Hplugin. rewrite Hc1, Hp1 in Hplugin.
      unfold namesClassPlugin, classPlugin, findDeviceClass in Hnames.
      rewrite Hplugin in Hnames. rewrite Hnames.
      rewrite bool_decide_true by done.
      destruct (testFlag _ _) eqn:Hflag.
      -- rewrite elem_of_app, list_elem_of_singleton, HK. split.
         ++ intros [Hx | ->]; [right | left].
            ** split; [by intros -> ; apply (fresh_no_timerDevice m)|done].
            ** split; [done|]. split; [done|]. by exists plugin.
         ++ intros [[-> _] | [_ Hx]]; auto.
      -- rewrite HK. split.
         ++ intros Hx. right. split; [by intros ->; apply (fresh_no_timerDevice m)|done].
         ++ intros [(_ & _ & p & [= <-] & Hp) | [_ Hx]]; [congruence | done].
    * rewrite (Hfail Hs), HK. rewrite bool_decide_false by done. split.
      -- intros Hx. right. split; [by intros ->; apply (fresh_no_timerDevice m)|done].
      -- intros [(_ & ? & _) | [_ Hx]]; [done | done].
- intros Hs. unfold timing. rewrite Hc2, Hp2, (Hfail Hs), Hs2, Ho2.
  rewrite delete_insert_id; [done|].
  apply not_elem_of_dom, is_fresh.
Qed.

Lemma timed_set_up : timed m2.
Proof. apply new_setup_timed. Qed.

(** The setup did not succeed and the new device is deleted. *)
Lemma timed_deleted m3 :
s ≠ DeviceSetupStatusSuccess →
timing m3 = (m_supportedDevices m2, m_devicePlugins m2, m_pluginTimerUsers m2,
             delete (fresh (dom (objects m))) (objects m2), settings m2) →
timed m3.
Proof.
intros Hs Hm3. destruct new_setup_timed as [_ Hback].
apply (timed_timing m); [|done]. by rewrite Hm3, Hback.
Qed.
End NewDeviceTimed.

Lemma keyed_names m deviceClassId plugin :
  pluginsKeyedById (m_devicePlugins m) →
  m_devicePlugins m !! dc_pluginId (findDeviceClass m deviceClassId) = Some plugin →
  namesClassPlugin m (plugin_pluginId plugin) deviceClassId.
Proof.
  intros Hkeyed Hplugin. unfold namesClassPlugin, classPlugin.
  by rewrite (Hkeyed _ _ Hplugin).
Qed.

Lemma timed_store m device d :
  timed m → objects m !! device = Some d → timed (set_settings (storeDevice d) m).
Proof.
  intros (Hkeyed & HJ & HS & HK) Hd. split; [done|]. split; [done|]. split; [|done].
  intros id sd. cbn. unfold storeDevice.
  intros [[<- <-] | [_ Hsd]]%lookup_insert_Some; [|by eapply HS].
  cbn. by eapply HJ.
Qed.

Lemma storeDevices_timed devices m m' :
  timed m → storeDevices devices m = Some (tt, m') → timed m'.
Proof.
  revert m. induction devices as [|device rest IH]; intros m Hgood; cbn [storeDevices].
  - by intros [= <-].
  - unfold readDevice. rewrite bind_run.
    destruct (objects m !! device) as [d|] eqn:Hd; [|done]. mrun.
    apply IH. by eapply timed_store.
Qed.

Lemma storeConfiguredDevices_timed m m' :
  timed m → storeConfiguredDevices m = Some (tt, m') → timed m'.
Proof. intros Hgood. unfold storeConfiguredDevices. mrun. by apply storeDevices_timed. Qed.

(** Closes a goal [timed _] after a device was allocated and set up under
    the plugin of its class. *)
Ltac timed_by lem Hgood Hplugin Hsetup :=
  eapply lem; [exact Hgood | | | | exact Hsetup | ..];
  [ | | reflexivity | ..];
  [ reflexivity | apply keyed_names; [apply Hgood | exact Hplugin] | .. ];
  try done.

Lemma addConfiguredDeviceInternal_timed qt deviceClassId params id m r m' :
  timed m →
  addConfiguredDeviceInternal qt deviceClassId params id m = Some (r, m') →
  timed m'.
Proof.
  intros Hgood. unfold addConfiguredDeviceInternal. mrun.
  destruct (uuid_isNull _); [by intros [= _ <-]|].
  case_bool_decide; [by intros [= _ <-]|].
  destruct (verifyParams _ _ _ _) as [result effective].
  case_bool_decide; [by intros [= _ <-]|].
  unfold findConfiguredDevice. mrun.
  destruct (findDeviceById _ _ _) as [[dup|]|]; mrun; [by intros [= _ <-] | | done].
  destruct (m_devicePlugins m !! _) as [plugin|] eqn:Hplugin; [|by intros [= _ <-]].
  unfold newDevice. mrun.
  destruct (setupDevice _ _) as [[s m2]|] eqn:Hsetup; [|done].
  destruct s; mrun.
  - destruct (storeConfiguredDevices _) as [[[] m3]|] eqn:Hstore; [|done].
    intros [= _ <-]. apply storeConfiguredDevices_timed in Hstore; [done|].
    eapply (timed_timing m2); [done|].
    timed_by timed_set_up Hgood Hplugin Hsetup.
  - unfold deleteDevice. mrun. intros [= _ <-].
    timed_by timed_deleted Hgood Hplugin Hsetup.
  - intros [= _ <-].
    timed_by timed_set_up Hgood Hplugin Hsetup.
Qed.

Lemma setupDevice_catalogs device : preserves (sameOn classesAndPlugins) (setupDevice device).
Proof. apply setupDevice_preserves; same. Qed.

Lemma storeConfiguredDevices_catalogs : preserves (sameOn classesAndPlugins) storeConfiguredDevices.
Proof. apply storeConfiguredDevices_preserves; same. Qed.

Lemma namesClassPlugin_catalogs m m' pluginId deviceClassId :
  classesAndPlugins m' = classesAndPlugins m →
  namesClassPlugin m pluginId deviceClassId → namesClassPlugin m' pluginId deviceClassId.
Proof. intros [= Hc Hp]. by apply namesClassPlugin_same. Qed.

Lemma loadDevices_timed stored m m' :
  timed m →
  Forall (λ group, namesClassPlugin m (sd_pluginid group.2) (sd_deviceClassId group.2))
         stored →
  loadDevices stored m = Some (tt, m') → timed m'.
Proof.
  revert m. induction stored as [|[id sd] rest IH]; intros m Hgood Hstored;
    cbn [loadDevices].
  - by intros [= <-].
  - apply Forall_cons in Hstored as [Hnames Hrest]. cbn in Hnames.
    unfold newDevice. mrun.
    destruct (setupDevice _ _) as [[s m2]|] eqn:Hsetup; [|done]. mrun.
    apply IH.
    + eapply (timed_timing m2); [done|].
      eapply timed_set_up; [exact Hgood | | | | exact Hsetup]; [| |reflexivity];
        [reflexivity | exact Hnames].
    + apply setupDevice_catalogs in Hsetup.
      eapply Forall_impl; [exact Hrest|]. intros group.
      by apply namesClassPlugin_catalogs.
Qed.

Lemma autoDevices_loop_timed plugin deviceClass deviceClassId descriptors m m' :
  timed m →
  m_devicePlugins m !! dc_pluginId (findDeviceClass m deviceClassId) = Some plugin →
  autoDevices_loop plugin deviceClass deviceClassId descriptors m = Some (tt, m') →
  timed m'.
Proof.
  revert m. induction descriptors as [|[descriptor newId] rest IH]; intros m Hgood Hplugin;
    cbn [autoDevices_loop].
  - by intros [= <-].
  - unfold newDevice. mrun.
    destruct (setupDevice _ _) as [[s m2]|] eqn:Hsetup; [|done].
    pose proof (setupDevice_catalogs _ _ _ _ Hsetup) as [= Hc2 Hp2]. cbn in Hc2, Hp2.
    destruct s; mrun.
    + destruct (storeConfiguredDevices _) as [[[] m3]|] eqn:Hstore; [|done].
      pose proof (storeConfiguredDevices_catalogs _ _ _ Hstore) as [= Hc3 Hp3].
      cbn in Hc3, Hp3.
      apply IH.
      * apply storeConfiguredDevices_timed in Hstore; [done|].
        eapply (timed_timing m2); [done|].
        timed_by timed_set_up Hgood Hplugin Hsetup.
      * unfold findDeviceClass. rewrite Hc3, Hp3, Hc2, Hp2. exact Hplugin.
    + unfold deleteDevice. mrun. apply IH.
      * timed_by timed_deleted Hgood Hplugin Hsetup.
      * unfold findDeviceClass. cbn. rewrite Hc2, Hp2. exact Hplugin.
    + apply IH.
      * timed_by timed_set_up Hgood Hplugin Hsetup.
      * unfold findDeviceClass. rewrite Hc2, Hp2. exact Hplugin.
Qed.

Lemma slotPairingFinished_timed tx status newId m m' :
  timed m → slotPairingFinished tx status newId m = Some (tt, m') → timed m'.
Proof.
  intros Hgood. unfold slotPairingFinished. mrun.
  destruct (_ && _); [by intros [= <-]|].
  destruct (m_pairingsJustAdd m !! tx) as [[c1 p1]|];
    destruct (m_pairingsDiscovery m !! tx) as [[c2 d2]|]; mrun;
    (case_bool_decide; [by intros [= <-]|]);
    (destruct (m_devicePlugins m !! _) as [plugin|] eqn:Hplugin; [|by intros [= <-]]);
    unfold newDevice; mrun;
    (destruct (setupDevice _ _) as [[s m2]|] eqn:Hsetup; [|done]);
    destruct s; unfold pairingAppend, deleteDevice; mrun.
  all: try (intros [= <-]; timed_by timed_set_up Hgood Hplugin Hsetup).
  all: destruct (storeConfiguredDevices _) as [[[] m3]|] eqn:Hstore; [|done].
  all: intros [= <-].
  all: try (apply storeConfiguredDevices_timed in Hstore; [done|];
            eapply (timed_timing m2); [done|];
            by timed_by timed_set_up Hgood Hplugin Hsetup).
  all: unfold storeConfiguredDevices in Hstore; rewrite bind_run in Hstore;
       cbn in Hstore;
       apply storeDevices_live with (x := fresh (dom (objects m))) in Hstore.
  all: try (apply elem_of_app; right; by left).
  all: cbn in Hstore; rewrite lookup_delete_eq in Hstore; by destruct Hstore.
Qed.

Lemma removeConfiguredDevice_timed deviceId m r m' :
  timed m → removeConfiguredDevice deviceId m = Some (r, m') → timed m'.
Proof.
  intros Hgood. unfold removeConfiguredDevice, findConfiguredDevice. mrun.
  destruct (findDeviceById _ _ _) as [[device|]|]; mrun; [|by intros [= _ <-]|done].
  unfold readDevice. mrun.
  destruct (objects m !! device) as [d|]; [|done]. mrun.
  destruct (m_devicePlugins m !! _) as [plugin|]; [|done].
  unfold unregisterTimerUser, deleteDevice. mrun.
  destruct Hgood as (Hkeyed & HJ & HS & HK).
  assert (∀ m', (m_supportedDevices m', m_devicePlugins m') = classesAndPlugins m →
                m_pluginTimerUsers m' = removeAllDevice device (m_pluginTimerUsers m) →
                objects m' = delete device (objects m) →
                settings m' = delete deviceId (settings m) →
                timed m') as Hafter.
  { intros m3 [= Hc Hp] Hu Ho Hs. split; [by rewrite Hp|]. split; [|split].
    - intros x dx. rewrite Ho, (namesClassPlugin_same m m3) by done.
      intros [_ Hx]%lookup_delete_Some. by eapply HJ.
    - intros id sd. rewrite Hs, (namesClassPlugin_same m m3) by done.
      intros [_ Hx]%lookup_delete_Some. by eapply HS.
    - intros x. rewrite Hu, removeAllDevice_elem, (timerDevice_delete m m3 device) by done.
      by rewrite HK. }
  case_bool_decide; cbn; intros [= _ <-]; by apply Hafter.
Qed.

Lemma slotDeviceSetupFinished_timed device status m m' :
  timed m → slotDeviceSetupFinished device status m = Some (tt, m') → timed m'.
Proof.
  intros Hgood. unfold slotDeviceSetupFinished.
  destruct device as [device|]; [|by intros [= <-]].
  unfold readDevice. rewrite bind_run.
  destruct (objects m !! device) as [d|] eqn:Hd; [|done]. cbv beta iota.
  destruct (dev_setupComplete d) eqn:Hpending; [by intros [= <-]|].
  destruct status; [|intros [= <-]; by apply (timed_timing m)|by intros [= <-]].
  rewrite bind_run. unfold get. cbv beta iota. rewrite bind_run.
  set (step1 := if negb (bool_decide (device ∈ m_configuredDevices m)) then _ else _).
  destruct (step1 m) as [[[] m1]|] eqn:Hstep1; [|done].
  assert (timed m1
          ∧ (m_supportedDevices m1, m_devicePlugins m1, m_pluginTimerUsers m1, objects m1)
            = (m_supportedDevices m, m_devicePlugins m, m_pluginTimerUsers m, objects m))
    as (Hgood1 & Hsame1).
  { subst step1. revert Hstep1. case_bool_decide as Hin; cbn [negb].
    - by intros [= <-].
    - mrun. intros Hstore. split.
      + apply storeConfiguredDevices_timed in Hstore; [done|]. by apply (timed_timing m).
      + by apply (storeConfiguredDevices_preserves
                    (sameOn (λ m, (m_supportedDevices m, m_devicePlugins m,
                                   m_pluginTimerUsers m, objects m)))) in Hstore;
          [|same..]. }
  injection Hsame1 as Hc1 Hp1 Hu1 Ho1.
  destruct (m_devicePlugins m !! _) as [plugin|] eqn:Hplugin; [|done].
  rewrite bind_run.
  destruct (registerTimerUser_total plugin device m1) as (m2 & -> & Hsame & Husers).
  injection Hsame as Hc2 Hp2 _ _ _ _ _ Ho2 Hs2 _ _.
  unfold writeDevice, readDevice. mrun. rewrite Ho2, Ho1, Hd. mrun.
  intros [= <-].
  destruct Hgood1 as (Hkeyed & HJ & HS & HK).
  match goal with |- timed ?x => set (m' := x) end.
  assert (m_supportedDevices m' = m_supportedDevices m1) as Hc by (by subst m'; cbn).
  assert (m_devicePlugins m' = m_devicePlugins m1) as Hp by (by subst m'; cbn).
  assert (objects m' = <[device := Device_setupCompleted d]> (objects m1)) as Ho
      by (subst m'; cbn; by rewrite Ho1).
  assert (¬ timerDevice m1 device) as Hnot.
  { intros [(d0 & Hd0 & Hcomplete) _]. rewrite Ho1, Hd in Hd0. congruence. }
  split; [by rewrite Hp|]. split; [|split].
  - intros x dx. rewrite Ho, (namesClassPlugin_same m1 m') by done.
    intros [[<- <-] | [_ Hx]]%lookup_insert_Some; [|by eapply HJ].
    cbn. apply (HJ device). by rewrite Ho1.
  - intros id sd. rewrite (namesClassPlugin_same m1 m') by done. subst m'. cbn.
    rewrite Hs2. apply HS.
  - intros x. rewrite (timerDevice_insert m1 m' device _ x Hp Ho).
    change (m_pluginTimerUsers m') with (m_pluginTimerUsers m2).
    cbn [Device_setupCompleted dev_setupComplete dev_pluginId].
    rewrite Hp1, Hplugin, Husers. destruct (testFlag _ _) eqn:Hflag.
    + rewrite elem_of_app, list_elem_of_singleton, HK. split.
      * intros [Hx | ->]; [right | left].
        -- split; [by intros ->|done].
        -- split; [done|]. split; [done|]. by exists plugin.
      * intros [[-> _] | [_ Hx]]; auto.
    + rewrite HK. split.
      * intros Hx. right. split; [by intros ->|done].
      * intros [(_ & _ & p & [= <-] & Hflag') | [_ Hx]]; [congruence | done].
Qed.

Lemma childGroups_stored m :
  timed m →
  Forall (λ group, namesClassPlugin m (sd_pluginid group.2) (sd_deviceClassId group.2))
         (childGroups (settings m)).
Proof.
  intros (_ & _ & HS & _). apply Forall_forall. intros [id sd] Hin. cbn.
  apply (HS id). apply elem_of_map_to_list.
  unfold childGroups in Hin. by rewrite merge_sort_Permutation in Hin.
Qed.

Lemma run_timed qt c m m' : timed m → run qt c m = Some (tt, m') → timed m'.
Proof.
  intros Hgood. destruct c; cbn [run].
  - unfold loadConfiguredDevices. mrun.
    by apply loadDevices_timed; [|apply childGroups_stored].
  - intros [r Hrun]%discard_Some. revert Hrun. unfold addConfiguredDevice. mrun.
    destruct (negb _); [by intros [= _ <-]|].
    destruct (testFlag _ _); [|by intros [= _ <-]].
    by apply addConfiguredDeviceInternal_timed.
  - intros [r Hrun]%discard_Some. revert Hrun. unfold addDiscoveredDevice. mrun.
    destruct (negb (dc_isValid _)); [by intros [= _ <-]|].
    destruct (negb (testFlag _ _)); [by intros [= _ <-]|]. mrun.
    destruct (negb (dd_isValid _)); [intros [= _ <-]; by apply (timed_timing m)|].
    apply addConfiguredDeviceInternal_timed. by apply (timed_timing m).
  - apply timed_frame; [|done]. apply preserves_discard; [apply _|].
    apply discoverDevices_preserves; same.
  - apply timed_frame; [|done]. apply preserves_discard; [apply _|].
    apply pairDeviceParams_preserves; same.
  - apply timed_frame; [|done]. apply preserves_discard; [apply _|].
    apply pairDevice_preserves; same.
  - apply timed_frame; [|done]. apply preserves_discard; [apply _|].
    apply confirmPairing_preserves; same.
  - intros [r Hrun]%discard_Some. by eapply removeConfiguredDevice_timed.
  - apply timed_frame; [|done]. apply slotDevicesDiscovered_preserves; same.
  - by apply slotDeviceSetupFinished_timed.
  - by apply slotPairingFinished_timed.
  - unfold autoDevicesAppeared. mrun.
    destruct (negb _); [by intros [= <-]|].
    destruct (m_devicePlugins m !! _) eqn:Hplugin; [|by intros [= <-]].
    by apply autoDevices_loop_timed.
  - apply timed_frame; [|done]. apply Device_stateValueChanged_preserves; same.
  - mrun. destruct (m_pluginTimerActive m); [|by intros [= <-]].
    apply timed_frame; [|done]. apply timerEvent_preserves; same.
  - mrun. destruct (queuedTimerEvents m); [by intros [= <-]|]. mrun.
    intros Hrun.
    eapply timed_frame; [apply timerEvent_preserves; same| |exact Hrun].
    by apply (timed_timing m).
  - apply timed_frame; [|done]. apply radio433SignalReceived_preserves; same.
Qed.

Lemma reachable_timed qt classes plugins stored m :
  pluginsKeyedById plugins →
  storedUnderClassPlugin (initial classes plugins stored) →
  reachable qt (initial classes plugins stored) m → timed m.
Proof.
  intros Hkeyed Hstored. induction 1 as [|m c m' _ IH Hrun]; [|by eapply run_timed].
  split; [done|]. split; [by intros device d; cbn; rewrite lookup_empty|].
  split; [done|]. intros device. cbn. split; [by intros ?%elem_of_nil|].
  intros [(d & Hd & _) _]. cbn in Hd. by rewrite lookup_empty in Hd.
Qed.

(** ** Starting the timer *)

#[global] Instance timerStarts_preorder : PreOrder timerStarts.
Proof.
  split.
  - intros m. split; [done|]. by intros ->.
  - intros m1 m2 m3 [Hon12 Hoff12] [Hon23 Hoff23]. split.
    + intros H1. destruct (Hon12 H1) as [H2 Hq2]. destruct (Hon23 H2) as [H3 Hq3].
      split; [done | congruence].
    + intros H1. specialize (Hoff12 H1).
      destruct (m_pluginTimerActive m2) eqn:H2.
      * destruct (Hon23 eq_refl) as [-> Hq3]. congruence.
      * rewrite (Hoff23 eq_refl), Hoff12. done.
Qed.

#[global] Instance timerStaysIdle_preorder : PreOrder timerStaysIdle.
Proof.
  split; [by intros m H|]. intros m1 m2 m3 H12 H23 H. by apply H23, H12.
Qed.

Lemma registerTimerUser_timerStarts plugin device :
  preserves timerStarts (registerTimerUser plugin device).
Proof.
  intros m [] m'. unfold registerTimerUser, timerStarts.
  destruct (testFlag _ _); [|intros [= <-]; split; [done | by intros ->]].
  mrun. destruct (m_pluginTimerActive m) eqn:Hactive; cbn; intros [= <-]; cbn;
    by split.
Qed.

Lemma unregisterTimerUser_timerStaysIdle device :
  preserves timerStaysIdle (unregisterTimerUser device).
Proof.
  intros m [] m'. unfold unregisterTimerUser, timerStaysIdle. mrun.
  case_bool_decide; cbn; by intros [= <-].
Qed.

(** Discharges the side conditions of a frame lemma for [timerStarts]. *)
Ltac starts :=
  first
    [ typeclasses eauto
    | apply registerTimerUser_timerStarts
    | by (intros; unfold timerStarts; cbn; split; [done | by intros ->]) ].

(** Discharges the side conditions of a frame lemma for [timerStaysIdle]. *)
Ltac idle :=
  first
    [ typeclasses eauto
    | apply unregisterTimerUser_timerStaysIdle
    | by (intros; unfold timerStaysIdle; cbn) ].

(** But for a removal and for the delivery of a single shot, a command
    does not stop the timer and queues one single shot if it starts it. *)
Lemma run_timerStarts qt c :
  (∀ deviceId, c ≠ RemoveConfiguredDevice deviceId) → c ≠ SingleShot →
  preserves timerStarts (run qt c).
Proof.
  intros Hremove Hshot. destruct c; cbn [run]; try done;
    try (by destruct (Hremove deviceId)); repeat preserves_step;
    first [ apply loadConfiguredDevices_preserves
          | apply addConfiguredDevice_preserves
          | apply addDiscoveredDevice_preserves
          | apply discoverDevices_preserves
          | apply pairDeviceParams_preserves
          | apply pairDevice_preserves
          | apply confirmPairing_preserves
          | apply slotDevicesDiscovered_preserves
          | apply slotDeviceSetupFinished_preserves
          | apply slotPairingFinished_preserves
          | apply autoDevicesAppeared_preserves
          | apply Device_stateValueChanged_preserves
          | apply timerEvent_preserves
          | apply radio433SignalReceived_preserves
          | idtac ];
    starts.
Qed.

(** A removal and the delivery of a single shot do not start the timer. *)
Lemma run_timerStaysIdle qt c :
  (c = SingleShot ∨ ∃ deviceId, c = RemoveConfiguredDevice deviceId) →
  preserves timerStaysIdle (run qt c).
Proof.
  intros [-> | [deviceId ->]]; cbn [run]; repeat preserves_step;
    first [ apply removeConfiguredDevice_preserves
          | apply timerEvent_preserves
          | idtac ];
    idle.
Qed.

(** Whenever a command starts the timer, it queues one single-shot timer
    event, whose delivery is a [timerEvent]. *)
Lemma timer_started_with_a_kick qt c m m' :
  run qt c m = Some (tt, m') →
  m_pluginTimerActive m = false →
  m_pluginTimerActive m' = true →
  queuedTimerEvents m' = S (queuedTimerEvents m)
  ∧ run qt SingleShot m'
    = timerEvent (set_queuedTimerEvents (λ _, queuedTimerEvents m) m').
Proof.
  intros Hrun Hidle Hstarted.
  assert (queuedTimerEvents m' = S (queuedTimerEvents m)) as Hqueued.
  { destruct c;
      try (apply run_timerStarts in Hrun as [_ Hoff]; [|done..];
           by rewrite (Hoff Hidle), Hstarted).
    - apply (run_timerStaysIdle qt (RemoveConfiguredDevice deviceId)) in Hrun;
        [|right; by eexists].
      rewrite (Hrun Hidle) in Hstarted. done.
    - apply (run_timerStaysIdle qt SingleShot) in Hrun; [|by left].
      rewrite (Hrun Hidle) in Hstarted. done. }
  split; [done|]. cbn [run]. rewrite bind_run. unfold get. cbv beta iota.
  rewrite Hqueued. by rewrite bind_run.
Qed.

Lemma run_interval qt c : preserves (sameOn m_pluginTimerInterval) (run qt c).
Proof. apply run_preserves; same. Qed.

Lemma reachable_interval qt classes plugins stored m :
  reachable qt (initial classes plugins stored) m → m_pluginTimerInterval m = 15000%Z.
Proof.
  induction 1 as [|m c m' _ IH Hrun]; [done|].
  by rewrite (run_interval _ _ _ _ _ Hrun).
Qed.

(** In a state that is timed and consistent, the timer runs exactly when a
    configured device is set up under a plugin that needs the timer. *)
Lemma timer_active_iff m :
  TimerInv m → consistent m → timed m →
  (∀ device, device ∈ m_pluginTimerUsers m
             ↔ device ∈ m_configuredDevices m ∧ timerDevice m device)
  ∧ (m_pluginTimerActive m = true ↔ hasTimerDevice m).
Proof.
  intros Hinv [_ Hconf] (_ & _ & _ & HK).
  assert (∀ device, device ∈ m_pluginTimerUsers m
                    ↔ device ∈ m_configuredDevices m ∧ timerDevice m device) as Husers.
  { intros device. split.
    - intros Hin. split; [by apply Hconf | by apply HK].
    - intros [_ Hdev]. by apply HK. }
  split; [done|]. unfold TimerInv in Hinv. rewrite Hinv. unfold hasTimerDevice. split.
  - destruct (m_pluginTimerUsers m) as [|device rest] eqn:E; [done|]. intros _.
    exists device. apply Husers. left.
  - intros (device & Hin%Husers). destruct (m_pluginTimerUsers m); [|done].
    by apply elem_of_nil in Hin.
Qed.


(** ** State changes of devices that are set up *)

Lemma filter_is_NoDup (l : list nat) x :
  NoDup l → filter (λ c, c = x) l = if bool_decide (x ∈ l) then [x] else [].
Proof.
  induction 1 as [|y l Hy Hl IH].
  - by rewrite bool_decide_false by apply not_elem_of_nil.
  - rewrite filter_cons. destruct (decide (y = x)) as [->|Hne].
    + rewrite bool_decide_true by left. rewrite IH, bool_decide_false; done.
    + rewrite IH. rewrite (bool_decide_ext (x ∈ y :: l) (x ∈ l)); [done|].
      rewrite elem_of_cons. split; [by intros [-> | ?] | by right].
Qed.

(** C9 (as amended).  In every state the manager reaches, when a live
    device whose setup is complete signals a state value change, the
    manager emits deviceStateChanged(device, stateTypeId, value) and then
    eventTriggered with an event whose type id is the stateTypeId, whose
    device id is the device's id, whose params are the single param
    ("value", value), and which is flagged as a state change event, once
    each, and nothing else changes; when the setup of the device has
    failed or is pending, the manager is not connected to the device and
    nothing is emitted. *)
Theorem stateValueChanged_emits_once_set_up qt classes plugins stored m device d
        stateTypeId value :
  reachable qt (initial classes plugins stored) m →
  objects m !! device = Some d →
  run qt (StateValueChanged device stateTypeId value) m
  = Some (tt,
          if dev_setupComplete d then
            set_trace
              (λ t, t ++ [EmitDeviceStateChanged device stateTypeId value;
                          EmitEventTriggered
                            (mkEvent stateTypeId (dev_id d)
                                     [mkParam "value" value] true)]) m
          else m).
Proof.
  intros (_ & _ & Hnodup & _ & _ & Hconn)%reachable_setUpOnce Hd.
  cbn [run]. unfold Device_stateValueChanged. rewrite bind_run. unfold get.
  cbv beta iota. rewrite (filter_is_NoDup _ _ Hnodup).
  destruct (dev_setupComplete d) eqn:Hcomplete.
  - rewrite bool_decide_true by (apply Hconn; by exists d). cbn [foldr].
    rewrite bind_run, (slotDeviceStateValueChanged_emits _ _ d) by done.
    by rewrite ret_run.
  - rewrite bool_decide_false; [done|].
    intros (d' & Hd' & Hcomplete')%Hconn. congruence.
Qed.

(** ** The claims on the sample installation *)

(** C3.  A transaction recorded by [pairDevice]; the plugin answers
    Success to [confirmPairing] at once.  The call returns NoError, the
    only effect is the call into the plugin, no [Device] object exists and
    nothing is configured afterwards, and a pairingFinished signal that
    follows is dropped.  On the state before the call, the slot for the
    asynchronous answer does issue the id and set the device up. *)
Theorem confirmPairing_sync_success_creates_no_device :
  match exec sampleOps [DevicesDiscovered pluginA 22 [descriptor 43 22 []];
                        PairDevice 52 22 43] sample0 with
  | Some m =>
      match confirmPairing 52 "secret" m with
      | Some (r, m') =>
          r = DeviceErrorNoError
          ∧ newEffects (confirmPairing 52 "secret") m
            = Some [CallConfirmPairing 1 52 22 []]
          ∧ m_configuredDevices m' = []
          ∧ map_to_list (objects m') = []
          ∧ newEffects (slotPairingFinished 52 DeviceSetupStatusSuccess 300) m'
            = Some []
      | None => False
      end
      ∧ newEffects (slotPairingFinished 52 DeviceSetupStatusSuccess 300) m
        = Some [EmitPairingFinished 52 DeviceErrorNoError 300;
                CallSetupDevice 1 0;
                EmitDeviceSetupFinished 0 DeviceErrorNoError]
  | None => False
  end.
Proof. vm_compute. repeat split; reflexivity. Qed.

(** C8.  One configured device loaded from the store whose class is not in
    the catalog, one configured device of plugin A, which needs the 433 MHz
    radio.  A frame arrives: [radio433SignalReceived] stops at the null
    plugin pointer of the first device and plugin A gets no radioData.
    [timerEvent], which tests the pointer, runs on the same state. *)
Theorem radio433SignalReceived_stops_at_unresolved_device :
  match exec sampleOps [LoadConfiguredDevices; AddConfiguredDevice 21 [] 100]
             (initial sampleClasses samplePlugins storedStray) with
  | Some m =>
      m_configuredDevices m = [0; 1]
      ∧ (dev_deviceClassId <$> objects m !! 0) = Some 99%N
      ∧ m_supportedDevices m !! 99%N = None
      ∧ (dev_deviceClassId <$> objects m !! 1) = Some 21%N
      ∧ requiresRadio433 pluginA = true
      ∧ radio433SignalReceived [320; 960; 320; 960]%Z m = None
      ∧ newEffects timerEvent m = Some [CallGuhTimer 1]
  | None => False
  end.
Proof. vm_compute. repeat split; reflexivity. Qed.

(** Against C4 as it is stated: the plugin answers Failure at once, and
    [confirmPairing] returns SetupFailed without any pairingFinished
    notification. *)
Lemma confirmPairing_sync_failure_emits_nothing :
  match exec sampleOps [DevicesDiscovered pluginB 23 [descriptor 42 23 []];
                        PairDevice 51 23 42] sample0 with
  | Some m =>
      (fst <$> confirmPairing 51 "bad" m) = Some DeviceErrorSetupFailed
      ∧ newEffects (confirmPairing 51 "bad") m = Some [CallConfirmPairing 2 51 23 []]
  | None => False
  end.
Proof. vm_compute. split; reflexivity. Qed.


(** Against C9 as it is stated: a device loaded from the store whose
    setup fails is configured, and a state value change of it makes the
    manager emit nothing. *)
Lemma stateValueChanged_of_failed_device_emits_nothing :
  m_configuredDevices lockLoaded = [0]
  ∧ (dev_setupComplete <$> objects lockLoaded !! 0) = Some false
  ∧ newEffects (run sampleOps (StateValueChanged 0 7 (QVBool true))) lockLoaded
    = Some [].
Proof. vm_compute. repeat split; reflexivity. Qed.

(** Against C10 as it is stated: with a device class id that is not in the
    catalog the call returns before the pool is touched; the descriptor
    stays, and a second call gives the same answer. *)
Lemma addDiscoveredDevice_unknown_class_keeps_descriptor :
  match addDiscoveredDevice sampleOps 99 41 100 poolA with
  | Some (r, m') =>
      m_discoveredDevices poolA !! 41%N = Some (descriptor 41 21 [])
      ∧ r = DeviceErrorDeviceClassNotFound
      ∧ m_discoveredDevices m' !! 41%N = Some (descriptor 41 21 [])
      ∧ (fst <$> addDiscoveredDevice sampleOps 99 41 100 m')
        = Some DeviceErrorDeviceClassNotFound
  | None => False
  end.
Proof. vm_compute. repeat split; reflexivity. Qed.

(** *** The theorems at work *)

Lemma lampState_reachable :
  reachable sampleOps (initial sampleClasses samplePlugins ∅) lampState.
Proof.
  apply (exec_reachable sampleOps [AddConfiguredDevice 21 [] 100]).
  vm_compute. reflexivity.
Qed.

Lemma poolA_reachable :
  reachable sampleOps (initial sampleClasses samplePlugins ∅) poolA.
Proof.
  apply (exec_reachable sampleOps [DevicesDiscovered pluginA 21 [descriptor 41 21 []]]).
  vm_compute. reflexivity.
Qed.

Lemma addConfiguredDevice_validates_and_rejects_witness :
  reachable sampleOps (initial sampleClasses samplePlugins ∅) lampState
  ∧ ∃ m', addConfiguredDevice sampleOps 21 [] 100 lampState
          = Some (DeviceErrorDuplicateUuid, m')
          ∧ m_configuredDevices m' = m_configuredDevices lampState.
Proof.
  split; [exact lampState_reachable|].
  destruct (addConfiguredDevice_validates_and_rejects sampleOps sampleClasses
              samplePlugins ∅ lampState 21 [] 100 lampState_reachable)
    as (r & m' & Hrun & Hchecks & _ & Hkept).
  destruct Hchecks as [_ Hdup]; [vm_compute; reflexivity..|].
  assert (r = DeviceErrorDuplicateUuid) as ->.
  { apply Hdup; [vm_compute; reflexivity|]. exists 0. vm_compute. reflexivity. }
  exists m'. split; [exact Hrun|]. by apply Hkept.
Defined.

Lemma confirmPairing_failure_invalidates_witness :
  ∃ m', confirmPairing 51 "bad" pairedB = Some (DeviceErrorSetupFailed, m')
        ∧ ∀ secret', confirmPairing 51 secret' m'
                     = Some (DeviceErrorPairingTransactionIdNotFound, m').
Proof.
  destruct (confirmPairing_failure_invalidates poolB pairedB 51 23 42 "bad" pluginB)
    as [Hsync _]; [vm_compute; reflexivity..|].
  destruct Hsync as (m' & Hrun & _ & _ & _ & Hgone); [vm_compute; reflexivity|].
  exists m'. split; [exact Hrun | exact Hgone].
Defined.

(** *** The further properties at work *)

Lemma sample0_live : live sample0.
Proof.
  exact (proj1 (reachable_consistent sampleOps sampleClasses samplePlugins ∅ sample0
                  (reachable_start _ _))).
Qed.

Lemma lampState_live : live lampState.
Proof.
  exact (proj1 (reachable_consistent sampleOps sampleClasses samplePlugins ∅ lampState
                  lampState_reachable)).
Qed.

Lemma lampState_added :
  addConfiguredDevice sampleOps 21 [] 100 sample0 = Some (DeviceErrorNoError, lampState).
Proof. vm_compute. reflexivity. Qed.

Lemma pairedB_reachable :
  reachable sampleOps (initial sampleClasses samplePlugins ∅) pairedB.
Proof.
  apply (exec_reachable sampleOps [DevicesDiscovered pluginB 23 [descriptor 42 23 []];
                                   PairDevice 51 23 42]).
  vm_compute. reflexivity.
Qed.

Lemma samplePlugins_keyed : pluginsKeyedById samplePlugins.
Proof.
  intros key plugin. unfold samplePlugins.
  intros [[<- <-] | [_ [[<- <-] | [_ Hnone]]%lookup_insert_Some]]%lookup_insert_Some;
    [done | done | by rewrite lookup_empty in Hnone].
Qed.

Lemma verifyParams_accepted_list_witness :
  verifyParams sampleOps [paramType_n] [] true
  = (DeviceErrorNoError, [mkParam "n" (QVInt 3)])
  ∧ 0 < countName "n" [mkParam "n" (QVInt 3)].
Proof.
  split; [vm_compute; reflexivity|].
  destruct (verifyParams_accepted_list sampleOps [paramType_n] []
              [mkParam "n" (QVInt 3)]) as (Hall & _); [vm_compute; reflexivity|].
  apply (Hall paramType_n). left.
Defined.

Lemma verifyParams_rejects_undeclared_name_witness :
  verifyParams sampleOps [paramType_n] [mkParam "x" (QVInt 1)] true
  = (DeviceErrorInvalidParameter, [mkParam "x" (QVInt 1)]).
Proof.
  apply (verifyParams_rejects_undeclared_name sampleOps [paramType_n] _ true
           (mkParam "x" (QVInt 1))).
  - left.
  - by intros pt ->%list_elem_of_singleton.
Defined.

Lemma verifyParams_reports_missing_witness :
  (verifyParams sampleOps [paramType_k] [] true).1 = DeviceErrorMissingParameter.
Proof.
  apply (verifyParams_reports_missing sampleOps [paramType_k] [] paramType_k).
  - by intros p ?%elem_of_nil.
  - left.
  - by intros q ->%list_elem_of_singleton.
  - reflexivity.
Defined.

Lemma reachable_catalogs_fixed_witness :
  reachable sampleOps (initial sampleClasses samplePlugins ∅) lampState
  ∧ m_supportedDevices lampState = sampleClasses
  ∧ m_devicePlugins lampState = samplePlugins.
Proof.
  split; [exact lampState_reachable|].
  exact (reachable_catalogs_fixed sampleOps sampleClasses samplePlugins ∅ lampState
           lampState_reachable).
Defined.

Lemma findConfiguredDevice_first_match_witness :
  live lampState
  ∧ ∃ found, findConfiguredDevice 100 lampState = Some (found, lampState).
Proof.
  split; [exact lampState_live|].
  destruct (findConfiguredDevice_first_match lampState 100 lampState_live)
    as (found & Hrun & _).
  by exists found.
Defined.

Lemma findConfiguredDevices_of_class_witness :
  live lampState
  ∧ ∃ ret, findConfiguredDevices 21 lampState = Some ret
           ∧ ret `sublist_of` m_configuredDevices lampState.
Proof.
  split; [exact lampState_live|].
  destruct (findConfiguredDevices_of_class lampState 21 lampState_live)
    as (ret & Hrun & Hsub & _).
  by exists ret.
Defined.

Lemma removeConfiguredDevice_unknown_id_witness :
  removeConfiguredDevice 999 lampState = Some (DeviceErrorDeviceNotFound, lampState).
Proof.
  apply removeConfiguredDevice_unknown_id; [exact lampState_live|].
  intros device d Hin Hd.
  assert (m_configuredDevices lampState = [0]) as E by (vm_compute; reflexivity).
  rewrite E in Hin. apply list_elem_of_singleton in Hin. subst device.
  assert (objects lampState !! 0 = Some lamp) as E0 by (vm_compute; reflexivity).
  rewrite E0 in Hd. injection Hd as <-. intros [=].
Defined.

Lemma removeConfiguredDevice_found_witness :
  ∃ m', removeConfiguredDevice 100 lampState = Some (DeviceErrorNoError, m')
        ∧ objects m' = delete 0 (objects lampState)
        ∧ settings m' = delete 100%N (settings lampState).
Proof.
  pose proof (removeConfiguredDevice_found lampState 100 0 lamp) as Hfound.
  change (m_devicePlugins lampState !! dev_pluginId lamp) with (Some pluginA) in Hfound.
  destruct Hfound as (m' & Hrun & _ & _ & _ & Ho & Hs & _); [vm_compute; reflexivity..|].
  by exists m'.
Defined.

Lemma pairDeviceParams_never_pairs_witness :
  reachable sampleOps (initial sampleClasses samplePlugins ∅) lampState
  ∧ m_pairingsJustAdd lampState = ∅.
Proof.
  split; [exact lampState_reachable|].
  exact (proj1 (pairDeviceParams_never_pairs sampleOps sampleClasses samplePlugins ∅
                  lampState lampState_reachable)).
Defined.

Lemma confirmPairing_keeps_open_or_closes_witness :
  reachable sampleOps (initial sampleClasses samplePlugins ∅) pairedB
  ∧ ∃ r m', confirmPairing 51 "pin" pairedB = Some (r, m')
            ∧ (is_Some (m_pairingsDiscovery m' !! 51%N)
               ↔ r = DeviceErrorAsync ∨ r = DeviceErrorPluginNotFound).
Proof.
  split; [exact pairedB_reachable|].
  destruct (confirmPairing_keeps_open_or_closes sampleOps sampleClasses samplePlugins ∅
              pairedB 51 "pin" pairedB_reachable) as (r & m' & Hrun & _ & Hopen & _).
  by exists r, m'.
Defined.

Lemma slotPairingFinished_closes_transaction_witness :
  ∃ m', slotPairingFinished 51 DeviceSetupStatusFailure 300 pairedB = Some (tt, m')
        ∧ m_pairingsDiscovery m' = delete 51%N (m_pairingsDiscovery pairedB).
Proof.
  destruct (slotPairingFinished 51 DeviceSetupStatusFailure 300 pairedB)
    as [[[] m']|] eqn:Hrun; [|vm_compute in Hrun; discriminate].
  exists m'. split; [reflexivity|].
  exact (proj1 (proj2 (slotPairingFinished_closes_transaction 51 DeviceSetupStatusFailure
                         300 pairedB m' Hrun))).
Defined.

Lemma slotPairingFinished_failed_setup_stops_witness :
  slotPairingFinished 51 DeviceSetupStatusSuccess 300 pairedB = None.
Proof.
  apply (slotPairingFinished_failed_setup_stops pairedB 51 23 42 300 pluginB);
    vm_compute; reflexivity.
Defined.

Lemma slotDeviceSetupFinished_cases_witness :
  live lampState
  ∧ objects lampState !! 0 = Some lamp
  ∧ slotDeviceSetupFinished (Some 0) DeviceSetupStatusSuccess lampState
    = Some (tt, lampState).
Proof.
  split; [exact lampState_live|]. split; [vm_compute; reflexivity|].
  apply (slotDeviceSetupFinished_cases lampState 0 lamp DeviceSetupStatusSuccess);
    [exact lampState_live | vm_compute; reflexivity].
Defined.

Lemma reachable_set_up_once_witness :
  reachable sampleOps (initial sampleClasses samplePlugins ∅) lampState
  ∧ NoDup (connections lampState)
  ∧ ∀ device, device ∈ connections lampState ↔ setUp (objects lampState) device.
Proof.
  split; [exact lampState_reachable|].
  destruct (reachable_set_up_once sampleOps sampleClasses samplePlugins ∅ lampState
              lampState_reachable) as (_ & _ & Hnodup & _ & Hconnected).
  by split.
Defined.

Lemma storeConfiguredDevices_stores_witness :
  live lampState ∧ ∃ m', storeConfiguredDevices lampState = Some (tt, m').
Proof.
  split; [exact lampState_live|].
  destruct (storeConfiguredDevices_stores lampState lampState_live) as (m' & Hrun & _).
  by exists m'.
Defined.

Lemma autoDevicesAppeared_configures_what_sets_up_witness :
  live lampState
  ∧ ∃ m', autoDevicesAppeared 21 [(descriptor 41 21 [], 101%N)] lampState
          = Some (tt, m').
Proof.
  split; [exact lampState_live|].
  destruct (autoDevicesAppeared_configures_what_sets_up lampState 21
              [(descriptor 41 21 [], 101%N)] lampState_live) as (m' & Hrun & _).
  by exists m'.
Defined.

Lemma addConfiguredDevice_success_witness :
  addConfiguredDevice sampleOps 21 [] 100 sample0 = Some (DeviceErrorNoError, lampState)
  ∧ ∃ d, objects lampState = <[fresh (dom (objects sample0)) := d]> (objects sample0)
         ∧ dev_params d = [mkParam "n" (QVInt 3)]
         ∧ dev_setupComplete d = true.
Proof.
  split; [exact lampState_added|].
  destruct (addConfiguredDevice_success sampleOps 21 [] 100 sample0 lampState
              lampState_added)
    as (plugin & effective & d & sd & Hverified & _ & _ & _ & Ho & _ & Hid & _ & Hdone & _).
  exists d. split; [exact Ho|]. split; [|exact Hdone].
  injection Hid as _ _ _ _ ->. vm_compute in Hverified. by injection Hverified as <-.
Defined.

Lemma addConfiguredDevice_then_remove_witness :
  ∃ m2, removeConfiguredDevice 100 lampState = Some (DeviceErrorNoError, m2)
        ∧ m_configuredDevices m2 = m_configuredDevices sample0
        ∧ objects m2 = objects sample0.
Proof.
  destruct (addConfiguredDevice_then_remove sampleOps sampleClasses samplePlugins ∅
              sample0 21 [] 100 lampState (reachable_start _ _) samplePlugins_keyed
              lampState_added)
    as (m2 & Hrun & Hc & _ & _ & _ & Ho & _).
  by exists m2.
Defined.

Lemma executeAction_dispatches_verified_action_witness :
  executeAction sampleOps sampleActionTypes (mkAction 61 100 []) lampState
  = Some (ActionDispatched pluginA 0 (mkAction 61 100 [mkParam "n" (QVInt 3)]))
  ∧ ∃ d, objects lampState !! 0 = Some d ∧ dev_id d = 100%N.
Proof.
  split; [vm_compute; reflexivity|].
  destruct (executeAction_dispatches_verified_action sampleOps sampleActionTypes
              (mkAction 61 100 []) lampState pluginA 0
              (mkAction 61 100 [mkParam "n" (QVInt 3)]))
    as (d & actionType & _ & Hd & Hid & _); [vm_compute; reflexivity|].
  by exists d.
Defined.

Lemma radio433SignalReceived_fanout_witness :
  ∃ targets,
    radio433SignalReceived [1; 0]%Z lampState
    = Some (tt, set_trace
                  (λ t, t ++ ((λ plugin, CallRadioData (plugin_addr plugin) [1; 0]%Z)
                                <$> targets)) lampState)
    ∧ NoDup (plugin_addr <$> targets).
Proof.
  destruct (radio433SignalReceived_fanout lampState [1; 0]%Z)
    as (targets & Hrun & Hnodup & _).
  { intros device Hin.
    assert (m_configuredDevices lampState = [0]) as E by (vm_compute; reflexivity).
    rewrite E in Hin. apply list_elem_of_singleton in Hin. subst device.
    exists lamp. split; [vm_compute; reflexivity|].
    exists pluginA. vm_compute. reflexivity. }
  by exists targets.
Defined.

Lemma addDiscoveredDevice_takes_descriptor_of_discovery_class_witness :
  reachable sampleOps (initial sampleClasses samplePlugins ∅) poolA
  ∧ (∃ r m', addDiscoveredDevice sampleOps 21 41 100 poolA = Some (r, m')
             ∧ m_discoveredDevices m' !! 41%N = None)
  ∧ addDiscoveredDevice sampleOps 99 41 100 poolA
    = Some (DeviceErrorDeviceClassNotFound, poolA).
Proof.
  split; [exact poolA_reachable|]. split.
  - destruct (addDiscoveredDevice_takes_descriptor_of_discovery_class sampleOps
                sampleClasses samplePlugins ∅ poolA 21 41 100 poolA_reachable)
      as (r & m' & Hrun & Htaken & _).
    destruct Htaken as [Hgone _]; [vm_compute; reflexivity..|].
    by exists r, m'.
  - destruct (addDiscoveredDevice_takes_descriptor_of_discovery_class sampleOps
                sampleClasses samplePlugins ∅ poolA 99 41 100 poolA_reachable)
      as (r & m' & Hrun & _ & Hunknown & _).
    destruct Hunknown as [-> ->]; [vm_compute; reflexivity|]. exact Hrun.
Defined.

Lemma stateValueChanged_emits_once_set_up_witness :
  reachable sampleOps (initial sampleClasses samplePlugins ∅) lampState
  ∧ objects lampState !! 0 = Some lamp
  ∧ run sampleOps (StateValueChanged 0 7 (QVBool true)) lampState
    = Some (tt, set_trace
                  (λ t, t ++ [EmitDeviceStateChanged 0 7 (QVBool true);
                              EmitEventTriggered
                                (mkEvent 7 100 [mkParam "value" (QVBool true)]
                                         true)]) lampState).
Proof.
  split; [exact lampState_reachable|]. split; [vm_compute; reflexivity|].
  apply (stateValueChanged_emits_once_set_up sampleOps sampleClasses samplePlugins ∅
           lampState 0 lamp 7 (QVBool true) lampState_reachable).
  vm_compute. reflexivity.
Defined.

Lemma lockAndLamp_reachable :
  reachable sampleOps (initial sampleClasses samplePlugins storedLock) lockAndLamp.
Proof.
  apply (exec_reachable sampleOps [LoadConfiguredDevices; AddConfiguredDevice 21 [] 100]).
  vm_compute. reflexivity.
Qed.

Lemma storedLock_names_class_plugin :
  storedUnderClassPlugin (initial sampleClasses samplePlugins storedLock).
Proof.
  intros id sd Hsd. cbn in Hsd. unfold storedLock in Hsd.
  apply lookup_singleton_Some in Hsd as [<- <-]. vm_compute. reflexivity.
Qed.

